(** * AuroraSkins submission client: a shallow embedding of [src/app.ts]
      and [api/github-callback.js], with the properties of its metadata
      extractor, identifier derivation, duplicate check, pull-request
      sequence, token storage and OAuth callback endpoint. *)

From Stdlib Require Import ZArith QArith Ascii String Lia.
From stdpp Require Import base tactics option list gmap.

Local Open Scope Z_scope.

(** ** JavaScript strings and values *)

(** A JavaScript string is a sequence of UTF-16 code units. *)
Abbreviation jsstring := (list N).

(** A source-code string literal (ASCII only). *)
Definition lit (s : string) : jsstring :=
  N_of_ascii <$> list_ascii_of_string s.

Definition lbrace : N := 123%N.
Definition rbrace : N := 125%N.
Definition dquote : N := 34%N.

(** The values of an IEEE double, as far as the client looks at them. *)
Inductive JsNumber :=
| Finite (q : Q)
| PosInf
| NegInf
| NaN.

(** What [JSON.parse] can return. *)
#[warnings="-register-all"]
Inductive JsValue :=
| JNull
| JBool (b : bool)
| JNum (x : JsNumber)
| JStr (s : jsstring)
| JArr (elems : list JsValue)
| JObj (fields : list (jsstring * JsValue)).

(** What the client throws or rejects with: [new Error(msg)], or a
    [TypeError] raised by the engine (reading a property of [null] or
    [undefined], calling something that is not a function). *)
Inductive Exn :=
| Error (msg : jsstring)
| TypeError.

(** A promise that has settled, or a call that has returned or thrown. *)
Inductive Settled (A : Type) :=
| Resolved (v : A)
| Rejected (e : Exn).
Arguments Resolved {A} v.
Arguments Rejected {A} e.

(** ** String primitives used by [parseXzpMetadata] *)

(** [text.indexOf(pat)] searching from offset [i] of the original string:
    the first index at which [pat] occurs, or -1. *)
Fixpoint indexOf_from (pat text : jsstring) (i : Z) : Z :=
  if decide (pat `prefix_of` text) then i
  else match text with
       | [] => -1
       | _ :: rest => indexOf_from pat rest (i + 1)
       end.

Definition indexOf (text pat : jsstring) : Z := indexOf_from pat text 0.

(** [text.substring(a, b)]: arguments are clamped to [0, length] and
    swapped when [a > b]. *)
Definition substring (text : jsstring) (a b : Z) : jsstring :=
  let len := Z.of_nat (length text) in
  let a' := Z.min (Z.max a 0) len in
  let b' := Z.min (Z.max b 0) len in
  let lo := Z.min a' b' in
  let hi := Z.max a' b' in
  take (Z.to_nat (hi - lo)) (drop (Z.to_nat lo) text).

(** ** [parseXzpMetadata] *)

(** The marker ['{"metaver"']. *)
Definition metaver_marker : jsstring :=
  lbrace :: dquote :: lit "metaver" ++ [dquote].

(** One round of the [for] loop body at index [i]: the new brace count. *)
Definition count_brace (text : jsstring) (i : nat) (openBraces : Z) : Z :=
  if decide (text !! i = Some lbrace) then openBraces + 1
  else if decide (text !! i = Some rbrace) then openBraces - 1
  else openBraces.

(** The loop [for (let i = startIndex; i < text.length; i++)]. The result is
    the final [endIndex] (-1 when the loop runs off the end of the text)
    together with the list of positions [i] at which [text[i]] was read, in
    the order they were read. [None] means the fuel ran out. *)
Fixpoint scan_loop (fuel : nat) (text : jsstring) (i : nat) (openBraces : Z)
    (visited : list nat) : option (Z * list nat) :=
  match fuel with
  | O => None
  | S fuel' =>
      if decide (i < length text)%nat then
        let openBraces' := count_brace text i openBraces in
        if decide (openBraces' = 0) then Some (Z.of_nat i, visited ++ [i])
        else scan_loop fuel' text (S i) openBraces' (visited ++ [i])
      else Some (-1, visited)
  end.

(** The brace scan started at [startIndex] with [openBraces = 0]. *)
Definition scan_braces (text : jsstring) (startIndex : nat)
    : option (Z * list nat) :=
  scan_loop (S (length text)) text startIndex 0 [].

(** What [FileReader.readAsText] delivers: the decoded text to [onload], or
    an error to [onerror]. Decoding as ISO-8859-1 yields one code unit per
    byte of the file. *)
Inductive ReadResult :=
| Loaded (text : jsstring)
| ReadFailed.

Section Parsing.

(** [JSON.parse], which throws (here: [None]) on invalid JSON. *)
Variable JSON_parse : jsstring → option JsValue.

(** The [reader.onload] handler of [parseXzpMetadata]. [None] only if the
    scan loop ran out of fuel. *)
Definition parseXzpMetadata_onload (text : jsstring)
    : option (Settled JsValue) :=
  let startIndex := indexOf text metaver_marker in
  if decide (startIndex = -1) then
    Some (Rejected (Error (lit "Could not find metadata block in skin file.")))
  else
    '(endIndex, _) ← scan_braces text (Z.to_nat startIndex);
    if decide (endIndex = -1) then
      Some (Rejected
        (Error (lit "Could not find the end of the metadata block.")))
    else
      let jsonString := substring text startIndex (endIndex + 1) in
      match JSON_parse jsonString with
      | Some metadata => Some (Resolved metadata)
      | None =>
          Some (Rejected
            (Error (lit "Failed to parse extracted JSON metadata.")))
      end.

Definition parseXzpMetadata (r : ReadResult) : option (Settled JsValue) :=
  match r with
  | Loaded text => parseXzpMetadata_onload text
  | ReadFailed => Some (Rejected (Error (lit "Failed to read skin file.")))
  end.

End Parsing.

(** ** JavaScript value operations *)

Definition number_truthy (x : JsNumber) : bool :=
  match x with
  | Finite q => negb (Qeq_bool q 0)
  | PosInf | NegInf => true
  | NaN => false
  end.

(** Truthiness of a string: every string but the empty one. *)
Definition string_truthy (s : jsstring) : bool := negb (bool_decide (s = [])).

(** Truthiness, as tested by [if (v)], [!v], [a || b] and [a && b]. *)
Definition truthy (v : JsValue) : bool :=
  match v with
  | JNull => false
  | JBool b => b
  | JNum x => number_truthy x
  | JStr s => string_truthy s
  | JArr _ | JObj _ => true
  end.

(** Truthiness of a value that may be [undefined] ([None]). *)
Definition truthy_opt (v : option JsValue) : bool := from_option truthy false v.

(** Own property [key] of a parsed JSON object, as an association list
    ([JSON.parse] yields each key once). *)
Fixpoint lookup_field (key : jsstring) (fields : list (jsstring * JsValue))
    : option JsValue :=
  match fields with
  | [] => None
  | (k, v) :: rest => if decide (k = key) then Some v else lookup_field key rest
  end.

(** [v.key] for the keys the client reads ([id], [code], [error], ...): a
    [TypeError] on [null], the field of an object, [undefined] on arrays and
    primitives, none of which has such a property. *)
Definition get_prop (v : JsValue) (key : jsstring) : Settled (option JsValue) :=
  match v with
  | JNull => Rejected TypeError
  | JObj fields => Resolved (lookup_field key fields)
  | _ => Resolved None
  end.

(** [o.key] where [o] itself may be [undefined]. *)
Definition get_prop_opt (o : option JsValue) (key : jsstring)
    : Settled (option JsValue) :=
  match o with
  | None => Rejected TypeError
  | Some v => get_prop v key
  end.

(** [key in v]: a [TypeError] unless [v] is an object or an array. *)
Definition has_prop (key : jsstring) (v : JsValue) : Settled bool :=
  match v with
  | JObj fields => Resolved (bool_decide (is_Some (lookup_field key fields)))
  | JArr _ => Resolved false
  | _ => Rejected TypeError
  end.

Definition is_string (v : option JsValue) : bool :=
  match v with Some (JStr _) => true | _ => false end.

(** [Array.isArray(v)], with the elements when it holds. *)
Definition as_array (v : option JsValue) : option (list JsValue) :=
  match v with Some (JArr l) => Some l | _ => None end.

(** [typeof v === 'object'] ([null] included). *)
Definition typeof_object (v : JsValue) : bool :=
  match v with JNull | JArr _ | JObj _ => true | _ => false end.

(** [x === s] for a string [s]. *)
Definition strict_eq_string (x : option JsValue) (s : jsstring) : bool :=
  match x with
  | Some (JStr t) => bool_decide (t = s)
  | _ => false
  end.

(** [a > b] on numbers, [a] an integer. *)
Definition int_gt (a : Z) (b : JsNumber) : bool :=
  match b with
  | Finite q => negb (Qle_bool (inject_Z a) q)
  | NegInf => true
  | PosInf | NaN => false
  end.

(** [parts.join(sep)]. *)
Fixpoint join (sep : jsstring) (parts : list jsstring) : jsstring :=
  match parts with
  | [] => []
  | [p] => p
  | p :: rest => p ++ sep ++ join sep rest
  end.

(** [s.replace(/[^a-z0-9]/g, '')]: every code unit matched by the negated
    class is replaced by the empty string. *)
Definition in_range (lo hi c : N) : bool := ((lo <=? c) && (c <=? hi))%N.

Definition matches_not_az09 (c : N) : bool :=
  negb (in_range 97 122 c || in_range 48 57 c).

Definition replace_not_az09 (s : jsstring) : jsstring :=
  c ← s; if matches_not_az09 c then [] else [c].

(** ** Client state *)

Record File := {
  file_name : jsstring;
  file_size : Z;
  file_handle : nat  (* identity of the File object *)
}.

Record QueuedFile := {
  file : File;
  desiredPath : jsstring;
  maxSize : JsNumber
}.

(** [Omit<SubmissionItem, 'id'>]. [item_type] is the value of the type
    selector; [website] and [metadata] are optional. *)
Record ItemDraft := {
  draft_type : jsstring;
  draft_name : jsstring;
  draft_author : jsstring;
  draft_website : option jsstring;
  draft_files : list QueuedFile;
  draft_metadata : option JsValue
}.

Record SubmissionItem := {
  item_id : Z;
  item_type : jsstring;
  name : jsstring;
  author : jsstring;
  website : option jsstring;
  files : list QueuedFile;
  metadata : option JsValue
}.

(** [{ ...item, id }]. *)
Definition with_id (d : ItemDraft) (id : Z) : SubmissionItem :=
  {| item_id := id; item_type := draft_type d; name := draft_name d;
     author := draft_author d; website := draft_website d;
     files := draft_files d; metadata := draft_metadata d |}.

Inductive StatusType := success | error | info.

(** The requests and effects the client issues towards the outside. *)
Inductive ApiCall :=
| UsersGetAuthenticated
| ReposGetContent (owner repo path : jsstring)
| FetchGithubCallback (code : jsstring)
| ReposCreateFork (owner repo : jsstring)
| ReposGet (owner repo : jsstring)
| GitGetRef (owner repo ref : jsstring)
| GitCreateRef (owner repo ref sha : jsstring)
| ReadFileAsBase64 (f : File)
| ReposCreateOrUpdateFileContents
    (owner repo path message content branch : jsstring)
| PullsCreate (owner repo title body head base : jsstring).

(** [new Octokit({ auth })]. *)
Record Octokit := { auth : option JsValue }.

(** The module-level variables of [app.ts], [localStorage], the status line
    and the log of requests issued so far. *)
Record World := {
  localStorage : gmap jsstring jsstring;
  octokit : option Octokit;  (* [None] while the variable is unassigned *)
  submissionQueue : list SubmissionItem;
  currentSkinMetadata : JsValue;
  currentCoverflowMetadata : JsValue;
  nextItemId : Z;
  existingContentList : list JsValue;
  status : option (jsstring * StatusType);
  requests : list ApiCall
}.

Definition set_localStorage (s : gmap jsstring jsstring) (w : World) : World :=
  {| localStorage := s; octokit := octokit w;
     submissionQueue := submissionQueue w;
     currentSkinMetadata := currentSkinMetadata w;
     currentCoverflowMetadata := currentCoverflowMetadata w;
     nextItemId := nextItemId w; existingContentList := existingContentList w;
     status := status w; requests := requests w |}.

Definition set_octokit (o : option Octokit) (w : World) : World :=
  {| localStorage := localStorage w; octokit := o;
     submissionQueue := submissionQueue w;
     currentSkinMetadata := currentSkinMetadata w;
     currentCoverflowMetadata := currentCoverflowMetadata w;
     nextItemId := nextItemId w; existingContentList := existingContentList w;
     status := status w; requests := requests w |}.

Definition set_submissionQueue (q : list SubmissionItem) (w : World) : World :=
  {| localStorage := localStorage w; octokit := octokit w;
     submissionQueue := q;
     currentSkinMetadata := currentSkinMetadata w;
     currentCoverflowMetadata := currentCoverflowMetadata w;
     nextItemId := nextItemId w; existingContentList := existingContentList w;
     status := status w; requests := requests w |}.

Definition set_currentSkinMetadata (m : JsValue) (w : World) : World :=
  {| localStorage := localStorage w; octokit := octokit w;
     submissionQueue := submissionQueue w;
     currentSkinMetadata := m;
     currentCoverflowMetadata := currentCoverflowMetadata w;
     nextItemId := nextItemId w; existingContentList := existingContentList w;
     status := status w; requests := requests w |}.

Definition set_currentCoverflowMetadata (m : JsValue) (w : World) : World :=
  {| localStorage := localStorage w; octokit := octokit w;
     submissionQueue := submissionQueue w;
     currentSkinMetadata := currentSkinMetadata w;
     currentCoverflowMetadata := m;
     nextItemId := nextItemId w; existingContentList := existingContentList w;
     status := status w; requests := requests w |}.

Definition set_nextItemId (n : Z) (w : World) : World :=
  {| localStorage := localStorage w; octokit := octokit w;
     submissionQueue := submissionQueue w;
     currentSkinMetadata := currentSkinMetadata w;
     currentCoverflowMetadata := currentCoverflowMetadata w;
     nextItemId := n; existingContentList := existingContentList w;
     status := status w; requests := requests w |}.

Definition set_existingContentList (l : list JsValue) (w : World) : World :=
  {| localStorage := localStorage w; octokit := octokit w;
     submissionQueue := submissionQueue w;
     currentSkinMetadata := currentSkinMetadata w;
     currentCoverflowMetadata := currentCoverflowMetadata w;
     nextItemId := nextItemId w; existingContentList := l;
     status := status w; requests := requests w |}.

Definition set_status (s : option (jsstring * StatusType)) (w : World) : World :=
  {| localStorage := localStorage w; octokit := octokit w;
     submissionQueue := submissionQueue w;
     currentSkinMetadata := currentSkinMetadata w;
     currentCoverflowMetadata := currentCoverflowMetadata w;
     nextItemId := nextItemId w; existingContentList := existingContentList w;
     status := s; requests := requests w |}.

Definition set_requests (r : list ApiCall) (w : World) : World :=
  {| localStorage := localStorage w; octokit := octokit w;
     submissionQueue := submissionQueue w;
     currentSkinMetadata := currentSkinMetadata w;
     currentCoverflowMetadata := currentCoverflowMetadata w;
     nextItemId := nextItemId w; existingContentList := existingContentList w;
     status := status w; requests := r |}.

(** The state of a freshly loaded page over a given [localStorage]. *)
Definition page_load (storage : gmap jsstring jsstring) : World :=
  {| localStorage := storage; octokit := None; submissionQueue := [];
     currentSkinMetadata := JNull; currentCoverflowMetadata := JNull;
     nextItemId := 0; existingContentList := []; status := None;
     requests := [] |}.

Definition showStatus (message : jsstring) (type : StatusType) (w : World)
    : World :=
  set_status (Some (message, type)) w.

(** [resetForms], as far as it touches the module-level variables (the rest
    clears and hides DOM inputs). *)
Definition resetForms (w : World) : World :=
  set_currentCoverflowMetadata JNull (set_currentSkinMetadata JNull w).

(** ** [handleAddToQueue] *)

(** A file input: [input.files?.[0]] and
    [parseInt(input.dataset.maxSize || '0')]. *)
Record FileInput := {
  input_file : option File;
  input_maxSize : JsNumber
}.

(** The form controls [handleAddToQueue] reads when the button is clicked. *)
Record Form := {
  submission_type : jsstring;
  background_name : jsstring;
  background_author : jsstring;
  background_image : FileInput;
  skin_file : FileInput;
  skin_screenshot : FileInput;
  skin_website : jsstring;
  coverflow_file : FileInput;
  coverflow_screenshot : FileInput;
  coverflow_website : jsstring
}.

(** [list.some(existing => existing.id === itemId)]. *)
Fixpoint some_id_equals (list : list JsValue) (itemId : jsstring)
    : Settled bool :=
  match list with
  | [] => Resolved false
  | existing :: rest =>
      match get_prop existing (lit "id") with
      | Rejected e => Rejected e
      | Resolved x =>
          if strict_eq_string x itemId then Resolved true
          else some_id_equals rest itemId
      end
  end.

(** How one of the three type branches ends. *)
Inductive Branch :=
| Return (w : World)     (* [showStatus(...); return;] *)
| Throw (e : Exn)
| Item (item : ItemDraft)
| NoItem.                (* [item] is still [null] *)

(** How the call ended, with the value of the local [itemId] at that point. *)
Record AddResult := {
  completion : Settled unit;
  itemId : jsstring
}.

Definition already_exists (itemId : jsstring) : jsstring :=
  lit "Error: An item with ID '" ++ itemId ++ lit "' already exists.".

Section AddToQueue.

(** [String.prototype.toLowerCase]. *)
Variable toLowerCase : jsstring → jsstring.

(** [s.toLowerCase().replace(/[^a-z0-9]/g, '')]. *)
Definition sanitize (s : jsstring) : jsstring :=
  replace_not_az09 (toLowerCase s).

Definition background_branch (f : Form) (w : World) : Branch * jsstring :=
  let name := background_name f in
  let author := background_author f in
  let imageInput := background_image f in
  match string_truthy name, string_truthy author, input_file imageInput with
  | true, true, Some imageFile =>
      let sanitizedName := sanitize name in
      let sanitizedAuthor := sanitize author in
      let itemId := lit "bg." ++ sanitizedAuthor ++ lit "." ++ sanitizedName in
      match some_id_equals (existingContentList w) itemId with
      | Rejected e => (Throw e, itemId)
      | Resolved true => (Return (showStatus (already_exists itemId) error w), itemId)
      | Resolved false =>
          (Item {| draft_type := submission_type f;
                   draft_name := name; draft_author := author;
                   draft_website := None;
                   draft_files :=
                     [ {| file := imageFile;
                          desiredPath :=
                            lit "repo/backgrounds/bg." ++ sanitizedAuthor
                              ++ lit "." ++ sanitizedName ++ lit ".jpg";
                          maxSize := input_maxSize imageInput |} ];
                   draft_metadata := None |}, itemId)
      end
  | _, _, _ =>
      (Return (showStatus (lit "Please fill all fields for the background.")
                 error w), [])
  end.

Definition skin_branch (f : Form) (w : World) : Branch * jsstring :=
  let skinInput := skin_file f in
  let screenshotInput := skin_screenshot f in
  let website := skin_website f in
  match input_file skinInput, input_file screenshotInput,
        string_truthy website, truthy (currentSkinMetadata w) with
  | Some skinFile, Some screenshotFile, true, true =>
      match get_prop (currentSkinMetadata w) (lit "skinname"),
            get_prop (currentSkinMetadata w) (lit "author") with
      | Resolved (Some (JStr skinname)), Resolved (Some (JStr author)) =>
          let sanitizedName := sanitize skinname in
          let sanitizedAuthor := sanitize author in
          let itemId :=
            lit "skin." ++ sanitizedAuthor ++ lit "." ++ sanitizedName in
          match some_id_equals (existingContentList w) itemId with
          | Rejected e => (Throw e, itemId)
          | Resolved true =>
              (Return (showStatus (already_exists itemId) error w), itemId)
          | Resolved false =>
              (Item {| draft_type := submission_type f;
                       draft_name := skinname; draft_author := author;
                       draft_website := Some website;
                       draft_files :=
                         [ {| file := skinFile;
                              desiredPath :=
                                lit "repo/skins/skin." ++ sanitizedAuthor
                                  ++ lit "." ++ sanitizedName ++ lit ".xzp";
                              maxSize := input_maxSize skinInput |};
                           {| file := screenshotFile;
                              desiredPath :=
                                lit "repo/skins/skin." ++ sanitizedAuthor
                                  ++ lit "." ++ sanitizedName ++ lit ".jpg";
                              maxSize := input_maxSize screenshotInput |} ];
                       draft_metadata := Some (currentSkinMetadata w) |},
               itemId)
          end
      | _, _ => (Throw TypeError, [])  (* [x.toLowerCase()], [x] no string *)
      end
  | _, _, _, _ =>
      (Throw (Error (lit "Please provide a valid skin file, a screenshot, a website, and ensure metadata is parsed.")),
       [])
  end.

Definition coverflow_branch (f : Form) (w : World) : Branch * jsstring :=
  let coverflowInput := coverflow_file f in
  let screenshotInput := coverflow_screenshot f in
  let website := coverflow_website f in
  match input_file coverflowInput, input_file screenshotInput,
        truthy (currentCoverflowMetadata w) with
  | Some coverflowFile, Some screenshotFile, true =>
      match get_prop (currentCoverflowMetadata w) (lit "name"),
            get_prop (currentCoverflowMetadata w) (lit "author") with
      | Resolved (Some (JStr name)), Resolved (Some (JStr author)) =>
          let sanitizedName := sanitize name in
          let sanitizedAuthor := sanitize author in
          let itemId :=
            lit "cf." ++ sanitizedAuthor ++ lit "." ++ sanitizedName in
          match some_id_equals (existingContentList w) itemId with
          | Rejected e => (Throw e, itemId)
          | Resolved true =>
              (Return (showStatus (already_exists itemId) error w), itemId)
          | Resolved false =>
              (Item {| draft_type := submission_type f;
                       draft_name := name; draft_author := author;
                       draft_website := Some website;
                       draft_files :=
                         [ {| file := coverflowFile;
                              desiredPath :=
                                lit "repo/coverflows/cf." ++ sanitizedAuthor
                                  ++ lit "." ++ sanitizedName
                                  ++ lit ".cfljson";
                              maxSize := input_maxSize coverflowInput |};
                           {| file := screenshotFile;
                              desiredPath :=
                                lit "repo/coverflows/cf." ++ sanitizedAuthor
                                  ++ lit "." ++ sanitizedName ++ lit ".jpg";
                              maxSize := input_maxSize screenshotInput |} ];
                       draft_metadata := Some (currentCoverflowMetadata w) |},
               itemId)
          end
      | _, _ => (Throw TypeError, [])
      end
  | _, _, _ =>
      (Return (showStatus
                 (lit "Please provide a valid coverflow file and a screenshot.")
                 error w), [])
  end.

(** The [if (type === ...) ... else if ...] chain that builds [item]. *)
Definition build_item (f : Form) (w : World) : Branch * jsstring :=
  let type := submission_type f in
  if decide (type = lit "background") then background_branch f w
  else if decide (type = lit "skin") then skin_branch f w
  else if decide (type = lit "coverflow") then coverflow_branch f w
  else (NoItem, []).

Definition handleAddToQueue (f : Form) (w : World) : World * AddResult :=
  let type := submission_type f in
  if negb (string_truthy type) then
    (showStatus (lit "Please select a content type.") error w,
     {| completion := Resolved (); itemId := [] |})
  else
    let '(branch, itemId) := build_item f w in
    match branch with
    | Return w' => (w', {| completion := Resolved (); itemId := itemId |})
    | Throw e => (w, {| completion := Rejected e; itemId := itemId |})
    | NoItem => (w, {| completion := Resolved (); itemId := itemId |})
    | Item item =>
        let w1 :=
          set_nextItemId (nextItemId w + 1)
            (set_submissionQueue
               (submissionQueue w ++ [with_id item (nextItemId w)]) w) in
        (showStatus
           (lit "Added " ++ [dquote] ++ draft_name item ++ [dquote]
              ++ lit " to the queue.")
           success (resetForms w1),
         {| completion := Resolved (); itemId := itemId |})
    end.

End AddToQueue.

(** ** Effectful operations *)

Definition GITHUB_REPO_OWNER : jsstring := lit "DanielmGM".
Definition GITHUB_REPO_NAME : jsstring := lit "AuroraSkins".
Definition newline : N := 10%N.

(** A computation over the client state that returns or throws. *)
Definition M (A : Type) : Type := World → World * Settled A.

#[global] Instance M_ret : MRet M := λ A x w, (w, Resolved x).

#[global] Instance M_bind : MBind M := λ A B k m w,
  match m w with
  | (w', Resolved x) => k x w'
  | (w', Rejected e) => (w', Rejected e)
  end.

(** [try { body } catch (error) { handler }]. *)
Definition try_catch {A} (body : M A) (handler : Exn → M A) : M A := λ w,
  match body w with
  | (w', Rejected e) => handler e w'
  | r => r
  end.

Definition modify (f : World → World) : M unit := λ w, (f w, Resolved ()).

Definition throw {A} (e : Exn) : M A := λ w, (w, Rejected e).

(** A value that has already returned or thrown. *)
Definition settle {A} (r : Settled A) : M A := λ w, (w, r).

(** [process.env.GITHUB_TARGET_BRANCH || 'main']. *)
Definition target_branch (env_GITHUB_TARGET_BRANCH : option jsstring)
    : jsstring :=
  match env_GITHUB_TARGET_BRANCH with
  | Some b => if string_truthy b then b else lit "main"
  | None => lit "main"
  end.

Section PullRequest.

(** The answer of the outside world to a request, given the requests
    issued before it: the string the client reads out of the response (the
    fork owner's login, the default branch, the ref's sha, the file's
    base64 content), or a failure. *)
Variable github : list ApiCall → ApiCall → Settled jsstring.

(** [error.message] of a [TypeError]. *)
Variable TypeError_message : jsstring.

(** [formatFileSize], which computes in floating point. *)
Variable formatFileSize : JsNumber → jsstring.

Variable env_GITHUB_TARGET_BRANCH : option jsstring.

Definition GITHUB_TARGET_BRANCH : jsstring :=
  target_branch env_GITHUB_TARGET_BRANCH.

Definition message (e : Exn) : jsstring :=
  match e with
  | Error msg => msg
  | TypeError => TypeError_message
  end.

(** An effect that needs no Octokit instance. *)
Definition perform (c : ApiCall) : M jsstring := λ w,
  (set_requests (requests w ++ [c]) w, github (requests w) c).

(** [await octokit.<method>(...)]: a [TypeError] while [octokit] is
    [undefined]. *)
Definition octokit_call (c : ApiCall) : M jsstring := λ w,
  match octokit w with
  | None => (w, Rejected TypeError)
  | Some _ => perform c w
  end.

Definition validateFileSize (file : File) (maxSize : JsNumber) : M bool :=
  if int_gt (file_size file) maxSize then
    modify (showStatus
              (lit "File size for " ++ file_name file
                 ++ lit " exceeds the maximum limit of "
                 ++ formatFileSize maxSize ++ lit ".") error);;
    mret false
  else mret true.

(** The validation loop: [false] when it hits [return]. *)
Fixpoint validate_sizes (allFiles : list QueuedFile) : M bool :=
  match allFiles with
  | [] => mret true
  | qf :: rest =>
      ok ← validateFileSize (file qf) (maxSize qf);
      if ok : bool then validate_sizes rest else mret false
  end.

(** The loop committing each file to the branch. *)
Fixpoint commit_files (forkOwner branchName : jsstring)
    (allFiles : list QueuedFile) : M unit :=
  match allFiles with
  | [] => mret ()
  | qf :: rest =>
      content ← perform (ReadFileAsBase64 (file qf));
      octokit_call
        (ReposCreateOrUpdateFileContents forkOwner GITHUB_REPO_NAME
           (desiredPath qf) (lit "Add " ++ file_name (file qf)) content
           branchName);;
      commit_files forkOwner branchName rest
  end.

Definition pr_line (item : SubmissionItem) : jsstring :=
  lit "*   **" ++ name item ++ lit "** by " ++ author item ++ lit " ("
    ++ item_type item ++ lit ")".

(** [createPullRequest]; [timestamp] is
    [new Date().toISOString().replace(/[-:.]/g, '')]. *)
Definition createPullRequest (timestamp : jsstring) : M unit := λ w,
  if decide (length (submissionQueue w) = 0%nat) then
    modify (showStatus
              (lit "Submission queue is empty. Please add files first.")
              error) w
  else
    let allFiles := item ← submissionQueue w; files item in
    (valid ← validate_sizes allFiles;
     if negb valid then mret ()
     else
       let branchName := lit "add/submission-batch-" ++ timestamp in
       let prTitle :=
         lit "Batch Submission: "
           ++ join (lit ", ") (name <$> submissionQueue w) in
       let prDescription :=
         lit "This PR includes the following submissions:"
           ++ [newline; newline]
           ++ join [newline] (pr_line <$> submissionQueue w) in
       try_catch
         (modify (showStatus (lit "Creating Pull Request...") info);;
          forkOwner ← octokit_call
            (ReposCreateFork GITHUB_REPO_OWNER GITHUB_REPO_NAME);
          defaultBranch ← octokit_call
            (ReposGet GITHUB_REPO_OWNER GITHUB_REPO_NAME);
          mainBranchSha ← octokit_call
            (GitGetRef forkOwner GITHUB_REPO_NAME
               (lit "heads/" ++ defaultBranch));
          octokit_call
            (GitCreateRef forkOwner GITHUB_REPO_NAME
               (lit "refs/heads/" ++ branchName) mainBranchSha);;
          commit_files forkOwner branchName allFiles;;
          octokit_call
            (PullsCreate GITHUB_REPO_OWNER GITHUB_REPO_NAME prTitle
               prDescription (forkOwner ++ lit ":" ++ branchName)
               GITHUB_TARGET_BRANCH);;
          modify (showStatus (lit "Pull Request created successfully!")
                    success);;
          modify (set_submissionQueue []);;
          modify resetForms)
         (λ e, modify (showStatus
                         (lit "Error creating Pull Request: " ++ message e)
                         error))) w.

End PullRequest.

(** ** Authentication and the manifest *)

#[global] Instance Settled_ret : MRet Settled := λ A x, Resolved x.

#[global] Instance Settled_bind : MBind Settled := λ A B k m,
  match m with
  | Resolved x => k x
  | Rejected e => Rejected e
  end.

#[global] Instance Settled_fmap : FMap Settled := λ A B f m,
  match m with
  | Resolved x => Resolved (f x)
  | Rejected e => Rejected e
  end.

(** What [fetch] resolves with, as far as its callers look at it:
    [response.ok], [response.status] as it prints in a template string,
    [await response.text()] and [await response.json()]. *)
Record HttpReply := {
  reply_ok : bool;
  reply_status : jsstring;
  reply_text : Settled jsstring;
  reply_json : Settled JsValue
}.

(** The page after [window.location.reload()] or after navigating away and
    back: every module-level variable is initial again, [localStorage]
    stays. *)
Definition reload (w : World) : World :=
  set_requests (requests w) (page_load (localStorage w)).

Definition token_key : jsstring := lit "github_token".

Section Auth.

Variable github : list ApiCall → ApiCall → Settled jsstring.

(** The [data] of [octokit.repos.getContent] for [repo/list.json]. *)
Variable github_content : list ApiCall → Settled JsValue.

(** [fetch('/api/github-callback', ...)] with the given code. *)
Variable callback_fetch : list ApiCall → jsstring → Settled HttpReply.

(** [atob], which throws (here: [None]) on invalid base64. *)
Variable atob : jsstring → option jsstring.

Variable JSON_parse : jsstring → option JsValue.

(** String conversion of a value that is not a string ([None] is
    [undefined]). *)
Variable ToString_other : option JsValue → jsstring.

Variable TypeError_message : jsstring.

Definition ToString (v : option JsValue) : jsstring :=
  match v with
  | Some (JStr s) => s
  | _ => ToString_other v
  end.

(** A library call that throws when it has no result. *)
Definition or_throw {A} (r : option A) (e : Exn) : M A :=
  match r with
  | Some x => mret x
  | None => throw e
  end.

Definition get_content : M JsValue := λ w,
  match octokit w with
  | None => (w, Rejected TypeError)
  | Some _ =>
      let c :=
        ReposGetContent GITHUB_REPO_OWNER GITHUB_REPO_NAME
          (lit "repo/list.json") in
      (set_requests (requests w ++ [c]) w, github_content (requests w))
  end.

Definition fetchExistingContentList : M unit :=
  try_catch
    (data ← get_content;
     has_content ← settle (has_prop (lit "content") data);
     data_content ← settle (get_prop data (lit "content"));
     if has_content && is_string data_content then
       content ← or_throw (atob (ToString data_content))
                   (Error (lit "atob"));
       parsedContent ← or_throw (JSON_parse content) (Error (lit "JSON.parse"));
       if truthy parsedContent && typeof_object parsedContent then
         backgrounds ← settle (get_prop parsedContent (lit "backgrounds"));
         match as_array backgrounds with
         | None => modify (set_existingContentList [])
         | Some backgrounds =>
             coverflows ← settle (get_prop parsedContent (lit "coverflows"));
             match as_array coverflows with
             | None => modify (set_existingContentList [])
             | Some coverflows =>
                 skins ← settle (get_prop parsedContent (lit "skins"));
                 match as_array skins with
                 | None => modify (set_existingContentList [])
                 | Some skins =>
                     modify (set_existingContentList
                               (backgrounds ++ coverflows ++ skins))
                 end
             end
         end
       else modify (set_existingContentList [])
     else mret ())
    (λ _, modify (set_existingContentList [])).

(** [showUploadSection]: besides toggling two DOM classes it fetches the
    manifest. *)
Definition showUploadSection : M unit := fetchExistingContentList.

(** [checkAuth]; the result tells whether the page was reloaded. *)
Definition checkAuth : M bool := λ w,
  match localStorage w !! token_key with
  | Some token =>
      if string_truthy token then
        try_catch
          (modify (set_octokit (Some {| auth := Some (JStr token) |}));;
           octokit_call github UsersGetAuthenticated;;
           showUploadSection;;
           mret false)
          (λ _,
             modify (λ w', set_localStorage
                             (delete token_key (localStorage w')) w');;
             modify reload;;
             mret true) w
      else (w, Resolved false)
  | None => (w, Resolved false)
  end.

(** [handleCallback]; [url_code] is the [code] parameter of the page URL. *)
Definition handleCallback (url_code : option jsstring) : M unit :=
  match url_code with
  | None => mret ()
  | Some code =>
      if negb (string_truthy code) then mret ()
      else
        try_catch
          (modify (showStatus (lit "Exchanging code for token...") info);;
           response ← (λ w,
             (set_requests (requests w ++ [FetchGithubCallback code]) w,
              callback_fetch (requests w) code));
           (if negb (reply_ok response) then
              errorData ← settle (reply_json response);
              err ← settle (get_prop errorData (lit "error"));
              throw (Error (if truthy_opt err then ToString err
                            else lit "Failed to exchange code for token"))
            else mret ());;
           data ← settle (reply_json response);
           err ← settle (get_prop data (lit "error"));
           (if truthy_opt err then
              description ← settle (get_prop data (lit "error_description"));
              throw (Error (ToString (if truthy_opt description
                                      then description else err)))
            else mret ());;
           access_token ← settle (get_prop data (lit "access_token"));
           modify (λ w, set_localStorage
                          (<[token_key := ToString access_token]>
                             (localStorage w)) w);;
           modify (set_octokit (Some {| auth := access_token |}));;
           showUploadSection;;
           modify (showStatus (lit "Successfully authenticated with GitHub!")
                     success))
          (λ e, modify (showStatus
                          (lit "Error during authentication: "
                             ++ message TypeError_message e) error))
  end.

End Auth.

(** ** The event handlers registered by [initialize] *)

Definition coverflow_shape_message : jsstring :=
  lit "Coverflow file must be a valid JSON with " ++ [dquote] ++ lit "info"
    ++ [dquote] ++ lit " object containing " ++ [dquote] ++ lit "name"
    ++ [dquote] ++ lit ", " ++ [dquote] ++ lit "author" ++ [dquote]
    ++ lit ", and " ++ [dquote] ++ lit "version" ++ [dquote] ++ lit ".".

(** [a && b] on conditions that may throw: [b] is not evaluated when [a] is
    false. *)
Definition and_then (a : Settled bool) (b : Settled bool) : Settled bool :=
  x ← a; if x : bool then b else Resolved false.

Section Handlers.

Variable github : list ApiCall → ApiCall → Settled jsstring.
Variable github_content : list ApiCall → Settled JsValue.
Variable callback_fetch : list ApiCall → jsstring → Settled HttpReply.
Variable atob : jsstring → option jsstring.
Variable JSON_parse : jsstring → option JsValue.
Variable ToString_other : option JsValue → jsstring.
Variable TypeError_message : jsstring.
Variable toLowerCase : jsstring → jsstring.
Variable formatFileSize : JsNumber → jsstring.
Variable env_GITHUB_TARGET_BRANCH : option jsstring.

Definition parseCoverflowMetadata (r : ReadResult) : Settled JsValue :=
  match r with
  | ReadFailed => Rejected (Error (lit "Failed to read coverflow file."))
  | Loaded text =>
      match JSON_parse text with
      | None =>
          Rejected (Error (lit "Failed to parse coverflow JSON metadata."))
      | Some metadata =>
          let info := get_prop metadata (lit "info") in
          let info_has key :=
            i ← info;
            match i with
            | Some i => has_prop key i
            | None => Rejected TypeError
            end in
          let shape :=
            and_then (Resolved (truthy metadata))
             (and_then (Resolved (typeof_object metadata))
              (and_then (has_prop (lit "info") metadata)
               (and_then (truthy_opt <$> info)
                (and_then (from_option typeof_object false <$> info)
                 (and_then (info_has (lit "name"))
                  (and_then (info_has (lit "author"))
                     (info_has (lit "version")))))))) in
          match shape, info with
          | Resolved true, Resolved (Some i) => Resolved i
          | Resolved _, _ => Rejected (Error coverflow_shape_message)
          | Rejected _, _ =>
              Rejected (Error (lit "Failed to parse coverflow JSON metadata."))
          end
      end
  end.

(** The [change] listener of the skin file input; [selected] is what
    reading [skinFileInput.files?.[0]] delivers, if a file is selected. *)
Definition onSkinFileChange (selected : option ReadResult) : M unit :=
  modify (set_currentSkinMetadata JNull);;
  match selected with
  | None => mret ()
  | Some r =>
      try_catch
        (modify (showStatus (lit "Analyzing skin file...") info);;
         metadata ←
           match parseXzpMetadata JSON_parse r with
           | Some settled => settle settled
           | None => mret JNull  (* the scan never runs out of fuel *)
           end;
         modify (set_currentSkinMetadata metadata);;
         settle (get_prop metadata (lit "skinname"));;
         modify (showStatus
                   (lit "Metadata extracted successfully! Fill remaining fields and add to queue.")
                   success))
        (λ e,
           modify (showStatus (message TypeError_message e) error);;
           modify (set_currentSkinMetadata JNull))
  end.

Definition onCoverflowFileChange (selected : option ReadResult) : M unit :=
  modify (set_currentCoverflowMetadata JNull);;
  match selected with
  | None => mret ()
  | Some r =>
      try_catch
        (modify (showStatus (lit "Analyzing coverflow file...") info);;
         metadata ← settle (parseCoverflowMetadata r);
         modify (set_currentCoverflowMetadata metadata);;
         settle (get_prop metadata (lit "name"));;
         modify (showStatus
                   (lit "Metadata extracted successfully! Fill remaining fields and add to queue.")
                   success))
        (λ e,
           modify (showStatus (message TypeError_message e) error);;
           modify (set_currentCoverflowMetadata JNull))
  end.

(** The click listener of the queue list, for a [Remove] button whose
    [data-id] parses to [idToRemove]. *)
Definition onRemoveClick (idToRemove : Z) : M unit :=
  modify (λ w, set_submissionQueue
                 (filter (λ item, item_id item ≠ idToRemove)
                    (submissionQueue w)) w).

(** [initiateGitHubLogin] navigates away; the client comes back as a
    freshly loaded page. *)
Definition initiateGitHubLogin : M unit := modify reload.

(** [initialize], up to the registration of the listeners:
    [await checkAuth(); handleCallback();]. The reload that [checkAuth] may
    have asked for does not end the script, so [handleCallback] runs in
    either case. *)
Definition initialize (url_code : option jsstring) : M unit :=
  checkAuth github github_content atob JSON_parse ToString_other;;
  handleCallback github_content callback_fetch atob JSON_parse
    ToString_other TypeError_message url_code.

(** What can happen to a loaded page. *)
Inductive Operation :=
| Initialize (url_code : option jsstring)
| ChangeSubmissionType
| ChangeSkinFile (selected : option ReadResult)
| ChangeCoverflowFile (selected : option ReadResult)
| ClickAddToQueue (f : Form)
| ClickRemove (idToRemove : Z)
| ClickCreatePr (timestamp : jsstring)
| ClickLogin.

Definition run (op : Operation) (w : World) : World :=
  match op with
  | Initialize url_code => fst (initialize url_code w)
  | ChangeSubmissionType => resetForms w
  | ChangeSkinFile selected => fst (onSkinFileChange selected w)
  | ChangeCoverflowFile selected => fst (onCoverflowFileChange selected w)
  | ClickAddToQueue f => fst (handleAddToQueue toLowerCase f w)
  | ClickRemove idToRemove => fst (onRemoveClick idToRemove w)
  | ClickCreatePr timestamp =>
      fst (createPullRequest github TypeError_message formatFileSize
             env_GITHUB_TARGET_BRANCH timestamp w)
  | ClickLogin => fst (initiateGitHubLogin w)
  end.

Fixpoint run_all (ops : list Operation) (w : World) : World :=
  match ops with
  | [] => w
  | op :: rest => run_all rest (run op w)
  end.

End Handlers.

(** ** The OAuth callback endpoint, [api/github-callback.js] *)

Record Request := {
  method : jsstring;
  body : option JsValue  (* [None] when [request.body] is [undefined] *)
}.

(** [response.status(code).json(payload)]. *)
Record Response := {
  status_code : Z;
  payload : JsValue
}.

Definition error_payload (msg : jsstring) : JsValue :=
  JObj [(lit "error", JStr msg)].

Section Endpoint.

Variable env_GITHUB_CLIENT_ID : option jsstring.
Variable env_GITHUB_CLIENT_SECRET : option jsstring.

(** The [fetch] of [https://github.com/login/oauth/access_token] with the
    given client id, client secret and code. *)
Variable upstream_fetch : jsstring → jsstring → JsValue → Settled HttpReply.

Variable ToString_other : option JsValue → jsstring.
Variable TypeError_message : jsstring.

(** The body of the [try] block. *)
Definition exchange (client_id client_secret : jsstring) (code : JsValue)
    : Settled Response :=
  githubResponse ← upstream_fetch client_id client_secret code;
  (if negb (reply_ok githubResponse) then
     errorText ← reply_text githubResponse;
     Rejected (Error (lit "Failed to exchange code for token. Status: "
                        ++ reply_status githubResponse))
   else Resolved ());;
  data ← reply_json githubResponse;
  err ← get_prop data (lit "error");
  (if truthy_opt err then
     description ← get_prop data (lit "error_description");
     Rejected (Error (ToString ToString_other
                        (if truthy_opt description then description
                         else err)))
   else Resolved ());;
  access_token ← get_prop data (lit "access_token");
  match access_token with
  | Some token =>
      if truthy token then
        Resolved {| status_code := 200;
                    payload := JObj [(lit "access_token", token)] |}
      else
        Rejected (Error (lit "Access token not found in GitHub response."))
  | None =>
      Rejected (Error (lit "Access token not found in GitHub response."))
  end.

(** The exported handler. [Rejected] means the exception left the handler
    and no response was sent by it. *)
Definition github_callback (request : Request) : Settled Response :=
  if negb (bool_decide (method request = lit "POST")) then
    Resolved {| status_code := 405;
                payload := error_payload (lit "Method Not Allowed") |}
  else
    code ← get_prop_opt (body request) (lit "code");
    if negb (truthy_opt code) then
      Resolved {| status_code := 400;
                  payload :=
                    error_payload (lit "Authorization code is missing") |}
    else
      match env_GITHUB_CLIENT_ID, env_GITHUB_CLIENT_SECRET, code with
      | Some client_id, Some client_secret, Some code =>
          if string_truthy client_id && string_truthy client_secret then
            match exchange client_id client_secret code with
            | Resolved response => Resolved response
            | Rejected e =>
                Resolved {| status_code := 500;
                            payload :=
                              error_payload (message TypeError_message e) |}
            end
          else
            Resolved {| status_code := 500;
                        payload := error_payload (lit "Server configuration error: GitHub credentials not set.") |}
      | _, _, _ =>
          Resolved {| status_code := 500;
                      payload := error_payload (lit "Server configuration error: GitHub credentials not set.") |}
      end.

End Endpoint.

(** ** Specification-side notions for the metadata extractor *)

(** [pat] occurs in [text] at index [j]. *)
Definition occurs_at (pat text : jsstring) (j : nat) : Prop :=
  pat `prefix_of` drop j text.

(** [s] is the index of the first occurrence of [pat] in [text]. *)
Definition first_occurrence (pat text : jsstring) (s : nat) : Prop :=
  occurs_at pat text s ∧ (s ≤ length text)%nat
  ∧ ∀ j, (j < s)%nat → ¬ occurs_at pat text j.

(** The characters of [text] at the indices [s], ..., [j]. *)
Definition segment (text : jsstring) (s j : nat) : jsstring :=
  take (S j - s) (drop s text).

(** Opening braces minus closing braces in a piece of text. *)
Definition brace_balance (seg : jsstring) : Z :=
  Z.of_nat (length (filter (λ c, c = lbrace) seg))
  - Z.of_nat (length (filter (λ c, c = rbrace) seg)).

(** The brace count after the characters at [s], ..., [j] have been
    counted. *)
Definition brace_count (text : jsstring) (s j : nat) : Z :=
  brace_balance (segment text s j).

(** [e] is the first index from [s] on at which the count is zero. *)
Definition first_balanced (text : jsstring) (s e : nat) : Prop :=
  (s ≤ e < length text)%nat ∧ brace_count text s e = 0
  ∧ ∀ j, (s ≤ j < e)%nat → brace_count text s j ≠ 0.

(** What the claim says [parseXzpMetadata] settles with on a text. *)
Inductive xzp_outcome (JSON_parse : jsstring → option JsValue)
    (text : jsstring) : Settled JsValue → Prop :=
| xzp_no_marker :
    (∀ j, ¬ occurs_at metaver_marker text j) →
    xzp_outcome JSON_parse text
      (Rejected (Error (lit "Could not find metadata block in skin file.")))
| xzp_no_end s :
    first_occurrence metaver_marker text s →
    (∀ j, (s ≤ j < length text)%nat → brace_count text s j ≠ 0) →
    xzp_outcome JSON_parse text
      (Rejected (Error (lit "Could not find the end of the metadata block.")))
| xzp_invalid_json s e :
    first_occurrence metaver_marker text s →
    first_balanced text s e →
    JSON_parse (segment text s e) = None →
    xzp_outcome JSON_parse text
      (Rejected (Error (lit "Failed to parse extracted JSON metadata.")))
| xzp_parsed s e metadata :
    first_occurrence metaver_marker text s →
    first_balanced text s e →
    JSON_parse (segment text s e) = Some metadata →
    xzp_outcome JSON_parse text (Resolved metadata).

(** ** Specification-side notions for the identifier and the manifest *)

(** A code unit of the class [[a-z0-9]]. *)
Definition is_az09 (c : N) : Prop :=
  in_range 97 122 c || in_range 48 57 c.

(** Sanitization as described: lowercase, then keep exactly the characters
    of [[a-z0-9]]. *)
Definition canonical_sanitize (toLowerCase : jsstring → jsstring)
    (s : jsstring) : jsstring :=
  filter (λ c, is_az09 c) (toLowerCase s).

(** ['<prefix>.<sanitizedAuthor>.<sanitizedName>']. *)
Definition canonical_id (toLowerCase : jsstring → jsstring)
    (prefix author name : jsstring) : jsstring :=
  prefix ++ lit "." ++ canonical_sanitize toLowerCase author ++ lit "."
    ++ canonical_sanitize toLowerCase name.

(** The manifest entry [entry] has an [id] equal to the string [id]. *)
Definition has_id (id : jsstring) (entry : JsValue) : Prop :=
  get_prop entry (lit "id") = Resolved (Some (JStr id)).

(** [toLowerCase] on ASCII text. *)
Definition toLowerCase_ascii (s : jsstring) : jsstring :=
  (λ c, if in_range 65 90 c then (c + 32)%N else c) <$> s.

(** The origin of the name and the author a branch builds an item from. *)
Definition item_source (f : Form) (w : World)
    (prefix item_name item_author : jsstring) (meta : option JsValue)
    : Prop :=
  (submission_type f = lit "background" ∧ prefix = lit "bg"
   ∧ item_name = background_name f ∧ item_author = background_author f
   ∧ meta = None)
  ∨ (submission_type f = lit "skin" ∧ prefix = lit "skin"
     ∧ get_prop (currentSkinMetadata w) (lit "skinname")
       = Resolved (Some (JStr item_name))
     ∧ get_prop (currentSkinMetadata w) (lit "author")
       = Resolved (Some (JStr item_author))
     ∧ meta = Some (currentSkinMetadata w))
  ∨ (submission_type f = lit "coverflow" ∧ prefix = lit "cf"
     ∧ get_prop (currentCoverflowMetadata w) (lit "name")
       = Resolved (Some (JStr item_name))
     ∧ get_prop (currentCoverflowMetadata w) (lit "author")
       = Resolved (Some (JStr item_author))
     ∧ meta = Some (currentCoverflowMetadata w)).

(** Two states that [handleAddToQueue] cannot tell apart when it builds an
    item: it reads the manifest list and the parsed metadata, nothing else. *)
Definition same_inputs (w1 w2 : World) : Prop :=
  existingContentList w1 = existingContentList w2
  ∧ currentSkinMetadata w1 = currentSkinMetadata w2
  ∧ currentCoverflowMetadata w1 = currentCoverflowMetadata w2.

(** The same branch outcome, reached from two states. *)
Inductive branch_rel (w1 w2 : World) : Branch → Branch → Prop :=
| rel_return msg :
    branch_rel w1 w2 (Return (showStatus msg error w1))
      (Return (showStatus msg error w2))
| rel_throw e : branch_rel w1 w2 (Throw e) (Throw e)
| rel_item d : branch_rel w1 w2 (Item d) (Item d)
| rel_no_item : branch_rel w1 w2 NoItem NoItem.

(** Sample data. *)
Definition sample_file : File :=
  {| file_name := lit "sky.jpg"; file_size := 1000; file_handle := 0 |}.

Definition empty_input : FileInput :=
  {| input_file := None; input_maxSize := Finite 0 |}.

Definition sample_background_form : Form :=
  {| submission_type := lit "background";
     background_name := lit "Night Sky";
     background_author := lit "Ann-01";
     background_image :=
       {| input_file := Some sample_file; input_maxSize := Finite 2000 |};
     skin_file := empty_input; skin_screenshot := empty_input;
     skin_website := [];
     coverflow_file := empty_input; coverflow_screenshot := empty_input;
     coverflow_website := [] |}.

(** An authenticated page with the given manifest list. *)
Definition sample_world (manifest : list JsValue) : World :=
  set_existingContentList manifest
    (set_octokit (Some {| auth := Some (JStr (lit "token")) |})
       (page_load ∅)).

(** ** Specification-side notions for the pull-request sequence *)

(** The two requests that commit one queued file, given the content read
    from it. *)
Definition file_requests (forkOwner branchName : jsstring) (qf : QueuedFile)
    (content : jsstring) : list ApiCall :=
  [ ReadFileAsBase64 (file qf);
    ReposCreateOrUpdateFileContents forkOwner GITHUB_REPO_NAME
      (desiredPath qf) (lit "Add " ++ file_name (file qf)) content
      branchName ].

Definition commit_requests (forkOwner branchName : jsstring)
    (allFiles : list QueuedFile) (contents : list jsstring) : list ApiCall :=
  concat (zip_with (file_requests forkOwner branchName) allFiles contents).

(** The whole sequence for a queue: fork, branch [add/submission-batch-...]
    on the fork, one commit per file, one pull request from that branch of
    the fork to the branch [target] of the repository. *)
Definition pull_request_sequence (target timestamp : jsstring)
    (queue : list SubmissionItem)
    (forkOwner defaultBranch sha : jsstring) (contents : list jsstring)
    : list ApiCall :=
  let branchName := lit "add/submission-batch-" ++ timestamp in
  [ ReposCreateFork GITHUB_REPO_OWNER GITHUB_REPO_NAME;
    ReposGet GITHUB_REPO_OWNER GITHUB_REPO_NAME;
    GitGetRef forkOwner GITHUB_REPO_NAME (lit "heads/" ++ defaultBranch);
    GitCreateRef forkOwner GITHUB_REPO_NAME (lit "refs/heads/" ++ branchName)
      sha ]
  ++ commit_requests forkOwner branchName (item ← queue; files item) contents
  ++ [ PullsCreate GITHUB_REPO_OWNER GITHUB_REPO_NAME
         (lit "Batch Submission: " ++ join (lit ", ") (name <$> queue))
         (lit "This PR includes the following submissions:"
            ++ [newline; newline] ++ join [newline] (pr_line <$> queue))
         (forkOwner ++ lit ":" ++ branchName) target ].

(** Every request of [new], issued in turn after [history], succeeded. *)
Fixpoint all_answered (github : list ApiCall → ApiCall → Settled jsstring)
    (history new : list ApiCall) : Prop :=
  match new with
  | [] => True
  | c :: rest =>
      (∃ s, github history c = Resolved s)
      ∧ all_answered github (history ++ [c]) rest
  end.

(** Every queued file passes [validateFileSize]. *)
Definition sizes_pass (queue : list SubmissionItem) : Prop :=
  Forall (λ qf, int_gt (file_size (file qf)) (maxSize qf) = false)
    (item ← queue; files item).

(** What the requests of a run created. *)
Definition fork_created (c : ApiCall) : option (jsstring * jsstring) :=
  match c with
  | ReposCreateFork owner repo => Some (owner, repo)
  | _ => None
  end.

(** The owner of the repository a ref was created in, and the ref. *)
Definition branch_created (c : ApiCall) : option (jsstring * jsstring) :=
  match c with
  | GitCreateRef owner _ ref _ => Some (owner, ref)
  | _ => None
  end.

(** The owner, the branch and the path of a commit. *)
Definition file_committed (c : ApiCall)
    : option (jsstring * jsstring * jsstring) :=
  match c with
  | ReposCreateOrUpdateFileContents owner _ path _ _ branch =>
      Some (owner, branch, path)
  | _ => None
  end.

(** The head and the base of a pull request. *)
Definition pull_opened (c : ApiCall) : option (jsstring * jsstring) :=
  match c with
  | PullsCreate _ _ _ _ head base => Some (head, base)
  | _ => None
  end.

(** A service on which every request succeeds. *)
Definition github_ok : list ApiCall → ApiCall → Settled jsstring :=
  λ _ c,
    match c with
    | ReposCreateFork _ _ => Resolved (lit "contributor")
    | ReposGet _ _ => Resolved (lit "main")
    | GitGetRef _ _ _ => Resolved (lit "0a1b2c")
    | ReadFileAsBase64 _ => Resolved (lit "aGVsbG8=")
    | _ => Resolved []
    end.

(** A service on which the second request of a run fails. *)
Definition github_second_fails : list ApiCall → ApiCall → Settled jsstring :=
  λ history c,
    match history with
    | [_] => Rejected (Error (lit "Not Found"))
    | _ => github_ok history c
    end.

(** The sample state after the sample background has been queued. *)
Definition sample_queued : World :=
  fst (handleAddToQueue toLowerCase_ascii sample_background_form
         (sample_world [])).

(** ** Specification-side notions for storage, the manifest and the endpoint *)

(** [w'] has the same persistent storage as [w] at every key other than
    ['github_token']. *)
Definition storage_frame (w w' : World) : Prop :=
  ∀ k, k ≠ token_key → localStorage w' !! k = localStorage w !! k.

(** [w'] has the same persistent storage as [w]. *)
Definition storage_same (w w' : World) : Prop :=
  localStorage w' = localStorage w.

(** A computation that takes every state to one related to it by [R]. *)
Definition preserves (R : World → World → Prop) {A} (m : M A) : Prop :=
  ∀ w, R w (fst (m w)).

(** A parsed manifest of the expected form: an object whose [backgrounds],
    [coverflows] and [skins] are arrays. *)
Definition manifest_shape (v : JsValue) : Prop :=
  ∃ fields backgrounds coverflows skins,
    v = JObj fields
    ∧ lookup_field (lit "backgrounds") fields = Some (JArr backgrounds)
    ∧ lookup_field (lit "coverflows") fields = Some (JArr coverflows)
    ∧ lookup_field (lit "skins") fields = Some (JArr skins).

(** The answer to the request for [repo/list.json] is of no use: the fetch
    failed, or the content cannot be decoded, or it cannot be parsed, or the
    parsed value is not of the expected form. *)
Inductive manifest_unusable (atob : jsstring → option jsstring)
    (JSON_parse : jsstring → option JsValue) : Settled JsValue → Prop :=
| fetch_failed e : manifest_unusable atob JSON_parse (Rejected e)
| not_decodable fields s :
    lookup_field (lit "content") fields = Some (JStr s) →
    atob s = None →
    manifest_unusable atob JSON_parse (Resolved (JObj fields))
| not_parsable fields s content :
    lookup_field (lit "content") fields = Some (JStr s) →
    atob s = Some content →
    JSON_parse content = None →
    manifest_unusable atob JSON_parse (Resolved (JObj fields))
| not_a_manifest fields s content v :
    lookup_field (lit "content") fields = Some (JStr s) →
    atob s = Some content →
    JSON_parse content = Some v →
    ¬ manifest_shape v →
    manifest_unusable atob JSON_parse (Resolved (JObj fields)).

(** Both server credentials are set. *)
Definition credentials_set (client_id client_secret : option jsstring)
    (id secret : jsstring) : Prop :=
  client_id = Some id ∧ client_secret = Some secret ∧ id ≠ [] ∧ secret ≠ [].

(** GitHub's response is ok and contains the access token [token]. *)
Definition token_granted (answer : Settled HttpReply) (token : JsValue)
    : Prop :=
  ∃ reply data,
    answer = Resolved reply ∧ reply_ok reply = true
    ∧ reply_json reply = Resolved data
    ∧ get_prop data (lit "access_token") = Resolved (Some token)
    ∧ truthy token = true.

(** The handler answered with the given status. *)
Definition responds (r : Settled Response) (code : Z) : Prop :=
  ∃ p, r = Resolved {| status_code := code; payload := p |}.

(** A stand-in for [JSON.parse] that hands back the text it is given, as a
    string value: it shows which substring is extracted. *)
Definition echo_parse (s : jsstring) : option JsValue := Some (JStr s).

(** [xx{"metaver":1,"a":{"b":2}}yy}]. *)
Definition sample_xzp_text : jsstring :=
  lit "xx" ++ metaver_marker ++ lit ":1," ++ [dquote] ++ lit "a" ++ [dquote]
    ++ lit ":{" ++ [dquote] ++ lit "b" ++ [dquote] ++ lit ":2}}yy}".

(** A token exchange that cannot reach GitHub. *)
Definition upstream_offline
    : jsstring → jsstring → JsValue → Settled HttpReply :=
  λ _ _ _, Rejected (Error (lit "fetch failed")).

(** String conversion of the values that are not strings, as far as the
    samples need it. *)
Definition ToString_sample (v : option JsValue) : jsstring :=
  match v with
  | None => lit "undefined"
  | Some JNull => lit "null"
  | _ => lit "[object Object]"
  end.

(** A stored token that GitHub no longer accepts. *)
Definition github_rejects_token : list ApiCall → ApiCall → Settled jsstring :=
  λ _ _, Rejected (Error (lit "Bad credentials")).

Definition content_unavailable : list ApiCall → Settled JsValue :=
  λ _, Rejected (Error (lit "Not Found")).

Definition callback_unreachable
    : list ApiCall → jsstring → Settled HttpReply :=
  λ _ _, Rejected (Error (lit "Failed to fetch")).

Definition atob_none : jsstring → option jsstring := λ _, None.

Definition formatFileSize_sample : JsNumber → jsstring := λ _, lit "0 Bytes".

(** A page whose storage holds a token. *)
Definition sample_stored : World :=
  page_load {[ lit "github_token" := lit "token" ]}.

Definition sample_manifest_entry : JsValue :=
  JObj [(lit "id", JStr (lit "bg.ann01.nightsky"))].

(** The sample page when the manifest already lists the sample
    background. *)
Definition sample_duplicate_world : World := sample_world [sample_manifest_entry].


Definition sample_timestamp : jsstring := lit "20240101T000000000Z".

Definition request_without_body : Request :=
  {| method := lit "POST"; body := None |}.

Definition request_with_code : Request :=
  {| method := lit "POST";
     body := Some (JObj [(lit "code", JStr (lit "abc"))]) |}.

Definition request_get : Request := {| method := lit "GET"; body := None |}.

(** ** Specification-side notions for the further properties *)

(** A metadata block: a string that starts with the marker, ends with a
    closing brace, has as many closing as opening braces, and no proper
    initial part of which has. *)
Definition metadata_block (b : jsstring) : Prop :=
  metaver_marker `prefix_of` b
  ∧ last b = Some rbrace
  ∧ brace_balance b = 0
  ∧ ∀ n, (0 < n < length b)%nat → brace_balance (take n b) ≠ 0.

(** [parseXzpMetadata] found the end of a block in the text: it settled
    with something other than one of its two not-found errors. *)
Definition block_found (r : Settled JsValue) : Prop :=
  r ≠ Rejected (Error (lit "Could not find metadata block in skin file."))
  ∧ r ≠ Rejected (Error (lit "Could not find the end of the metadata block.")).

(** [s.split(sep)] for a one-character separator. *)
Fixpoint split (sep : N) (s : jsstring) : list jsstring :=
  match s with
  | [] => [[]]
  | c :: rest =>
      if decide (c = sep) then [] :: split sep rest
      else match split sep rest with
           | piece :: pieces => (c :: piece) :: pieces
           | [] => [[c]]
           end
  end.

Definition comma : N := 44%N.

(** The [reader.onload] handler of [readFileAsBase64]: what it resolves
    with for the data URL [reader.result]; [None] is [undefined]. *)
Definition readFileAsBase64_onload (result : jsstring) : option jsstring :=
  split comma result !! 1%nat.

(** A parsed coverflow file of the expected form: an object whose [info] is
    an object that has the keys [name], [author] and [version]. *)
Definition coverflow_info (v info : JsValue) : Prop :=
  ∃ fields ifields,
    v = JObj fields
    ∧ lookup_field (lit "info") fields = Some info
    ∧ info = JObj ifields
    ∧ is_Some (lookup_field (lit "name") ifields)
    ∧ is_Some (lookup_field (lit "author") ifields)
    ∧ is_Some (lookup_field (lit "version") ifields).

(** [data:image/jpeg;base64] and a base64 payload. *)
Definition sample_data_url_header : jsstring := lit "data:image/jpeg;base64".
Definition sample_base64 : jsstring := lit "aGVsbG8=".

(** [{"info":{"name":"Flow","author":"Ann","version":"1"}}], parsed. *)
Definition sample_coverflow_info : JsValue :=
  JObj [(lit "name", JStr (lit "Flow")); (lit "author", JStr (lit "Ann"));
        (lit "version", JStr (lit "1"))].

Definition sample_coverflow : JsValue :=
  JObj [(lit "info", sample_coverflow_info)].

(** A stand-in for [JSON.parse] that knows one text. *)
Definition parse_sample_coverflow (s : jsstring) : option JsValue :=
  if decide (s = lit "coverflow") then Some sample_coverflow else None.

(** The three values of the type selector that [handleAddToQueue] knows. *)
Definition known_type (type : jsstring) : Prop :=
  type = lit "background" ∨ type = lit "skin" ∨ type = lit "coverflow".

Definition added_message (item_name : jsstring) : jsstring :=
  lit "Added " ++ [dquote] ++ item_name ++ [dquote] ++ lit " to the queue.".

(** The state after [item] has been pushed, the forms reset and the
    success shown. *)
Definition after_push (item : SubmissionItem) (w : World) : World :=
  showStatus (added_message (name item)) success
    (resetForms
       (set_nextItemId (nextItemId w + 1)
          (set_submissionQueue (submissionQueue w ++ [item]) w))).

Definition skin_incomplete : Exn :=
  Error (lit "Please provide a valid skin file, a screenshot, a website, and ensure metadata is parsed.").

(** A skin form with both files and a website filled in. *)
Definition sample_skin_form : Form :=
  {| submission_type := lit "skin";
     background_name := []; background_author := [];
     background_image := empty_input;
     skin_file :=
       {| input_file := Some sample_file; input_maxSize := Finite 2000 |};
     skin_screenshot :=
       {| input_file := Some sample_file; input_maxSize := Finite 2000 |};
     skin_website := lit "https://example.org";
     coverflow_file := empty_input; coverflow_screenshot := empty_input;
     coverflow_website := [] |}.

(** ** Specification-side notions for the queue and the session *)

(** The ids of the queued items are distinct, not negative and below the id
    counter. *)
Definition ids_fresh (w : World) : Prop :=
  0 ≤ nextItemId w
  ∧ NoDup (item_id <$> submissionQueue w)
  ∧ Forall (λ item, 0 ≤ item_id item < nextItemId w) (submissionQueue w).

Definition dot : N := 46%N.

(** A path directly under one of the three content directories: what
    follows the directory has only characters of [[a-z0-9]] and dots. *)
Definition safe_path (path : jsstring) : Prop :=
  ∃ dir stem,
    path = dir ++ stem
    ∧ dir ∈ [lit "repo/backgrounds/"; lit "repo/skins/";
             lit "repo/coverflows/"]
    ∧ Forall (λ c, is_az09 c ∨ c = dot) stem.

Definition files_safe (allFiles : list QueuedFile) : Prop :=
  Forall (λ qf, safe_path (desiredPath qf)) allFiles.

Definition paths_safe (queue : list SubmissionItem) : Prop :=
  Forall (λ item, files_safe (files item)) queue.

(** A request that commits a file commits it to a safe path. *)
Definition commit_safe (c : ApiCall) : Prop :=
  match c with
  | ReposCreateOrUpdateFileContents _ _ path _ _ _ => safe_path path
  | _ => True
  end.

(** Nothing but the form variables, the queue and the status line has
    changed: no request was sent, and the storage, the Octokit instance and
    the manifest list are as they were. *)
Definition local_only (w w' : World) : Prop :=
  requests w' = requests w
  ∧ localStorage w' = localStorage w
  ∧ octokit w' = octokit w
  ∧ existingContentList w' = existingContentList w.

(** The operations other than loading the page, logging in and creating the
    pull request. *)
Definition local_operation (op : Operation) : Prop :=
  match op with
  | ChangeSubmissionType | ChangeSkinFile _ | ChangeCoverflowFile _
  | ClickAddToQueue _ | ClickRemove _ => True
  | Initialize _ | ClickCreatePr _ | ClickLogin => False
  end.

(** What [createPullRequest] leaves alone. *)
Definition session_kept (w w' : World) : Prop :=
  existingContentList w' = existingContentList w
  ∧ octokit w' = octokit w
  ∧ nextItemId w' = nextItemId w
  ∧ localStorage w' = localStorage w.

(** The message of [validateFileSize] for a file that is too large. *)
Definition oversize_message (formatFileSize : JsNumber → jsstring)
    (qf : QueuedFile) : jsstring :=
  lit "File size for " ++ file_name (file qf)
    ++ lit " exceeds the maximum limit of " ++ formatFileSize (maxSize qf)
    ++ lit ".".

(** [qf] is the first of the files that fails the size check. *)
Definition first_oversize (allFiles : list QueuedFile) (qf : QueuedFile)
    : Prop :=
  ∃ pre post,
    allFiles = pre ++ qf :: post
    ∧ Forall (λ qf, int_gt (file_size (file qf)) (maxSize qf) = false) pre
    ∧ int_gt (file_size (file qf)) (maxSize qf) = true.

(** A sample session: the background is queued, a pull request is created,
    the background is queued again. *)
Definition sample_session : list Operation :=
  [ClickAddToQueue sample_background_form; ClickCreatePr sample_timestamp;
   ClickAddToQueue sample_background_form].

(** The sample background as it is queued on a fresh page. *)
Definition sample_item : SubmissionItem :=
  {| item_id := 0; item_type := lit "background"; name := lit "Night Sky";
     author := lit "Ann-01"; website := None;
     files :=
       [ {| file := sample_file;
            desiredPath := lit "repo/backgrounds/bg.ann01.nightsky.jpg";
            maxSize := Finite 2000 |} ];
     metadata := None |}.

(** A run of operations on a fresh page without a stored token, against a
    service on which every request succeeds. *)
Definition sample_run (ops : list Operation) : World :=
  run_all github_ok content_unavailable callback_unreachable atob_none
    echo_parse ToString_sample [] toLowerCase_ascii formatFileSize_sample
    None ops (page_load ∅).

(** A sample file that is larger than the limit of its input. *)
Definition sample_large_file : QueuedFile :=
  {| file := sample_file; desiredPath := lit "repo/backgrounds/bg.a.b.jpg";
     maxSize := Finite 10 |}.

(** An authenticated page whose queue holds that file. *)
Definition sample_oversize_world : World :=
  set_submissionQueue
    [{| item_id := 0; item_type := lit "background"; name := lit "b";
        author := lit "a"; website := None; files := [sample_large_file];
        metadata := None |}]
    (sample_world []).

(** ** Specification-side notions for the session *)

(** The request for the manifest. *)
Definition manifest_request : ApiCall :=
  ReposGetContent GITHUB_REPO_OWNER GITHUB_REPO_NAME (lit "repo/list.json").

(** The answer to the request for the manifest has no content to decode: it
    is an array (a directory listing) or an object without a string
    [content]. *)
Definition no_content (data : JsValue) : Prop :=
  (∃ entries, data = JArr entries)
  ∨ (∃ fields, data = JObj fields
               ∧ is_string (lookup_field (lit "content") fields) = false).

(** The reply to the code exchange hands out a token: it is ok and its JSON
    has no truthy [error]. [access_token] is what [data.access_token]
    reads. *)
Definition exchange_succeeds (answer : Settled HttpReply)
    (access_token : option JsValue) : Prop :=
  ∃ reply data err,
    answer = Resolved reply ∧ reply_ok reply = true
    ∧ reply_json reply = Resolved data
    ∧ get_prop data (lit "error") = Resolved err ∧ truthy_opt err = false
    ∧ get_prop data (lit "access_token") = Resolved access_token.

(** A manifest with one background. *)
Definition sample_manifest : JsValue :=
  JObj [(lit "backgrounds", JArr [sample_manifest_entry]);
        (lit "coverflows", JArr []); (lit "skins", JArr [])].

(** The answer of [getContent] for a file whose content is the text
    [manifest]. *)
Definition content_available : list ApiCall → Settled JsValue :=
  λ _, Resolved (JObj [(lit "content", JStr (lit "bWFuaWZlc3Q="))]).

Definition atob_sample (s : jsstring) : option jsstring :=
  if decide (s = lit "bWFuaWZlc3Q=") then Some (lit "manifest") else None.

Definition parse_sample_manifest (s : jsstring) : option JsValue :=
  if decide (s = lit "manifest") then Some sample_manifest else None.

(** A stored token that GitHub accepts. *)
Definition github_accepts_token : list ApiCall → ApiCall → Settled jsstring :=
  λ _ _, Resolved [].

(** An exchange that hands out the token [gho_1]. *)
Definition callback_grants : list ApiCall → jsstring → Settled HttpReply :=
  λ _ _,
    Resolved {| reply_ok := true; reply_status := lit "200";
                reply_text := Resolved [];
                reply_json :=
                  Resolved (JObj [(lit "access_token", JStr (lit "gho_1"))]) |}.

(** ** Specification-side notions for the login round trip *)

(** The request [handleCallback] sends to the endpoint, as the endpoint
    sees it once the body is parsed. *)
Definition callback_request (code : jsstring) : Request :=
  {| method := lit "POST"; body := Some (JObj [(lit "code", JStr code)]) |}.

(** What [fetch] resolves with for a response that was sent with
    [response.status(code).json(payload)]: it is ok exactly for the statuses
    200 to 299, and its JSON is the payload. *)
Definition delivered (response : Response) (reply : HttpReply) : Prop :=
  reply_ok reply = bool_decide (200 ≤ status_code response ≤ 299)
  ∧ reply_json reply = Resolved (payload response).

(** The message the client shows for the error message of the endpoint. *)
Definition shown_error (msg : jsstring) : jsstring :=
  lit "Error during authentication: "
    ++ (if string_truthy msg then msg
        else lit "Failed to exchange code for token").

(** The reply of the endpoint when it cannot reach GitHub. *)
Definition sample_error_reply : HttpReply :=
  {| reply_ok := false; reply_status := lit "500";
     reply_text := Resolved [];
     reply_json := Resolved (error_payload (lit "fetch failed")) |}.

Definition callback_fails : list ApiCall → jsstring → Settled HttpReply :=
  λ _ _, Resolved sample_error_reply.

(** ** Specification-side notions for the file inputs *)



(** A coverflow form with both files selected. *)
Definition sample_coverflow_form : Form :=
  {| submission_type := lit "coverflow";
     background_name := []; background_author := [];
     background_image := empty_input;
     skin_file := empty_input; skin_screenshot := empty_input;
     skin_website := [];
     coverflow_file :=
       {| input_file := Some sample_file; input_maxSize := Finite 2000 |};
     coverflow_screenshot :=
       {| input_file := Some sample_file; input_maxSize := Finite 2000 |};
     coverflow_website := [] |}.



(** Pages on which a skin and a coverflow file have been parsed. *)
Definition sample_skin_metadata : JsValue :=
  JObj [(lit "metaver", JNum (Finite 1));
        (lit "skinname", JStr (lit "Aurora Blue"));
        (lit "author", JStr (lit "Ann-01"))].

Definition sample_skin_world : World :=
  set_currentSkinMetadata sample_skin_metadata (sample_world []).

Definition sample_coverflow_world : World :=
  set_currentCoverflowMetadata sample_coverflow_info (sample_world []).

(** [contents] is what reading each of the files gave, the requests of the
    files being issued in turn after [history]. *)
Fixpoint contents_read (github : list ApiCall → ApiCall → Settled jsstring)
    (history : list ApiCall) (forkOwner branchName : jsstring)
    (allFiles : list QueuedFile) (contents : list jsstring) : Prop :=
  match allFiles, contents with
  | [], [] => True
  | qf :: rest, content :: contents' =>
      github history (ReadFileAsBase64 (file qf)) = Resolved content
      ∧ contents_read github
          (history ++ file_requests forkOwner branchName qf content)
          forkOwner branchName rest contents'
  | _, _ => False
  end.

(** The values the sequence is built from are the answers to its own
    requests: [forkOwner] is what the fork request answered, [defaultBranch]
    what the request for the repository answered after it, [sha] what the
    request for the ref of that branch of the fork answered, and [contents]
    what reading the files gave. *)
Definition answers_used (github : list ApiCall → ApiCall → Settled jsstring)
    (history : list ApiCall) (timestamp : jsstring)
    (queue : list SubmissionItem)
    (forkOwner defaultBranch sha : jsstring) (contents : list jsstring)
    : Prop :=
  let branchName := lit "add/submission-batch-" ++ timestamp in
  let fork := ReposCreateFork GITHUB_REPO_OWNER GITHUB_REPO_NAME in
  let get := ReposGet GITHUB_REPO_OWNER GITHUB_REPO_NAME in
  let getRef :=
    GitGetRef forkOwner GITHUB_REPO_NAME (lit "heads/" ++ defaultBranch) in
  let createRef :=
    GitCreateRef forkOwner GITHUB_REPO_NAME (lit "refs/heads/" ++ branchName)
      sha in
  github history fork = Resolved forkOwner
  ∧ github (history ++ [fork]) get = Resolved defaultBranch
  ∧ github (history ++ [fork; get]) getRef = Resolved sha
  ∧ contents_read github (history ++ [fork; get; getRef; createRef])
      forkOwner branchName (item ← queue; files item) contents.

(** No request that was issued between [w] and [w'] was rejected. *)
Definition every_request_answered
    (github : list ApiCall → ApiCall → Settled jsstring) (w w' : World)
    : Prop :=
  ∀ pre c post,
    requests w' = requests w ++ pre ++ c :: post →
    ∃ s, github (requests w ++ pre) c = Resolved s.

(** ** Properties of the metadata extractor *)

Lemma occurs_at_cons pat c rest j :
  occurs_at pat (c :: rest) (S j) ↔ occurs_at pat rest j.
Proof. reflexivity. Qed.

Lemma indexOf_from_found pat text k :
  indexOf_from pat text k ≠ -1 → 0 ≤ k →
  ∃ s, indexOf_from pat text k = k + Z.of_nat s ∧ first_occurrence pat text s.
Proof.
  revert k. induction text as [|c rest IH]; intros k Hne Hk; simpl in *.
  - destruct (decide (pat `prefix_of` [])) as [Hp|Hp]; [|done].
    exists 0%nat. split; [lia|]. repeat split; [done|simpl; lia|lia].
  - destruct (decide (pat `prefix_of` c :: rest)) as [Hp|Hp].
    + exists 0%nat. split; [lia|]. repeat split; [done|simpl; lia|lia].
    + destruct (IH (k + 1) Hne ltac:(lia)) as (s & Hs & Hocc & Hle & Hmin).
      exists (S s). split; [lia|]. repeat split; [done|simpl; lia|].
      intros [|j] Hj; [done|]. rewrite occurs_at_cons. apply Hmin. lia.
Qed.

Lemma indexOf_from_absent pat text k :
  indexOf_from pat text k = -1 → 0 ≤ k → ∀ j, ¬ occurs_at pat text j.
Proof.
  revert k. induction text as [|c rest IH]; intros k He Hk j; simpl in *.
  - destruct (decide (pat `prefix_of` [])) as [Hp|Hp]; [lia|].
    unfold occurs_at. by rewrite drop_nil.
  - destruct (decide (pat `prefix_of` c :: rest)) as [Hp|Hp]; [lia|].
    destruct j as [|j]; [done|]. rewrite occurs_at_cons. eapply IH; [done|lia].
Qed.

Lemma first_occurrence_unique pat text s s' :
  first_occurrence pat text s → first_occurrence pat text s' → s = s'.
Proof.
  intros (Ho & _ & Hm) (Ho' & _ & Hm').
  destruct (Nat.lt_trichotomy s s') as [H|[H|H]]; [|done|].
  - by destruct (Hm' s H).
  - by destruct (Hm s' H).
Qed.

Lemma brace_balance_snoc seg c :
  brace_balance (seg ++ [c]) =
    if decide (c = lbrace) then brace_balance seg + 1
    else if decide (c = rbrace) then brace_balance seg - 1
    else brace_balance seg.
Proof.
  unfold brace_balance. rewrite !filter_app, !length_app.
  rewrite !filter_cons, !filter_nil.
  destruct (decide (c = lbrace)) as [->|Hl].
  - destruct (decide (lbrace = rbrace)); [done|]. simpl. lia.
  - destruct (decide (c = rbrace)); simpl; lia.
Qed.

Lemma brace_count_step text s i :
  (s ≤ i < length text)%nat →
  brace_count text s i =
    count_brace text i (brace_balance (take (i - s) (drop s text))).
Proof.
  intros Hi. unfold brace_count, segment, count_brace.
  destruct (lookup_lt_is_Some_2 text i) as [c Hc]; [lia|].
  replace (S i - s)%nat with (S (i - s)) by lia.
  rewrite (take_S_r _ _ c).
  2:{ rewrite lookup_drop. by replace (s + (i - s))%nat with i by lia. }
  rewrite brace_balance_snoc, Hc.
  destruct (decide (c = lbrace)) as [->|Hl].
  - by rewrite decide_True.
  - rewrite (decide_False (P := Some c = Some lbrace)) by congruence.
    destruct (decide (c = rbrace)) as [->|Hr].
    + by rewrite decide_True.
    + by rewrite (decide_False (P := Some c = Some rbrace)) by congruence.
Qed.

Lemma first_balanced_unique text s e e' :
  first_balanced text s e → first_balanced text s e' → e = e'.
Proof.
  intros (Hr & Hz & Hm) (Hr' & Hz' & Hm').
  destruct (Nat.lt_trichotomy e e') as [H|[H|H]]; [|done|].
  - destruct (Hm' e); [lia|done].
  - destruct (Hm e'); [lia|done].
Qed.

(** The loop invariant: on entry to round [i] the count is the balance of
    the characters from [s] to [i - 1], and it was not zero after any of
    them. The loop then reads the positions [i], [i + 1], ... in turn and
    stops at the first balanced index, or at the end of the text. *)
Lemma scan_loop_spec text s fuel : ∀ i visited,
  (s ≤ i)%nat → (length text - i < fuel)%nat →
  (∀ j, (s ≤ j < i)%nat → brace_count text s j ≠ 0) →
  ∃ e n,
    scan_loop fuel text i (brace_balance (take (i - s) (drop s text))) visited
      = Some (e, visited ++ seq i n)
    ∧ (n ≤ length text - i)%nat
    ∧ ((e = -1 ∧ n = (length text - i)%nat
        ∧ ∀ j, (s ≤ j < length text)%nat → brace_count text s j ≠ 0)
       ∨ (∃ en, e = Z.of_nat en ∧ first_balanced text s en
                ∧ (i + n = S en)%nat)).
Proof.
  induction fuel as [|fuel IH]; intros i visited Hsi Hfuel Hinv; [lia|].
  simpl. destruct (decide (i < length text)%nat) as [Hlt|Hge].
  - rewrite <- (brace_count_step text s i) by lia.
    destruct (decide (brace_count text s i = 0)) as [Hz|Hnz].
    + exists (Z.of_nat i), 1%nat. split; [done|]. split; [lia|]. right.
      exists i. split; [done|]. split; [|lia].
      split; [lia|]. split; [done|]. intros j Hj. apply Hinv. lia.
    + destruct (IH (S i) (visited ++ [i])) as (e & n & Hrun & Hn & Hres).
      * lia.
      * lia.
      * intros j Hj. destruct (decide (j = i)) as [->|]; [done|].
        apply Hinv. lia.
      * exists e, (S n). split; [|split; [lia|]].
        -- change (brace_balance (take (S i - s) (drop s text)))
             with (brace_count text s i) in Hrun.
           rewrite Hrun. simpl. by rewrite <- app_assoc.
        -- destruct Hres as [(-> & -> & Hall)|(en & -> & Hfb & Hen)].
           ++ left. split; [done|split; [lia|done]].
           ++ right. exists en. split; [done|split; [done|lia]].
  - exists (-1), 0%nat. split; [by rewrite app_nil_r|]. split; [lia|].
    left. split; [done|]. split; [lia|]. intros j Hj. apply Hinv. lia.
Qed.

Lemma scan_braces_spec text s :
  ∃ e n,
    scan_braces text s = Some (e, seq s n)
    ∧ (n ≤ length text - s)%nat
    ∧ ((e = -1 ∧ n = (length text - s)%nat
        ∧ ∀ j, (s ≤ j < length text)%nat → brace_count text s j ≠ 0)
       ∨ (∃ en, e = Z.of_nat en ∧ first_balanced text s en
                ∧ (s + n = S en)%nat)).
Proof.
  destruct (scan_loop_spec text s (S (length text)) s [])
    as (e & n & Hrun & Hn & Hres); [lia|lia|intros j Hj; lia|].
  rewrite Nat.sub_diag in Hrun. exists e, n. done.
Qed.

Lemma substring_segment text s e :
  (s ≤ e < length text)%nat →
  substring text (Z.of_nat s) (Z.of_nat e + 1) = segment text s e.
Proof.
  intros H. unfold substring, segment.
  replace (Z.min (Z.max (Z.of_nat s) 0) (Z.of_nat (length text)))
    with (Z.of_nat s) by lia.
  replace (Z.min (Z.max (Z.of_nat e + 1) 0) (Z.of_nat (length text)))
    with (Z.of_nat e + 1) by lia.
  replace (Z.min (Z.of_nat s) (Z.of_nat e + 1)) with (Z.of_nat s) by lia.
  replace (Z.max (Z.of_nat s) (Z.of_nat e + 1)) with (Z.of_nat e + 1) by lia.
  rewrite Nat2Z.id. f_equal. lia.
Qed.

Lemma xzp_outcome_functional JSON_parse text r r' :
  xzp_outcome JSON_parse text r → xzp_outcome JSON_parse text r' → r = r'.
Proof.
  intros H H'.
  destruct H as [Hno|s Hs Hall|s e Hs He Hp|s e m Hs He Hp];
    destruct H' as [Hno'|s' Hs' Hall'|s' e' Hs' He' Hp'|s' e' m' Hs' He' Hp'];
    try done;
    try (by destruct Hs as [Ho _]; destruct (Hno' s));
    try (by destruct Hs' as [Ho _]; destruct (Hno s'));
    pose proof (first_occurrence_unique _ _ _ _ Hs Hs') as <-.
  - destruct He' as (Hr & Hz & _). by destruct (Hall e').
  - destruct He' as (Hr & Hz & _). by destruct (Hall e').
  - destruct He as (Hr & Hz & _). by destruct (Hall' e).
  - pose proof (first_balanced_unique _ _ _ _ He He') as <-. congruence.
  - destruct He as (Hr & Hz & _). by destruct (Hall' e).
  - pose proof (first_balanced_unique _ _ _ _ He He') as <-. congruence.
  - pose proof (first_balanced_unique _ _ _ _ He He') as <-. congruence.
Qed.

Lemma parseXzpMetadata_onload_outcome JSON_parse text :
  ∃ r, parseXzpMetadata_onload JSON_parse text = Some r
       ∧ xzp_outcome JSON_parse text r.
Proof.
  unfold parseXzpMetadata_onload, indexOf.
  destruct (decide (indexOf_from metaver_marker text 0 = -1)) as [Habs|Hfound].
  - eexists. split; [done|]. apply xzp_no_marker.
    by apply (indexOf_from_absent _ _ 0).
  - destruct (indexOf_from_found _ _ 0 Hfound) as (s & -> & Hs); [done|].
    rewrite Z.add_0_l, Nat2Z.id.
    destruct (scan_braces_spec text s) as (e & n & -> & _ & Hres). simpl.
    destruct Hres as [(-> & _ & Hall)|(en & -> & Hfb & _)].
    + rewrite decide_True by done. eexists. split; [done|].
      by apply (xzp_no_end _ _ s).
    + rewrite decide_False by lia.
      rewrite substring_segment by apply Hfb.
      destruct (JSON_parse (segment text s en)) as [m|] eqn:Hp.
      * eexists. split; [done|]. by apply (xzp_parsed _ _ s en).
      * eexists. split; [done|]. by apply (xzp_invalid_json _ _ s en).
Qed.

(** C6. The brace scan of [parseXzpMetadata] is single-pass and bounded: run
    from any start index on any text it ends (the fuel of one more than the
    text's length is never used up), it reads the positions
    [startIndex], [startIndex + 1], ... one after the other, each one once
    and each one inside the text, and it ends either with the first
    balanced index, read last, or with -1 after reading every position to
    the end of the text; -1 is what makes [parseXzpMetadata] reject with
    the no-end error. *)
Theorem scan_braces_single_pass (text : jsstring) (startIndex : nat) :
  ∃ endIndex visited,
    scan_braces text startIndex = Some (endIndex, visited)
    ∧ visited = seq startIndex (length visited)
    ∧ NoDup visited
    ∧ (∀ p, p ∈ visited → (startIndex ≤ p < length text)%nat)
    ∧ (length visited ≤ length text)%nat
    ∧ ((endIndex = -1
        ∧ length visited = (length text - startIndex)%nat)
       ∨ (∃ e, endIndex = Z.of_nat e ∧ last visited = Some e
               ∧ first_balanced text startIndex e)).
Proof.
  destruct (scan_braces_spec text startIndex) as (e & n & Hrun & Hn & Hres).
  exists e, (seq startIndex n). rewrite length_seq.
  split; [done|]. split; [done|]. split; [apply NoDup_seq|].
  split; [intros p Hp; apply elem_of_seq in Hp; lia|]. split; [lia|].
  destruct Hres as [(-> & -> & _)|(en & -> & Hfb & Hen)].
  - by left.
  - right. exists en. split; [done|]. split; [|done].
    pose proof (proj1 Hfb) as Hrange.
    destruct n as [|n]; [lia|].
    rewrite seq_S, last_snoc. f_equal. lia.
Qed.

(** C1. [parseXzpMetadata] locates the embedded JSON object by brace
    matching. On the decoded text of a file it always settles, and it
    settles with [r] exactly when [r] is what the description gives: a
    rejection when the marker does not occur; otherwise, from the first
    occurrence [s] of the marker, a rejection when the brace count is zero
    at no index from [s] on, and else, with [e] the first index at which
    the count is zero, [JSON.parse] of the characters [s..e], or a rejection
    when they are not valid JSON. *)
Theorem parseXzpMetadata_brace_matching
    (JSON_parse : jsstring → option JsValue) (text : jsstring) :
  (∃ r, parseXzpMetadata JSON_parse (Loaded text) = Some r)
  ∧ ∀ r, parseXzpMetadata JSON_parse (Loaded text) = Some r
         ↔ xzp_outcome JSON_parse text r.
Proof.
  destruct (parseXzpMetadata_onload_outcome JSON_parse text) as (r0 & Hr0 & Ho).
  split; [by exists r0|]. intros r. simpl. rewrite Hr0. split.
  - by intros [= <-].
  - intros Hr. f_equal. by eapply xzp_outcome_functional.
Qed.

(** ** Properties of [handleAddToQueue] *)

Lemma replace_not_az09_filter s :
  replace_not_az09 s = filter (λ c, is_az09 c) s.
Proof.
  unfold replace_not_az09. induction s as [|c s IH]; [done|].
  rewrite filter_cons. cbn [mbind list_bind]. rewrite <- IH.
  unfold matches_not_az09, is_az09.
  by destruct (in_range 97 122 c || in_range 48 57 c).
Qed.

Lemma app_singleton_neq {A} (l : list A) x : l ++ [x] ≠ l.
Proof.
  intros H. apply (f_equal length) in H. rewrite length_app in H.
  simpl in H. lia.
Qed.

Section AddToQueueFacts.

Variable toLowerCase : jsstring → jsstring.

Lemma sanitize_canonical s :
  sanitize toLowerCase s = canonical_sanitize toLowerCase s.
Proof. apply replace_not_az09_filter. Qed.

(** Whenever a branch has derived an identifier, what it does next is
    decided by the scan of the manifest list alone. *)
Lemma build_item_checked f w br id :
  build_item toLowerCase f w = (br, id) → id ≠ [] →
  match some_id_equals (existingContentList w) id with
  | Rejected e => br = Throw e
  | Resolved true => br = Return (showStatus (already_exists id) error w)
  | Resolved false => ∃ d, br = Item d
  end.
Proof.
  unfold build_item, background_branch, skin_branch, coverflow_branch.
  intros H Hid.
  repeat case_match; simplify_eq; try done; try congruence; eauto.
Qed.

Lemma build_item_return f w w0 id :
  build_item toLowerCase f w = (Return w0, id) →
  ∃ msg, w0 = showStatus msg error w.
Proof.
  unfold build_item, background_branch, skin_branch, coverflow_branch.
  intros H. repeat case_match; simplify_eq; eauto.
Qed.

Lemma build_item_item f w d id :
  build_item toLowerCase f w = (Item d, id) →
  ∃ prefix,
    item_source f w prefix (draft_name d) (draft_author d) (draft_metadata d)
    ∧ id = canonical_id toLowerCase prefix (draft_author d) (draft_name d).
Proof.
  unfold build_item, background_branch, skin_branch, coverflow_branch.
  unfold item_source, canonical_id. rewrite <- !sanitize_canonical.
  intros H. repeat case_match; simplify_eq; simpl.
  - exists (lit "bg"). split; [left; done|done].
  - exists (lit "skin"). split; [right; left; done|done].
  - exists (lit "cf"). split; [right; right; done|done].
Qed.

Lemma handleAddToQueue_pushed f w w' r item :
  handleAddToQueue toLowerCase f w = (w', r) →
  submissionQueue w' = submissionQueue w ++ [item] →
  ∃ d, build_item toLowerCase f w = (Item d, itemId r)
       ∧ item = with_id d (nextItemId w)
       ∧ completion r = Resolved ()
       ∧ existingContentList w' = existingContentList w
       ∧ nextItemId w' = nextItemId w + 1.
Proof.
  unfold handleAddToQueue. intros H Hq.
  destruct (string_truthy (submission_type f)); simpl in H.
  2:{ simplify_eq. simpl in Hq. symmetry in Hq.
      by apply app_singleton_neq in Hq. }
  destruct (build_item toLowerCase f w) as [br id] eqn:Hb.
  destruct br as [w0|e|d|]; simplify_eq; simpl in *.
  - apply build_item_return in Hb as [msg ->]. simpl in Hq.
    symmetry in Hq. by apply app_singleton_neq in Hq.
  - symmetry in Hq. by apply app_singleton_neq in Hq.
  - apply app_inj_tail in Hq as [_ <-]. eauto 10.
  - symmetry in Hq. by apply app_singleton_neq in Hq.
Qed.

Lemma build_item_frame_background f w1 w2 :
  submission_type f = lit "background" →
  existingContentList w1 = existingContentList w2 →
  ∃ b1 b2 id,
    build_item toLowerCase f w1 = (b1, id)
    ∧ build_item toLowerCase f w2 = (b2, id)
    ∧ branch_rel w1 w2 b1 b2.
Proof.
  intros Ht Hl. unfold build_item, background_branch.
  rewrite decide_True by done. rewrite <- Hl.
  repeat case_match; simplify_eq;
    do 3 eexists; (split; [done|split; [done|]]); constructor.
Qed.

(** Two runs that build the same item end the same way, and append the
    same draft or nothing. *)
Lemma handleAddToQueue_frame f w1 w2 :
  (∃ b1 b2 id,
     build_item toLowerCase f w1 = (b1, id)
     ∧ build_item toLowerCase f w2 = (b2, id)
     ∧ branch_rel w1 w2 b1 b2) →
  snd (handleAddToQueue toLowerCase f w1)
    = snd (handleAddToQueue toLowerCase f w2)
  ∧ ((∃ d, submissionQueue (fst (handleAddToQueue toLowerCase f w1))
             = submissionQueue w1 ++ [with_id d (nextItemId w1)]
           ∧ submissionQueue (fst (handleAddToQueue toLowerCase f w2))
             = submissionQueue w2 ++ [with_id d (nextItemId w2)])
     ∨ (submissionQueue (fst (handleAddToQueue toLowerCase f w1))
          = submissionQueue w1
        ∧ submissionQueue (fst (handleAddToQueue toLowerCase f w2))
          = submissionQueue w2)).
Proof.
  intros (b1 & b2 & id & H1 & H2 & Hrel). unfold handleAddToQueue.
  destruct (string_truthy (submission_type f)); simpl; [|by auto].
  rewrite H1, H2. destruct Hrel; simpl; eauto.
Qed.

Lemma build_item_frame f w1 w2 :
  same_inputs w1 w2 →
  ∃ b1 b2 id,
    build_item toLowerCase f w1 = (b1, id)
    ∧ build_item toLowerCase f w2 = (b2, id)
    ∧ branch_rel w1 w2 b1 b2.
Proof.
  intros (Hl & Hs & Hc).
  unfold build_item, background_branch, skin_branch, coverflow_branch.
  rewrite <- Hl, <- Hs, <- Hc.
  repeat case_match; simplify_eq;
    do 3 eexists; (split; [done|split; [done|]]); constructor.
Qed.

End AddToQueueFacts.

Section IdentifierFacts.

Variable toLowerCase : jsstring → jsstring.

#[local] Opaque lit.

Lemma string_truthy_nonempty s : s ≠ [] → string_truthy s = true.
Proof. intros Hs. unfold string_truthy. by rewrite bool_decide_eq_false_2. Qed.

Lemma canonical_id_nonempty prefix item_author item_name :
  prefix ≠ [] → canonical_id toLowerCase prefix item_author item_name ≠ [].
Proof. unfold canonical_id. by destruct prefix. Qed.

Lemma get_prop_string_truthy v key s :
  get_prop v key = Resolved (Some (JStr s)) → truthy v = true.
Proof. by destruct v. Qed.

(** With the form of a type filled in, the branch of that type derives the
    identifier from the sources of that type. *)
Lemma build_item_background f w :
  submission_type f = lit "background" →
  background_name f ≠ [] → background_author f ≠ [] →
  input_file (background_image f) ≠ None →
  ∃ br,
    build_item toLowerCase f w
    = (br, canonical_id toLowerCase (lit "bg") (background_author f)
             (background_name f)).
Proof.
  intros Htype Hname Hauthor Hfile. unfold build_item, background_branch.
  rewrite Htype, decide_True by done.
  rewrite (string_truthy_nonempty _ Hname), (string_truthy_nonempty _ Hauthor).
  destruct (input_file (background_image f)); [|done].
  rewrite !sanitize_canonical.
  destruct (some_id_equals _ _) as [[|]|]; by eexists.
Qed.

Lemma build_item_skin f w skinname item_author :
  submission_type f = lit "skin" →
  input_file (skin_file f) ≠ None →
  input_file (skin_screenshot f) ≠ None →
  skin_website f ≠ [] →
  get_prop (currentSkinMetadata w) (lit "skinname")
  = Resolved (Some (JStr skinname)) →
  get_prop (currentSkinMetadata w) (lit "author")
  = Resolved (Some (JStr item_author)) →
  ∃ br,
    build_item toLowerCase f w
    = (br, canonical_id toLowerCase (lit "skin") item_author skinname).
Proof.
  intros Htype Hfile Hshot Hweb Hn Ha. unfold build_item, skin_branch.
  rewrite Htype, decide_False, decide_True by done.
  destruct (input_file (skin_file f)); [|done].
  destruct (input_file (skin_screenshot f)); [|done].
  rewrite (string_truthy_nonempty _ Hweb), (get_prop_string_truthy _ _ _ Hn).
  rewrite Hn, Ha, !sanitize_canonical.
  destruct (some_id_equals _ _) as [[|]|]; by eexists.
Qed.

Lemma build_item_coverflow f w item_name item_author :
  submission_type f = lit "coverflow" →
  input_file (coverflow_file f) ≠ None →
  input_file (coverflow_screenshot f) ≠ None →
  get_prop (currentCoverflowMetadata w) (lit "name")
  = Resolved (Some (JStr item_name)) →
  get_prop (currentCoverflowMetadata w) (lit "author")
  = Resolved (Some (JStr item_author)) →
  ∃ br,
    build_item toLowerCase f w
    = (br, canonical_id toLowerCase (lit "cf") item_author item_name).
Proof.
  intros Htype Hfile Hshot Hn Ha. unfold build_item, coverflow_branch.
  rewrite Htype, decide_False, decide_False, decide_True by done.
  destruct (input_file (coverflow_file f)); [|done].
  destruct (input_file (coverflow_screenshot f)); [|done].
  rewrite (get_prop_string_truthy _ _ _ Hn).
  rewrite Hn, Ha, !sanitize_canonical.
  destruct (some_id_equals _ _) as [[|]|]; by eexists.
Qed.

(** Once the branch has derived an identifier, the call carries it, and it
    appends the item unless the manifest list has the identifier or cannot
    be searched. *)
Lemma handleAddToQueue_derived f w br id :
  submission_type f ≠ [] →
  build_item toLowerCase f w = (br, id) → id ≠ [] →
  itemId (snd (handleAddToQueue toLowerCase f w)) = id
  ∧ (some_id_equals (existingContentList w) id = Resolved false →
     ∃ d, br = Item d
          ∧ submissionQueue (fst (handleAddToQueue toLowerCase f w))
            = submissionQueue w ++ [with_id d (nextItemId w)]).
Proof.
  intros Htype Hb Hid. pose proof (build_item_checked _ _ _ _ _ Hb Hid) as Hc.
  unfold handleAddToQueue. rewrite (string_truthy_nonempty _ Htype), Hb.
  cbn [negb]. split; [by destruct br|].
  intros Hfresh. rewrite Hfresh in Hc. destruct Hc as [d ->]. by exists d.
Qed.

#[local] Transparent lit.

End IdentifierFacts.

(** C2. [handleAddToQueue] derives the identifier
    ['<prefix>.<sanitizedAuthor>.<sanitizedName>'], where sanitizing
    lowercases and keeps exactly the characters of [[a-z0-9]]. With the form
    of a type filled in, the identifier of the call is that string with the
    prefix ['bg'] and the name and author of the form fields for a
    background, ['skin'] and [skinname] and [author] of the parsed skin
    metadata for a skin, ['cf'] and [name] and [author] of the parsed
    coverflow metadata for a coverflow; and unless the manifest list has
    that identifier the item is added under this name and author, with the
    metadata it came from. Conversely, every item that is added has the
    identifier of its type, derived from these sources. *)
Theorem handleAddToQueue_canonical_id
    (toLowerCase : jsstring → jsstring) (f : Form) (w : World) :
  let result := handleAddToQueue toLowerCase f w in
  let added item :=
    submissionQueue (fst result) = submissionQueue w ++ [item] in
  (∀ item, added item →
     ∃ prefix,
       itemId (snd result)
       = canonical_id toLowerCase prefix (author item) (name item)
       ∧ ((submission_type f = lit "background" ∧ prefix = lit "bg"
           ∧ name item = background_name f
           ∧ author item = background_author f)
          ∨ (submission_type f = lit "skin" ∧ prefix = lit "skin"
             ∧ get_prop (currentSkinMetadata w) (lit "skinname")
               = Resolved (Some (JStr (name item)))
             ∧ get_prop (currentSkinMetadata w) (lit "author")
               = Resolved (Some (JStr (author item)))
             ∧ metadata item = Some (currentSkinMetadata w))
          ∨ (submission_type f = lit "coverflow" ∧ prefix = lit "cf"
             ∧ get_prop (currentCoverflowMetadata w) (lit "name")
               = Resolved (Some (JStr (name item)))
             ∧ get_prop (currentCoverflowMetadata w) (lit "author")
               = Resolved (Some (JStr (author item)))
             ∧ metadata item = Some (currentCoverflowMetadata w))))
  ∧ (submission_type f = lit "background" →
     background_name f ≠ [] → background_author f ≠ [] →
     input_file (background_image f) ≠ None →
     itemId (snd result)
     = canonical_id toLowerCase (lit "bg") (background_author f)
         (background_name f)
     ∧ (some_id_equals (existingContentList w) (itemId (snd result))
        = Resolved false →
        ∃ item, added item ∧ name item = background_name f
                ∧ author item = background_author f))
  ∧ (∀ skinname skin_author,
       submission_type f = lit "skin" →
       input_file (skin_file f) ≠ None →
       input_file (skin_screenshot f) ≠ None →
       skin_website f ≠ [] →
       get_prop (currentSkinMetadata w) (lit "skinname")
       = Resolved (Some (JStr skinname)) →
       get_prop (currentSkinMetadata w) (lit "author")
       = Resolved (Some (JStr skin_author)) →
       itemId (snd result)
       = canonical_id toLowerCase (lit "skin") skin_author skinname
       ∧ (some_id_equals (existingContentList w) (itemId (snd result))
          = Resolved false →
          ∃ item, added item ∧ name item = skinname
                  ∧ author item = skin_author
                  ∧ metadata item = Some (currentSkinMetadata w)))
  ∧ (∀ coverflow_name coverflow_author,
       submission_type f = lit "coverflow" →
       input_file (coverflow_file f) ≠ None →
       input_file (coverflow_screenshot f) ≠ None →
       get_prop (currentCoverflowMetadata w) (lit "name")
       = Resolved (Some (JStr coverflow_name)) →
       get_prop (currentCoverflowMetadata w) (lit "author")
       = Resolved (Some (JStr coverflow_author)) →
       itemId (snd result)
       = canonical_id toLowerCase (lit "cf") coverflow_author coverflow_name
       ∧ (some_id_equals (existingContentList w) (itemId (snd result))
          = Resolved false →
          ∃ item, added item ∧ name item = coverflow_name
                  ∧ author item = coverflow_author
                  ∧ metadata item = Some (currentCoverflowMetadata w))).
Proof.
  cbv zeta.
  assert (∀ br id,
            build_item toLowerCase f w = (br, id) → id ≠ [] →
            submission_type f ≠ [] →
            itemId (snd (handleAddToQueue toLowerCase f w)) = id
            ∧ (some_id_equals (existingContentList w)
                 (itemId (snd (handleAddToQueue toLowerCase f w)))
               = Resolved false →
               ∃ d prefix,
                 submissionQueue (fst (handleAddToQueue toLowerCase f w))
                 = submissionQueue w ++ [with_id d (nextItemId w)]
                 ∧ item_source f w prefix (draft_name d) (draft_author d)
                     (draft_metadata d))) as Hderived.
  { intros br id Hb Hid Htype.
    destruct (handleAddToQueue_derived toLowerCase f w br id Htype Hb Hid)
      as [Hcarried Hfresh].
    split; [done|]. rewrite Hcarried. intros Hnew.
    destruct (Hfresh Hnew) as (d & -> & Hq).
    destruct (build_item_item _ _ _ _ _ Hb) as (prefix & Hsrc & _).
    by exists d, prefix. }
  split; [|split; [|split]].
  - intros item Hq.
    destruct (handleAddToQueue toLowerCase f w) as [w' r] eqn:H.
    destruct (handleAddToQueue_pushed _ _ _ _ _ _ H Hq) as (d & Hb & -> & _).
    destruct (build_item_item _ _ _ _ _ Hb) as (prefix & Hsrc & Hid).
    exists prefix. split; [exact Hid|]. simpl.
    destruct Hsrc as [(?&?&?&?&?)|[(?&?&?&?&?)|(?&?&?&?&?)]]; eauto 10.
  - intros Htype Hname Hauthor Hfile.
    destruct (build_item_background toLowerCase f w Htype Hname Hauthor Hfile)
      as [br Hb].
    destruct (Hderived _ _ Hb) as [Hid Hfresh];
      [by apply canonical_id_nonempty|by rewrite Htype|].
    split; [done|]. intros Hnew.
    destruct (Hfresh Hnew) as (d & prefix & Hq & Hsrc).
    exists (with_id d (nextItemId w)). split; [done|]. simpl.
    destruct Hsrc as [(_&_&?&?&_)|[(Ht&_)|(Ht&_)]];
      [done|by rewrite Htype in Ht..].
  - intros skinname skin_author Htype Hfile Hshot Hweb Hn Ha.
    destruct (build_item_skin toLowerCase f w _ _ Htype Hfile Hshot Hweb
                Hn Ha) as [br Hb].
    destruct (Hderived _ _ Hb) as [Hid Hfresh];
      [by apply canonical_id_nonempty|by rewrite Htype|].
    split; [done|]. intros Hnew.
    destruct (Hfresh Hnew) as (d & prefix & Hq & Hsrc).
    exists (with_id d (nextItemId w)). split; [done|]. simpl.
    destruct Hsrc as [(Ht&_)|[(_&_&Hn'&Ha'&?)|(Ht&_)]];
      [by rewrite Htype in Ht| |by rewrite Htype in Ht].
    rewrite Hn in Hn'. rewrite Ha in Ha'. by simplify_eq.
  - intros coverflow_name coverflow_author Htype Hfile Hshot Hn Ha.
    destruct (build_item_coverflow toLowerCase f w _ _ Htype Hfile Hshot
                Hn Ha) as [br Hb].
    destruct (Hderived _ _ Hb) as [Hid Hfresh];
      [by apply canonical_id_nonempty|by rewrite Htype|].
    split; [done|]. intros Hnew.
    destruct (Hfresh Hnew) as (d & prefix & Hq & Hsrc).
    exists (with_id d (nextItemId w)). split; [done|]. simpl.
    destruct Hsrc as [(Ht&_)|[(Ht&_)|(_&_&Hn'&Ha'&?)]];
      [by rewrite Htype in Ht..|].
    rewrite Hn in Hn'. rewrite Ha in Ha'. by simplify_eq.
Qed.

Section MetadataFacts.

Variable JSON_parse : jsstring → option JsValue.
Variable TypeError_message : jsstring.

#[local] Opaque lit.

(** The metadata [handleAddToQueue] reads for a skin is what
    [parseXzpMetadata] resolved with for the selected file. *)
Lemma onSkinFileChange_stores_parsed r metadata w :
  parseXzpMetadata JSON_parse r = Some (Resolved metadata) →
  metadata ≠ JNull →
  currentSkinMetadata
    (fst (onSkinFileChange JSON_parse TypeError_message (Some r) w))
  = metadata.
Proof.
  intros Hparse Hnn. unfold onSkinFileChange.
  unfold try_catch, mbind, M_bind, mret, M_ret, modify, settle.
  rewrite Hparse. cbn. by destruct metadata.
Qed.

(** The metadata [handleAddToQueue] reads for a coverflow is the [info]
    object [parseCoverflowMetadata] resolved with for the selected file. *)
Lemma onCoverflowFileChange_stores_parsed r info w :
  parseCoverflowMetadata JSON_parse r = Resolved info →
  info ≠ JNull →
  currentCoverflowMetadata
    (fst (onCoverflowFileChange JSON_parse TypeError_message (Some r) w))
  = info.
Proof.
  intros Hparse Hnn. unfold onCoverflowFileChange.
  unfold try_catch, mbind, M_bind, mret, M_ret, modify, settle.
  rewrite Hparse. cbn. by destruct info.
Qed.

End MetadataFacts.

#[local] Transparent lit.

Lemma strict_eq_string_true x id :
  strict_eq_string x id = true ↔ x = Some (JStr id).
Proof.
  unfold strict_eq_string. split.
  - intros H. repeat case_match; try done.
    apply bool_decide_eq_true in H. by subst.
  - intros ->. by apply bool_decide_eq_true.
Qed.




Lemma some_id_equals_false list id :
  some_id_equals list id = Resolved false → ¬ Exists (has_id id) list.
Proof.
  induction list as [|entry rest IH]; intros H Hex; [by inversion Hex|].
  simpl in H. destruct (get_prop entry (lit "id")) as [x|e] eqn:Hg; [|done].
  destruct (strict_eq_string x id) eqn:Hx; [done|].
  inversion Hex as [? ? Hh|]; subst; [|by apply IH].
  unfold has_id in Hh. rewrite Hg in Hh. simplify_eq.
  by rewrite (proj2 (strict_eq_string_true _ _)) in Hx.
Qed.

(** C9. The duplicate check never looks at the local queue. Whatever the
    queue holds, [handleAddToQueue] ends the same way and appends the same
    item. So an add that succeeded succeeds again when the same submission
    is made a second time (straight away for a background; for a skin or a
    coverflow once the same file is selected again and its metadata is back
    in place): the identifier is the same, it is in no manifest entry, and
    the queue then ends with two items whose files have the same
    [desiredPath]s. *)
Theorem handleAddToQueue_ignores_queue
    (toLowerCase : jsstring → jsstring) (f : Form) (w : World) :
  (∀ q, ∃ added,
     submissionQueue (fst (handleAddToQueue toLowerCase f w))
       = submissionQueue w ++ added
     ∧ submissionQueue
         (fst (handleAddToQueue toLowerCase f (set_submissionQueue q w)))
       = q ++ added
     ∧ snd (handleAddToQueue toLowerCase f (set_submissionQueue q w))
       = snd (handleAddToQueue toLowerCase f w))
  ∧ (∀ w1 r1 item1,
       handleAddToQueue toLowerCase f w = (w1, r1) →
       submissionQueue w1 = submissionQueue w ++ [item1] →
       ∀ w1',
         (w1' = w1 ∧ submission_type f = lit "background"
          ∨ w1' = set_currentCoverflowMetadata (currentCoverflowMetadata w)
                    (set_currentSkinMetadata (currentSkinMetadata w) w1)) →
         ¬ Exists (has_id (itemId r1)) (existingContentList w)
         ∧ ∃ w2 r2 item2,
             handleAddToQueue toLowerCase f w1' = (w2, r2)
             ∧ itemId r2 = itemId r1
             ∧ completion r2 = Resolved ()
             ∧ submissionQueue w2 = submissionQueue w ++ [item1; item2]
             ∧ files item1 ≠ []
             ∧ desiredPath <$> files item2 = desiredPath <$> files item1
             ∧ item_id item2 = item_id item1 + 1).
Proof.
  split.
  - intros q.
    destruct (handleAddToQueue_frame toLowerCase f w (set_submissionQueue q w))
      as [Hr [(d & Hq1 & Hq2)|(Hq1 & Hq2)]].
    { by apply build_item_frame. }
    + exists [with_id d (nextItemId w)]. by rewrite Hq1, Hq2.
    + exists []. by rewrite Hq1, Hq2, !app_nil_r.
  - intros w1 r1 item1 H Hq w1' Hw1'.
    destruct (handleAddToQueue_pushed _ _ _ _ _ _ H Hq)
      as (d & Hb & -> & Hc & Hl & Hn).
    assert (itemId r1 ≠ []) as Hid.
    { destruct (build_item_item _ _ _ _ _ Hb) as (prefix & Hsrc & ->).
      unfold canonical_id.
      destruct Hsrc as [(_&->&_)|[(_&->&_)|(_&->&_)]]; done. }
    pose proof (build_item_checked _ _ _ _ _ Hb Hid) as Hchk.
    destruct (some_id_equals (existingContentList w) (itemId r1))
      as [[]|] eqn:Hsome; [done| |done].
    split; [by apply some_id_equals_false|].
    assert (files (with_id d (nextItemId w)) ≠ []) as Hfiles.
    { clear -Hb. revert Hb.
      unfold build_item, background_branch, skin_branch, coverflow_branch.
      intros Hb. repeat case_match; simplify_eq; done. }
    assert (∃ b1 b2 id,
              build_item toLowerCase f w = (b1, id)
              ∧ build_item toLowerCase f w1' = (b2, id)
              ∧ branch_rel w w1' b1 b2) as Hframe.
    { destruct Hw1' as [[-> Ht]| ->].
      - apply build_item_frame_background; done.
      - apply build_item_frame. by repeat split. }
    destruct (handleAddToQueue_frame toLowerCase f w w1' Hframe)
      as [Hr [(d' & Hq1 & Hq2)|(Hq1 & Hq2)]].
    + rewrite H in Hq1, Hr. simpl in Hq1, Hr. rewrite Hq in Hq1.
      apply app_inj_tail in Hq1 as [_ Hd].
      destruct (handleAddToQueue toLowerCase f w1') as [w2 r2] eqn:H2.
      simpl in Hq2, Hr. exists w2, r2, (with_id d' (nextItemId w1')).
      split; [done|]. split; [by rewrite Hr|]. split; [by rewrite <- Hr|].
      assert (submissionQueue w1' = submissionQueue w1) as Hqq
        by (by destruct Hw1' as [[-> _]| ->]).
      assert (nextItemId w1' = nextItemId w1) as Hnn
        by (by destruct Hw1' as [[-> _]| ->]).
      split; [by rewrite Hq2, Hqq, Hq, <- app_assoc, Hd|].
      split; [done|]. split.
      * apply (f_equal files) in Hd. simpl in Hd. simpl. by rewrite Hd.
      * simpl. lia.
    + rewrite H in Hq1. simpl in Hq1. rewrite Hq in Hq1.
      by apply app_singleton_neq in Hq1.
Qed.

(** ** Properties of [createPullRequest] *)

Lemma all_answered_app github history pre post :
  all_answered github history (pre ++ post)
  ↔ all_answered github history pre
    ∧ all_answered github (history ++ pre) post.
Proof.
  revert history. induction pre as [|c pre IH]; intros history; simpl.
  - rewrite app_nil_r. tauto.
  - rewrite IH, <- app_assoc. simpl. tauto.
Qed.

Lemma M_bind_run {A B} (m : M A) (k : A → M B) w :
  (m ≫= k) w =
    match m w with
    | (w', Resolved x) => k x w'
    | (w', Rejected e) => (w', Rejected e)
    end.
Proof. reflexivity. Qed.

Lemma set_requests_twice a b w :
  set_requests a (set_requests b w) = set_requests a w.
Proof. by destruct w. Qed.

Section PullRequestFacts.

Variable github : list ApiCall → ApiCall → Settled jsstring.
Variable TypeError_message : jsstring.
Variable formatFileSize : JsNumber → jsstring.
Variable env_GITHUB_TARGET_BRANCH : option jsstring.

Lemma octokit_call_authenticated c w o :
  octokit w = Some o →
  octokit_call github c w
    = (set_requests (requests w ++ [c]) w, github (requests w) c).
Proof. unfold octokit_call, perform. by intros ->. Qed.

Lemma validate_sizes_pass allFiles w :
  Forall (λ qf, int_gt (file_size (file qf)) (maxSize qf) = false) allFiles →
  validate_sizes formatFileSize allFiles w = (w, Resolved true).
Proof.
  induction 1 as [|qf rest Hqf _ IH]; [done|].
  cbn. unfold validateFileSize. rewrite Hqf. cbn. apply IH.
Qed.

(** The commit loop issues the two requests of each file in turn and stops
    at the first one that fails. *)
Lemma commit_files_spec forkOwner branchName allFiles : ∀ w o,
  octokit w = Some o →
  ∃ new contents r,
    commit_files github forkOwner branchName allFiles w
      = (set_requests (requests w ++ new) w, r)
    ∧ length contents = length allFiles
    ∧ new `prefix_of` commit_requests forkOwner branchName allFiles contents
    ∧ ((r = Resolved ()
        ∧ new = commit_requests forkOwner branchName allFiles contents
        ∧ all_answered github (requests w) new
        ∧ contents_read github (requests w) forkOwner branchName allFiles
            contents)
       ∨ (∃ e pre c, r = Rejected e ∧ new = pre ++ [c]
            ∧ all_answered github (requests w) pre
            ∧ github (requests w ++ pre) c = Rejected e)).
Proof.
  induction allFiles as [|qf rest IH]; intros w o Ho.
  - exists [], [], (Resolved ()). split.
    { simpl. rewrite app_nil_r. by destruct w. }
    split; [done|]. split; [done|]. by left.
  - change (commit_files github forkOwner branchName (qf :: rest))
      with (content ← perform github (ReadFileAsBase64 (file qf));
            octokit_call github
              (ReposCreateOrUpdateFileContents forkOwner GITHUB_REPO_NAME
                 (desiredPath qf) (lit "Add " ++ file_name (file qf))
                 content branchName);;
            commit_files github forkOwner branchName rest).
    rewrite M_bind_run. unfold perform at 1.
    destruct (github (requests w) (ReadFileAsBase64 (file qf)))
      as [content|e] eqn:Hread.
    2:{ exists [ReadFileAsBase64 (file qf)],
          (replicate (S (length rest)) []), (Rejected e).
        split; [done|]. split; [by rewrite length_replicate|].
        split; [by eexists|]. right.
        exists e, [], (ReadFileAsBase64 (file qf)). simpl.
        by rewrite app_nil_r. }
    set (w1 := set_requests (requests w ++ [ReadFileAsBase64 (file qf)]) w).
    set (commit :=
      ReposCreateOrUpdateFileContents forkOwner GITHUB_REPO_NAME
        (desiredPath qf) (lit "Add " ++ file_name (file qf)) content
        branchName).
    rewrite M_bind_run.
    rewrite (octokit_call_authenticated _ w1 o) by (by destruct w).
    destruct (github (requests w1) commit) as [ok|e] eqn:Hcommit.
    2:{ exists [ReadFileAsBase64 (file qf); commit],
          (content :: replicate (length rest) []), (Rejected e).
        split.
        { subst w1. rewrite set_requests_twice. simpl.
          by rewrite <- app_assoc. }
        split; [simpl; by rewrite length_replicate|].
        split; [by eexists|]. right.
        exists e, [ReadFileAsBase64 (file qf)], commit.
        split; [done|]. split; [done|]. split; [|done].
        simpl. by eauto. }
    destruct (IH (set_requests (requests w1 ++ [commit]) w1) o)
      as (new & contents & r & Hrun & Hlen & Hpre & Hres).
    { by destruct w. }
    rewrite Hrun.
    exists (ReadFileAsBase64 (file qf) :: commit :: new),
      (content :: contents), r.
    split.
    { subst w1. rewrite !set_requests_twice.
      destruct w. simpl. by rewrite <- !app_assoc. }
    split; [simpl; by rewrite Hlen|].
    split.
    { destruct Hpre as [k Hk]. exists k.
      change (ReadFileAsBase64 (file qf) :: commit
                :: commit_requests forkOwner branchName rest contents
              = ReadFileAsBase64 (file qf) :: commit :: (new ++ k)).
      by rewrite Hk. }
    assert (requests (set_requests (requests w1 ++ [commit]) w1)
            = requests w ++ [ReadFileAsBase64 (file qf); commit]) as Hreq.
    { subst w1. destruct w. simpl. by rewrite <- app_assoc. }
    rewrite Hreq in Hres.
    destruct Hres
      as [(-> & -> & Hans & Hread')|(e & pre & c & -> & -> & Hans & Hfail)].
    + left. split; [done|]. split; [done|]. split.
      * apply (proj2 (all_answered_app github (requests w)
                        [ReadFileAsBase64 (file qf); commit]
                        (commit_requests forkOwner branchName rest contents))).
        split; [|done].
        simpl. split; [by eauto|]. split; [|done].
        exists ok. by destruct w.
      * split; [done|exact Hread'].
    + right. exists e, (ReadFileAsBase64 (file qf) :: commit :: pre), c.
      split; [done|]. split; [done|]. split.
      * apply (proj2 (all_answered_app github (requests w)
                        [ReadFileAsBase64 (file qf); commit] pre)).
        split; [|done].
        simpl. split; [by eauto|]. split; [|done].
        exists ok. by destruct w.
      * rewrite <- Hfail. f_equal. by rewrite <- app_assoc.
Qed.

#[local] Opaque lit GITHUB_REPO_OWNER GITHUB_REPO_NAME.

Lemma octokit_call_unauthenticated c w :
  octokit w = None → octokit_call github c w = (w, Rejected TypeError).
Proof. unfold octokit_call. by intros ->. Qed.

Lemma createPullRequest_runs timestamp w :
  submissionQueue w ≠ [] →
  sizes_pass (submissionQueue w) →
  ∃ new forkOwner defaultBranch sha contents,
    let w' :=
      fst (createPullRequest github TypeError_message formatFileSize
             env_GITHUB_TARGET_BRANCH timestamp w) in
    let sequence :=
      pull_request_sequence (target_branch env_GITHUB_TARGET_BRANCH)
        timestamp (submissionQueue w) forkOwner defaultBranch sha contents in
    requests w' = requests w ++ new
    ∧ localStorage w' = localStorage w
    ∧ length contents = length (item ← submissionQueue w; files item)
    ∧ new `prefix_of` sequence
    ∧ ((new = sequence
        ∧ all_answered github (requests w) new
        ∧ submissionQueue w' = []
        ∧ status w'
          = Some (lit "Pull Request created successfully!", success)
        ∧ answers_used github (requests w) timestamp (submissionQueue w)
            forkOwner defaultBranch sha contents)
       ∨ (∃ e,
            status w'
              = Some (lit "Error creating Pull Request: "
                        ++ message TypeError_message e, error)
            ∧ submissionQueue w' = submissionQueue w
            ∧ ((octokit w = None ∧ new = [] ∧ e = TypeError)
               ∨ (∃ pre c, new = pre ++ [c]
                    ∧ all_answered github (requests w) pre
                    ∧ github (requests w ++ pre) c = Rejected e)))).
Proof.
  intros Hne Hsizes. unfold createPullRequest.
  rewrite decide_False by (by destruct (submissionQueue w)).
  rewrite M_bind_run, validate_sizes_pass by done.
  cbn [negb]. unfold try_catch.
  set (allFiles := item ← submissionQueue w; files item).
  set (branchName := lit "add/submission-batch-" ++ timestamp).
  set (w0 := showStatus (lit "Creating Pull Request...") info w).
  rewrite M_bind_run.
  change (modify (showStatus (lit "Creating Pull Request...") info) w)
    with (w0, Resolved ()).
  cbv beta iota. rewrite M_bind_run.
  destruct (octokit w) as [o|] eqn:Ho.
  2:{ rewrite (octokit_call_unauthenticated _ w0) by done.
      exists [], [], [], [], (replicate (length allFiles) []).
      simpl. rewrite app_nil_r, length_replicate.
      do 3 (split; [done|]). split; [apply prefix_nil|].
      right. exists TypeError. split; [done|]. split; [done|]. by left. }
  set (fork := ReposCreateFork GITHUB_REPO_OWNER GITHUB_REPO_NAME).
  set (get := ReposGet GITHUB_REPO_OWNER GITHUB_REPO_NAME).
  rewrite (octokit_call_authenticated _ w0 o) by done.
  change (requests w0) with (requests w).
  destruct (github (requests w) fork) as [forkOwner|e] eqn:Hfork.
  2:{ exists [fork], [], [], [], (replicate (length allFiles) []).
      simpl. rewrite length_replicate.
      do 3 (split; [done|]). split; [by eexists|].
      right. exists e. split; [done|]. split; [done|]. right.
      exists [], fork. rewrite app_nil_r. done. }
  rewrite M_bind_run.
  rewrite (octokit_call_authenticated _ _ o) by done.
  cbn [requests set_requests].
  destruct (github (requests w ++ [fork]) get) as [defaultBranch|e] eqn:Hget.
  2:{ exists [fork; get], forkOwner, [], [], (replicate (length allFiles) []).
      simpl. rewrite length_replicate, <- app_assoc.
      do 3 (split; [done|]). split; [by eexists|].
      right. exists e. split; [done|]. split; [done|]. right.
      exists [fork], get. simpl. eauto 10. }
  set (getRef := GitGetRef forkOwner GITHUB_REPO_NAME
                   (lit "heads/" ++ defaultBranch)).
  rewrite M_bind_run.
  rewrite (octokit_call_authenticated _ _ o) by done.
  cbn [requests set_requests].
  destruct (github ((requests w ++ [fork]) ++ [get]) getRef)
    as [sha|e] eqn:HgetRef.
  2:{ exists [fork; get; getRef], forkOwner, defaultBranch, [],
        (replicate (length allFiles) []).
      simpl. rewrite length_replicate, <- !app_assoc.
      do 3 (split; [done|]). split; [by eexists|].
      right. exists e. split; [done|]. split; [done|]. right.
      exists [fork; get], getRef. rewrite <- app_assoc in HgetRef.
      simpl. eauto 10. }
  set (createRef := GitCreateRef forkOwner GITHUB_REPO_NAME
                      (lit "refs/heads/" ++ branchName) sha).
  rewrite <- !app_assoc in *. cbn [app] in *.
  rewrite !set_requests_twice.
  rewrite M_bind_run.
  rewrite (octokit_call_authenticated _ _ o) by done.
  cbn [requests set_requests]. rewrite set_requests_twice.
  destruct (github (requests w ++ [fork; get; getRef]) createRef)
    as [created|e] eqn:HcreateRef.
  2:{ exists [fork; get; getRef; createRef], forkOwner, defaultBranch, sha,
        (replicate (length allFiles) []).
      simpl. rewrite length_replicate, <- !app_assoc.
      do 3 (split; [done|]). split; [by eexists|].
      right. exists e. split; [done|]. split; [done|]. right.
      exists [fork; get; getRef], createRef.
      simpl. rewrite <- !app_assoc. simpl. eauto 10. }
  rewrite <- !app_assoc. cbn [app].
  rewrite M_bind_run.
  set (w4 := set_requests (requests w ++ [fork; get; getRef; createRef]) w0).
  destruct (commit_files_spec forkOwner branchName allFiles w4 o)
    as (commits & contents & r & Hrun & Hlen & Hpre & Hres); [done|].
  rewrite Hrun. subst w4. cbn [requests set_requests].
  rewrite set_requests_twice, <- app_assoc. cbn [app].
  assert (all_answered github (requests w) [fork; get; getRef; createRef])
    as Hfirst.
  { simpl. rewrite <- !app_assoc. simpl. eauto 10. }
  match goal with
  | |- context [PullsCreate ?a ?b ?c ?d ?e ?f] =>
      set (pr := PullsCreate a b c d e f)
  end.
  destruct Hres
    as [(-> & -> & Hans & Hread)|(e & pre & c & -> & -> & Hans & Hfail)].
  2:{ exists ([fork; get; getRef; createRef] ++ pre ++ [c]),
        forkOwner, defaultBranch, sha, contents.
      simpl. do 3 (split; [done|]). split.
      { destruct Hpre as [k Hk]. unfold pull_request_sequence.
        fold branchName allFiles fork get getRef createRef. rewrite Hk.
        eexists (k ++ [_]). rewrite <- !app_assoc. simpl.
        by rewrite <- !app_assoc. }
      right. exists e. split; [done|]. split; [done|]. right.
      exists ([fork; get; getRef; createRef] ++ pre), c.
      split; [done|]. split.
      - apply all_answered_app. done.
      - by rewrite app_assoc. }
  set (commits := commit_requests forkOwner branchName allFiles contents)
    in *.
  rewrite M_bind_run.
  rewrite (octokit_call_authenticated _ _ o) by done.
  cbn [requests set_requests]. rewrite set_requests_twice.
  destruct (github _ pr) as [opened|e] eqn:Hpr.
  - exists ([fork; get; getRef; createRef] ++ commits ++ [pr]),
      forkOwner, defaultBranch, sha, contents.
    simpl. rewrite <- !app_assoc. simpl.
    do 3 (split; [done|]). split; [done|]. left.
    split; [done|]. split; [|split; [done|split; [done|]]].
    + simpl in Hfirst, Hans. rewrite <- !app_assoc in Hfirst. simpl in Hfirst.
      destruct Hfirst as (F1 & F2 & F3 & F4 & _).
      do 4 (split; [done|]).
      apply all_answered_app. split; [done|].
      simpl. rewrite <- app_assoc. simpl. eauto.
    + unfold answers_used. fold branchName allFiles fork get getRef createRef.
      done.
  - exists ([fork; get; getRef; createRef] ++ commits ++ [pr]),
      forkOwner, defaultBranch, sha, contents.
    simpl. rewrite <- !app_assoc. simpl.
    do 3 (split; [done|]). split; [done|]. right.
    exists e. split; [done|]. split; [done|]. right.
    exists ([fork; get; getRef; createRef] ++ commits), pr.
    split; [done|]. split; [|done].
    apply (proj2 (all_answered_app github (requests w)
                    [fork; get; getRef; createRef] commits)).
    done.
Qed.

Lemma createPullRequest_unauthenticated timestamp w :
  submissionQueue w ≠ [] →
  sizes_pass (submissionQueue w) →
  octokit w = None →
  let w' :=
    fst (createPullRequest github TypeError_message formatFileSize
           env_GITHUB_TARGET_BRANCH timestamp w) in
  requests w' = requests w
  ∧ status w'
    = Some (lit "Error creating Pull Request: "
              ++ message TypeError_message TypeError, error)
  ∧ submissionQueue w' = submissionQueue w.
Proof.
  intros Hne Hsizes Ho. unfold createPullRequest.
  rewrite decide_False by (by destruct (submissionQueue w)).
  rewrite M_bind_run, validate_sizes_pass by done.
  cbn [negb]. unfold try_catch. rewrite M_bind_run.
  set (w0 := showStatus (lit "Creating Pull Request...") info w).
  change (modify (showStatus (lit "Creating Pull Request...") info) w)
    with (w0, Resolved ()).
  cbv beta iota. rewrite M_bind_run.
  by rewrite (octokit_call_unauthenticated _ w0).
Qed.

End PullRequestFacts.

#[local] Transparent lit GITHUB_REPO_OWNER GITHUB_REPO_NAME.

Lemma commit_requests_observed forkOwner branchName allFiles : ∀ contents,
  length contents = length allFiles →
  omap fork_created (commit_requests forkOwner branchName allFiles contents)
    = []
  ∧ omap branch_created
      (commit_requests forkOwner branchName allFiles contents) = []
  ∧ omap pull_opened (commit_requests forkOwner branchName allFiles contents)
    = []
  ∧ omap file_committed
      (commit_requests forkOwner branchName allFiles contents)
    = (λ qf, (forkOwner, branchName, desiredPath qf)) <$> allFiles.
Proof.
  induction allFiles as [|qf rest IH]; intros [|content contents] Hlen;
    try done.
  destruct (IH contents) as (Hf & Hb & Hp & Hc); [by simplify_eq/=|].
  change (commit_requests forkOwner branchName (qf :: rest)
            (content :: contents))
    with (file_requests forkOwner branchName qf content
            ++ commit_requests forkOwner branchName rest contents).
  rewrite !omap_app, Hf, Hb, Hp, Hc. done.
Qed.


(** C4. When the queue is not empty, every queued file passes its size
    check, the client is authenticated and no request of the run is
    rejected, [createPullRequest] issues exactly the pull-request sequence:
    one fork; one new branch, created on the fork that the fork request
    answered with, from the sha of its default branch; every file of every
    queued item read and committed to that branch of the fork at the
    file's [desiredPath], one commit per file; and one pull request whose
    head is that branch of the fork and whose base is
    [GITHUB_TARGET_BRANCH]: the value of the environment variable, or
    ['main'] when the variable is unset or empty. The queue is empty
    afterwards and the success is shown. *)
Theorem createPullRequest_one_pull_request
    (github : list ApiCall → ApiCall → Settled jsstring)
    (TypeError_message : jsstring) (formatFileSize : JsNumber → jsstring)
    (env_GITHUB_TARGET_BRANCH : option jsstring) (timestamp : jsstring)
    (w : World) :
  let w' :=
    fst (createPullRequest github TypeError_message formatFileSize
           env_GITHUB_TARGET_BRANCH timestamp w) in
  let branchName := lit "add/submission-batch-" ++ timestamp in
  let allFiles := item ← submissionQueue w; files item in
  let fork := ReposCreateFork GITHUB_REPO_OWNER GITHUB_REPO_NAME in
  let get := ReposGet GITHUB_REPO_OWNER GITHUB_REPO_NAME in
  submissionQueue w ≠ [] →
  sizes_pass (submissionQueue w) →
  octokit w ≠ None →
  every_request_answered github w w' →
  ∃ forkOwner defaultBranch sha contents base new,
    github (requests w) fork = Resolved forkOwner
    ∧ github (requests w ++ [fork]) get = Resolved defaultBranch
    ∧ github (requests w ++ [fork; get])
        (GitGetRef forkOwner GITHUB_REPO_NAME (lit "heads/" ++ defaultBranch))
      = Resolved sha
    ∧ contents_read github
        (requests w
           ++ [fork; get;
               GitGetRef forkOwner GITHUB_REPO_NAME
                 (lit "heads/" ++ defaultBranch);
               GitCreateRef forkOwner GITHUB_REPO_NAME
                 (lit "refs/heads/" ++ branchName) sha])
        forkOwner branchName allFiles contents
    ∧ (env_GITHUB_TARGET_BRANCH = None ∨ env_GITHUB_TARGET_BRANCH = Some [] →
       base = lit "main")
    ∧ (∀ b, env_GITHUB_TARGET_BRANCH = Some b → b ≠ [] → base = b)
    ∧ requests w' = requests w ++ new
    ∧ new
      = pull_request_sequence base timestamp (submissionQueue w) forkOwner
          defaultBranch sha contents
    ∧ omap fork_created new = [(GITHUB_REPO_OWNER, GITHUB_REPO_NAME)]
    ∧ omap branch_created new
      = [(forkOwner, lit "refs/heads/" ++ branchName)]
    ∧ omap file_committed new
      = (λ qf, (forkOwner, branchName, desiredPath qf)) <$> allFiles
    ∧ omap pull_opened new = [(forkOwner ++ lit ":" ++ branchName, base)]
    ∧ submissionQueue w' = []
    ∧ status w' = Some (lit "Pull Request created successfully!", success).
Proof.
  cbv zeta. intros Hne Hsizes Hauth Hanswered.
  destruct (createPullRequest_runs github TypeError_message formatFileSize
              env_GITHUB_TARGET_BRANCH timestamp w Hne Hsizes)
    as (new & forkOwner & defaultBranch & sha & contents & Hrun).
  cbv zeta in Hrun. destruct Hrun as (Hreq & _ & Hlen & _ & Hcases).
  destruct Hcases
    as [(-> & _ & Hqueue & Hstatus & Hfork & Hget & HgetRef & Hread)
       |(e & _ & _ & Hfail)].
  2:{ destruct Hfail as [(Hnone & _)|(pre & c & -> & _ & Hrej)]; [done|].
      destruct (Hanswered pre c []) as [s Hs]; [done|congruence]. }
  exists forkOwner, defaultBranch, sha, contents,
    (target_branch env_GITHUB_TARGET_BRANCH),
    (pull_request_sequence (target_branch env_GITHUB_TARGET_BRANCH) timestamp
       (submissionQueue w) forkOwner defaultBranch sha contents).
  do 4 (split; [done|]). split.
  { intros [-> | ->]; reflexivity. }
  split.
  { intros b -> Hb. unfold target_branch, string_truthy.
    by rewrite bool_decide_eq_false_2. }
  split; [exact Hreq|]. split; [reflexivity|].
  destruct (commit_requests_observed forkOwner
              (lit "add/submission-batch-" ++ timestamp)
              (item ← submissionQueue w; files item) contents Hlen)
    as (Hf & Hb & Hp & Hc).
  unfold pull_request_sequence.
  rewrite !omap_app, Hf, Hb, Hp, Hc. simpl.
  by rewrite !app_nil_r.
Qed.

(** The claim without the proviso fails: when a request of the sequence is
    rejected, the run ends there. On the sample queue, with a service that
    rejects the second request, no branch is created, no file committed and
    no pull request opened. *)
Lemma createPullRequest_stops_at_failure :
  submissionQueue sample_queued ≠ []
  ∧ sizes_pass (submissionQueue sample_queued)
  ∧ requests
      (fst (createPullRequest github_second_fails [] formatFileSize_sample
              None sample_timestamp sample_queued))
    = [ReposCreateFork GITHUB_REPO_OWNER GITHUB_REPO_NAME;
       ReposGet GITHUB_REPO_OWNER GITHUB_REPO_NAME]
  ∧ omap branch_created
      (requests
         (fst (createPullRequest github_second_fails [] formatFileSize_sample
                 None sample_timestamp sample_queued))) = []
  ∧ omap file_committed
      (requests
         (fst (createPullRequest github_second_fails [] formatFileSize_sample
                 None sample_timestamp sample_queued))) = []
  ∧ omap pull_opened
      (requests
         (fst (createPullRequest github_second_fails [] formatFileSize_sample
                 None sample_timestamp sample_queued))) = [].
Proof.
  split; [vm_compute; discriminate|].
  split; [vm_compute; repeat constructor|].
  repeat split; vm_compute; reflexivity.
Qed.


(** ** Persistent storage *)

Lemma storage_frame_trans w1 w2 w3 :
  storage_frame w1 w2 → storage_frame w2 w3 → storage_frame w1 w3.
Proof. intros H12 H23 k Hk. by rewrite H23, H12. Qed.

Lemma storage_frame_same w w' :
  localStorage w' = localStorage w → storage_frame w w'.
Proof. intros H k _. by rewrite H. Qed.

Lemma storage_same_trans w1 w2 w3 :
  storage_same w1 w2 → storage_same w2 w3 → storage_same w1 w3.
Proof. unfold storage_same. congruence. Qed.

Section Preservation.

(** A relation between the state before and the state after that holds
    whenever the storage is left alone, and composes. *)
Variable R : World → World → Prop.
Hypothesis R_same : ∀ w w', localStorage w' = localStorage w → R w w'.
Hypothesis R_trans : ∀ w1 w2 w3, R w1 w2 → R w2 w3 → R w1 w3.

Variable github : list ApiCall → ApiCall → Settled jsstring.
Variable github_content : list ApiCall → Settled JsValue.
Variable callback_fetch : list ApiCall → jsstring → Settled HttpReply.
Variable atob : jsstring → option jsstring.
Variable JSON_parse : jsstring → option JsValue.
Variable ToString_other : option JsValue → jsstring.
Variable TypeError_message : jsstring.
Variable toLowerCase : jsstring → jsstring.
Variable formatFileSize : JsNumber → jsstring.
Variable env_GITHUB_TARGET_BRANCH : option jsstring.

Lemma preserves_untouched {A} (m : M A) :
  (∀ w, localStorage (fst (m w)) = localStorage w) → preserves R m.
Proof. intros H w. by apply R_same. Qed.

Lemma preserves_ret {A} (x : A) : preserves R (mret x).
Proof. by apply preserves_untouched. Qed.

Lemma preserves_settle {A} (r : Settled A) : preserves R (settle r).
Proof. by apply preserves_untouched. Qed.

Lemma preserves_throw {A} (e : Exn) : preserves R (throw (A := A) e).
Proof. by apply preserves_untouched. Qed.

Lemma preserves_modify (f : World → World) :
  (∀ w, R w (f w)) → preserves R (modify f).
Proof. intros H w. apply H. Qed.

Lemma preserves_bind {A B} (m : M A) (k : A → M B) :
  preserves R m → (∀ x, preserves R (k x)) → preserves R (m ≫= k).
Proof.
  intros Hm Hk w. rewrite M_bind_run. specialize (Hm w).
  destruct (m w) as [w' [x|e]]; simpl in *; [|done].
  eapply R_trans; [done|apply Hk].
Qed.

Lemma preserves_try_catch {A} (body : M A) (handler : Exn → M A) :
  preserves R body → (∀ e, preserves R (handler e)) →
  preserves R (try_catch body handler).
Proof.
  intros Hb Hh w. unfold try_catch. specialize (Hb w).
  destruct (body w) as [w' [x|e]]; simpl in *; [done|].
  eapply R_trans; [done|apply Hh].
Qed.

Lemma preserves_or_throw {A} (r : option A) e : preserves R (or_throw r e).
Proof. destruct r; [apply preserves_ret|apply preserves_throw]. Qed.

Lemma preserves_perform c : preserves R (perform github c).
Proof. by apply preserves_untouched. Qed.

Lemma preserves_octokit_call c : preserves R (octokit_call github c).
Proof.
  apply preserves_untouched. intros w. unfold octokit_call.
  by destruct (octokit w).
Qed.

Lemma preserves_get_content : preserves R (get_content github_content).
Proof.
  apply preserves_untouched. intros w. unfold get_content.
  by destruct (octokit w).
Qed.

(** Steps that follow [preserves] through a computation. *)
Ltac preserves_step :=
  first
    [ apply preserves_ret | apply preserves_settle | apply preserves_throw
    | apply preserves_or_throw | apply preserves_perform
    | apply preserves_octokit_call | apply preserves_get_content
    | apply preserves_modify; intros ?; by apply R_same
    | apply preserves_bind; [|intros ?]
    | apply preserves_try_catch; [|intros ?]
    | case_match ].

Lemma preserves_fetchExistingContentList :
  preserves R
    (fetchExistingContentList github_content atob JSON_parse ToString_other).
Proof. unfold fetchExistingContentList. repeat preserves_step. Qed.

(** [checkAuth] with its [localStorage.removeItem] allowed for. *)
Lemma preserves_checkAuth :
  (∀ w, R w (set_localStorage (delete token_key (localStorage w)) w)) →
  preserves R
    (checkAuth github github_content atob JSON_parse ToString_other).
Proof.
  intros Hremove w. unfold checkAuth.
  destruct (localStorage w !! token_key) as [token|]; [|by apply R_same].
  destruct (string_truthy token); [|by apply R_same].
  revert w. apply preserves_try_catch.
  - repeat preserves_step.
  - intros e. apply preserves_bind; [|intros ?; repeat preserves_step].
    by apply preserves_modify.
Qed.

(** [handleCallback] with its [localStorage.setItem] allowed for. *)
Lemma preserves_handleCallback url_code :
  (∀ v w, R w (set_localStorage (<[token_key := v]> (localStorage w)) w)) →
  preserves R
    (handleCallback github_content callback_fetch atob JSON_parse
       ToString_other TypeError_message url_code).
Proof.
  intros Hstore.
  unfold handleCallback. destruct url_code as [code|]; [|apply preserves_ret].
  destruct (string_truthy code); simpl; [|apply preserves_ret].
  apply preserves_try_catch; [|intros ?; repeat preserves_step].
  apply preserves_bind; [repeat preserves_step|intros _].
  apply preserves_bind; [by apply preserves_untouched|intros response].
  apply preserves_bind; [repeat preserves_step|intros _].
  apply preserves_bind; [repeat preserves_step|intros data].
  apply preserves_bind; [repeat preserves_step|intros err].
  apply preserves_bind; [repeat preserves_step|intros _].
  apply preserves_bind; [repeat preserves_step|intros access_token].
  apply preserves_bind; [by apply preserves_modify|intros _].
  apply preserves_bind; [repeat preserves_step|intros _].
  apply preserves_bind; [apply preserves_fetchExistingContentList|intros _].
  repeat preserves_step.
Qed.

Lemma preserves_validate_sizes allFiles :
  preserves R (validate_sizes formatFileSize allFiles).
Proof.
  induction allFiles as [|qf rest IH]; [apply preserves_ret|].
  simpl. apply preserves_bind.
  - unfold validateFileSize. repeat preserves_step.
  - intros [|]; [done|apply preserves_ret].
Qed.

Lemma preserves_commit_files forkOwner branchName allFiles :
  preserves R (commit_files github forkOwner branchName allFiles).
Proof.
  induction allFiles as [|qf rest IH]; [apply preserves_ret|].
  simpl. repeat preserves_step. done.
Qed.

Lemma preserves_createPullRequest timestamp :
  preserves R
    (createPullRequest github TypeError_message formatFileSize
       env_GITHUB_TARGET_BRANCH timestamp).
Proof.
  intros w. unfold createPullRequest.
  destruct (decide (length (submissionQueue w) = 0%nat)); [by apply R_same|].
  apply preserves_bind; [apply preserves_validate_sizes|intros valid].
  destruct valid; simpl; [|apply preserves_ret].
  apply preserves_try_catch; [|intros ?; repeat preserves_step].
  apply preserves_bind; [repeat preserves_step|intros _].
  apply preserves_bind; [repeat preserves_step|intros forkOwner].
  apply preserves_bind; [repeat preserves_step|intros defaultBranch].
  apply preserves_bind; [repeat preserves_step|intros sha].
  apply preserves_bind; [repeat preserves_step|intros _].
  apply preserves_bind; [apply preserves_commit_files|intros _].
  repeat preserves_step.
Qed.

Lemma handleAddToQueue_storage f w :
  localStorage (fst (handleAddToQueue toLowerCase f w)) = localStorage w.
Proof.
  unfold handleAddToQueue.
  destruct (string_truthy (submission_type f)); simpl; [|done].
  destruct (build_item toLowerCase f w) as [[w0| | |] id] eqn:Hb; try done.
  by apply build_item_return in Hb as [msg ->].
Qed.

(** Every operation, with the two storage accesses of [initialize]
    allowed for. *)
Lemma run_preserves op w :
  ((∃ url_code, op = Initialize url_code) →
     (∀ w, R w (set_localStorage (delete token_key (localStorage w)) w))
     ∧ (∀ v w, R w (set_localStorage
                      (<[token_key := v]> (localStorage w)) w))) →
  R w (run github github_content callback_fetch atob JSON_parse
         ToString_other TypeError_message toLowerCase formatFileSize
         env_GITHUB_TARGET_BRANCH op w).
Proof.
  intros Hinit. destruct op; simpl.
  - destruct Hinit as [Hremove Hstore]; [by eexists|].
    revert w. unfold initialize.
    apply preserves_bind; [by apply preserves_checkAuth|intros _].
    by apply preserves_handleCallback.
  - by apply R_same.
  - revert w. unfold onSkinFileChange. repeat preserves_step.
  - revert w. unfold onCoverflowFileChange. repeat preserves_step.
  - apply R_same, handleAddToQueue_storage.
  - by apply R_same.
  - apply preserves_createPullRequest.
  - by apply R_same.
Qed.

End Preservation.

Section StorageAccess.

Variable github : list ApiCall → ApiCall → Settled jsstring.
Variable github_content : list ApiCall → Settled JsValue.
Variable callback_fetch : list ApiCall → jsstring → Settled HttpReply.
Variable atob : jsstring → option jsstring.
Variable JSON_parse : jsstring → option JsValue.
Variable ToString_other : option JsValue → jsstring.
Variable TypeError_message : jsstring.

#[local] Opaque lit.

Lemma fetchExistingContentList_storage w :
  localStorage
    (fst (fetchExistingContentList github_content atob JSON_parse
            ToString_other w))
  = localStorage w.
Proof.
  apply (preserves_fetchExistingContentList storage_same); [done|].
  apply storage_same_trans.
Qed.

Lemma handleCallback_stores w code reply data err access_token :
  string_truthy code = true →
  callback_fetch (requests w) code = Resolved reply →
  reply_ok reply = true →
  reply_json reply = Resolved data →
  get_prop data (lit "error") = Resolved err →
  truthy_opt err = false →
  get_prop data (lit "access_token") = Resolved access_token →
  localStorage
    (fst (handleCallback github_content callback_fetch atob JSON_parse
            ToString_other TypeError_message (Some code) w))
  = <[token_key := ToString ToString_other access_token]> (localStorage w).
Proof.
  intros Hcode Hfetch Hok Hjson Herr Hfalsy Htoken.
  unfold handleCallback. rewrite Hcode. cbn [negb].
  unfold try_catch, mbind, M_bind, mret, M_ret, modify, settle, throw.
  cbn -[insert]. rewrite Hfetch. cbn -[insert]. rewrite Hok. cbn -[insert].
  rewrite Hjson. cbn -[insert]. rewrite Herr. cbn -[insert].
  rewrite Hfalsy. cbn -[insert]. rewrite Htoken. cbn -[insert].
  match goal with
  | |- context [showUploadSection _ _ _ _ ?w3] =>
      pose proof (fetchExistingContentList_storage w3) as Hsame;
      unfold showUploadSection;
      destruct (fetchExistingContentList github_content atob JSON_parse
                  ToString_other w3) as [w4 [[]|e]]
  end; apply Hsame.
Qed.

Lemma checkAuth_removes w token e :
  localStorage w !! token_key = Some token →
  string_truthy token = true →
  github (requests w) UsersGetAuthenticated = Rejected e →
  localStorage
    (fst (checkAuth github github_content atob JSON_parse ToString_other w))
  = delete token_key (localStorage w).
Proof.
  intros Htoken Htruthy Hfail. unfold checkAuth. rewrite Htoken, Htruthy.
  unfold try_catch, mbind, M_bind, mret, M_ret, modify, octokit_call, perform.
  cbn -[delete]. by rewrite Hfail.
Qed.

Lemma checkAuth_keeps w token s :
  localStorage w !! token_key = Some token →
  string_truthy token = true →
  github (requests w) UsersGetAuthenticated = Resolved s →
  localStorage
    (fst (checkAuth github github_content atob JSON_parse ToString_other w))
  = localStorage w.
Proof.
  intros Htoken Htruthy Hok. unfold checkAuth. rewrite Htoken, Htruthy.
  unfold try_catch, mbind, M_bind, mret, M_ret, modify, octokit_call, perform.
  cbn -[delete]. rewrite Hok.
  match goal with
  | |- context [showUploadSection _ _ _ _ ?w3] =>
      pose proof (fetchExistingContentList_storage w3) as Hsame;
      unfold showUploadSection;
      destruct (fetchExistingContentList github_content atob JSON_parse
                  ToString_other w3) as [w4 [[]|e]] eqn:Hrun
  end; [apply Hsame|].
  exfalso. revert Hrun. unfold fetchExistingContentList, try_catch, modify.
  by case_match; case_match.
Qed.

(** A stored token that validation rejects: the key is removed and the page
    is loaded again. *)
Lemma checkAuth_rejected w token e :
  localStorage w !! token_key = Some token →
  string_truthy token = true →
  github (requests w) UsersGetAuthenticated = Rejected e →
  checkAuth github github_content atob JSON_parse ToString_other w
  = (set_requests (requests w ++ [UsersGetAuthenticated])
       (page_load (delete token_key (localStorage w))),
     Resolved true).
Proof.
  intros Hlookup Htoken Hfail. unfold checkAuth. rewrite Hlookup, Htoken.
  unfold try_catch, octokit_call, perform, mbind, M_bind, mret, M_ret, modify.
  cbn. by rewrite Hfail.
Qed.

(** A page loaded with a stale token and a code: [checkAuth] removes the
    key, and [handleCallback] then sets it to the token of the exchange. *)
Lemma initialize_replaces_token w token e code reply data err access_token :
  localStorage w !! token_key = Some token →
  string_truthy token = true →
  github (requests w) UsersGetAuthenticated = Rejected e →
  string_truthy code = true →
  callback_fetch (requests w ++ [UsersGetAuthenticated]) code
  = Resolved reply →
  reply_ok reply = true →
  reply_json reply = Resolved data →
  get_prop data (lit "error") = Resolved err →
  truthy_opt err = false →
  get_prop data (lit "access_token") = Resolved access_token →
  localStorage
    (fst (initialize github github_content callback_fetch atob JSON_parse
            ToString_other TypeError_message (Some code) w))
  = <[token_key := ToString ToString_other access_token]>
      (delete token_key (localStorage w)).
Proof.
  intros Hlookup Htoken Hfail Hcode Hfetch Hok Hjson Herr Hfalsy Haccess.
  unfold initialize. rewrite M_bind_run.
  rewrite (checkAuth_rejected w token e Hlookup Htoken Hfail).
  by rewrite (handleCallback_stores _ code reply data err access_token).
Qed.

End StorageAccess.

#[local] Transparent lit.

(** C7. The only key of the browser's persistent storage that the client
    ever writes or removes is ['github_token']. Over every sequence of
    operations the storage is the same at every other key; no operation
    other than [initialize], which runs [checkAuth] and [handleCallback],
    changes the storage at all; [handleCallback] stores the token under that
    key when the exchange succeeds; and [checkAuth] removes that key when
    the validation of the stored token fails. On a page loaded with a stale
    token and a code [initialize] does both: the key is removed and then
    set to the token of the exchange. *)
Theorem only_github_token_is_persisted
    (github : list ApiCall → ApiCall → Settled jsstring)
    (github_content : list ApiCall → Settled JsValue)
    (callback_fetch : list ApiCall → jsstring → Settled HttpReply)
    (atob : jsstring → option jsstring)
    (JSON_parse : jsstring → option JsValue)
    (ToString_other : option JsValue → jsstring)
    (TypeError_message : jsstring)
    (toLowerCase : jsstring → jsstring)
    (formatFileSize : JsNumber → jsstring)
    (env_GITHUB_TARGET_BRANCH : option jsstring) :
  let run :=
    run github github_content callback_fetch atob JSON_parse ToString_other
      TypeError_message toLowerCase formatFileSize env_GITHUB_TARGET_BRANCH in
  let run_all :=
    run_all github github_content callback_fetch atob JSON_parse
      ToString_other TypeError_message toLowerCase formatFileSize
      env_GITHUB_TARGET_BRANCH in
  (∀ ops w k, k ≠ lit "github_token" →
     localStorage (run_all ops w) !! k = localStorage w !! k)
  ∧ (∀ op w, (∀ url_code, op ≠ Initialize url_code) →
       localStorage (run op w) = localStorage w)
  ∧ (∀ w code reply data err access_token,
       string_truthy code = true →
       callback_fetch (requests w) code = Resolved reply →
       reply_ok reply = true →
       reply_json reply = Resolved data →
       get_prop data (lit "error") = Resolved err →
       truthy_opt err = false →
       get_prop data (lit "access_token") = Resolved access_token →
       localStorage
         (fst (handleCallback github_content callback_fetch atob JSON_parse
                 ToString_other TypeError_message (Some code) w))
       = <[lit "github_token" := ToString ToString_other access_token]>
           (localStorage w))
  ∧ (∀ w token e,
       localStorage w !! lit "github_token" = Some token →
       string_truthy token = true →
       github (requests w) UsersGetAuthenticated = Rejected e →
       localStorage
         (fst (checkAuth github github_content atob JSON_parse ToString_other
                 w))
       = delete (lit "github_token") (localStorage w))
  ∧ (∀ w token e code reply data err access_token,
       localStorage w !! lit "github_token" = Some token →
       string_truthy token = true →
       github (requests w) UsersGetAuthenticated = Rejected e →
       string_truthy code = true →
       callback_fetch (requests w ++ [UsersGetAuthenticated]) code
       = Resolved reply →
       reply_ok reply = true →
       reply_json reply = Resolved data →
       get_prop data (lit "error") = Resolved err →
       truthy_opt err = false →
       get_prop data (lit "access_token") = Resolved access_token →
       localStorage
         (fst (initialize github github_content callback_fetch atob
                 JSON_parse ToString_other TypeError_message (Some code) w))
       = <[lit "github_token" := ToString ToString_other access_token]>
           (delete (lit "github_token") (localStorage w))).
Proof.
  cbv zeta. split; [|split; [|split; [|split]]].
  - intros ops. induction ops as [|op ops IH]; intros w k Hk; [done|].
    simpl. rewrite IH by done.
    apply (run_preserves storage_frame storage_frame_same storage_frame_trans);
      [|done].
    intros _. split.
    + intros w0 k0 Hk0. simpl. by rewrite lookup_delete_ne.
    + intros v w0 k0 Hk0. simpl. by rewrite lookup_insert_ne.
  - intros op w Hop.
    apply (run_preserves storage_same (λ _ _ H, H) storage_same_trans).
    intros [url_code ->]. by destruct (Hop url_code).
  - apply handleCallback_stores.
  - apply checkAuth_removes.
  - apply initialize_replaces_token.
Qed.

(** ** The manifest *)

Lemma handleAddToQueue_not_duplicate toLowerCase f w w' r :
  handleAddToQueue toLowerCase f w = (w', r) →
  itemId r ≠ [] →
  some_id_equals (existingContentList w) (itemId r) = Resolved false →
  ∃ item, submissionQueue w' = submissionQueue w ++ [item]
          ∧ completion r = Resolved ().
Proof.
  unfold handleAddToQueue. intros H Hid Hsome.
  destruct (string_truthy (submission_type f)); simpl in H;
    [|by simplify_eq].
  destruct (build_item toLowerCase f w) as [br id] eqn:Hb.
  assert (itemId r = id) as Hr by (destruct br; by simplify_eq).
  rewrite Hr in *. clear Hr.
  pose proof (build_item_checked _ _ _ _ _ Hb Hid) as Hc.
  rewrite Hsome in Hc. destruct Hc as [d ->]. simplify_eq. simpl. eauto.
Qed.

Section ManifestFacts.

Variable github_content : list ApiCall → Settled JsValue.
Variable atob : jsstring → option jsstring.
Variable JSON_parse : jsstring → option JsValue.
Variable ToString_other : option JsValue → jsstring.

#[local] Opaque lit.

Lemma has_prop_content fields s :
  lookup_field (lit "content") fields = Some (JStr s) →
  has_prop (lit "content") (JObj fields) = Resolved true.
Proof. intros H. simpl. rewrite H. by rewrite bool_decide_eq_true_2. Qed.

Lemma fetchExistingContentList_unusable w :
  octokit w = None
  ∨ manifest_unusable atob JSON_parse (github_content (requests w)) →
  existingContentList
    (fst (fetchExistingContentList github_content atob JSON_parse
            ToString_other w)) = [].
Proof.
  intros H. unfold fetchExistingContentList, get_content.
  unfold try_catch, mbind, M_bind, mret, M_ret, modify, settle, throw,
    or_throw.
  destruct (octokit w) as [o|]; [|done].
  destruct H as [H|H]; [done|].
  inversion H as [e He|fields s Hc Ha He|fields s content Hc Ha Hp He
                 |fields s content v Hc Ha Hp Hshape He]; clear H.
  - done.
  - rewrite (has_prop_content _ _ Hc). cbn -[has_prop]. rewrite Hc.
    cbn -[has_prop]. by rewrite Ha.
  - rewrite (has_prop_content _ _ Hc). cbn -[has_prop]. rewrite Hc.
    cbn -[has_prop]. rewrite Ha. cbn. by rewrite Hp.
  - rewrite (has_prop_content _ _ Hc). cbn -[has_prop]. rewrite Hc.
    cbn -[has_prop]. rewrite Ha. cbn. rewrite Hp. cbn.
    destruct v as [|b|x|t|elems|vfields]; cbn [typeof_object];
      rewrite ?andb_false_r; cbn; try done.
    destruct (lookup_field (lit "backgrounds") vfields)
      as [[| | | |backgrounds|]|] eqn:Hb; try done.
    cbn.
    destruct (lookup_field (lit "coverflows") vfields)
      as [[| | | |coverflows|]|] eqn:Hcf; try done.
    cbn.
    destruct (lookup_field (lit "skins") vfields)
      as [[| | | |skins|]|] eqn:Hs; try done.
    destruct Hshape. by exists vfields, backgrounds, coverflows, skins.
Qed.

End ManifestFacts.

#[local] Transparent lit.

(** C10. If fetching [repo/list.json] fails, or its content cannot be
    decoded, or the decoded content cannot be parsed, or the parsed value is
    not an object with [backgrounds], [coverflows] and [skins] arrays, then
    [fetchExistingContentList] leaves [existingContentList] empty. As long
    as the list stays that, the duplicate check finds no identifier in it,
    and every add operation that derives an identifier appends its item. *)
Theorem fetchExistingContentList_defaults_to_empty
    (github_content : list ApiCall → Settled JsValue)
    (atob : jsstring → option jsstring)
    (JSON_parse : jsstring → option JsValue)
    (ToString_other : option JsValue → jsstring)
    (toLowerCase : jsstring → jsstring) (w : World) :
  octokit w = None
  ∨ manifest_unusable atob JSON_parse (github_content (requests w)) →
  let w' :=
    fst (fetchExistingContentList github_content atob JSON_parse
           ToString_other w) in
  existingContentList w' = []
  ∧ ∀ later,
      existingContentList later = existingContentList w' →
      (∀ id, some_id_equals (existingContentList later) id = Resolved false)
      ∧ ∀ f w3 r,
          handleAddToQueue toLowerCase f later = (w3, r) →
          itemId r ≠ [] →
          ∃ item, submissionQueue w3 = submissionQueue later ++ [item]
                  ∧ completion r = Resolved ().
Proof.
  intros H. cbv zeta.
  rewrite (fetchExistingContentList_unusable github_content atob JSON_parse
             ToString_other w H).
  split; [done|]. intros later Hlater. split.
  - intros id. by rewrite Hlater.
  - intros f w3 r Hrun Hid.
    apply (handleAddToQueue_not_duplicate toLowerCase f later w3 r Hrun Hid).
    by rewrite Hlater.
Qed.

(** ** The OAuth callback endpoint *)

Section EndpointFacts.

Variable env_GITHUB_CLIENT_ID : option jsstring.
Variable env_GITHUB_CLIENT_SECRET : option jsstring.
Variable upstream_fetch : jsstring → jsstring → JsValue → Settled HttpReply.
Variable ToString_other : option JsValue → jsstring.
Variable TypeError_message : jsstring.

#[local] Opaque lit.

(** The [try] block returns only the 200 response, and only with a
    granted token. *)
Lemma exchange_resolved id secret code response :
  exchange upstream_fetch ToString_other id secret code = Resolved response →
  ∃ token,
    token_granted (upstream_fetch id secret code) token
    ∧ response = {| status_code := 200;
                    payload := JObj [(lit "access_token", token)] |}.
Proof.
  unfold exchange, token_granted, mbind, Settled_bind. intros H.
  destruct (upstream_fetch id secret code) as [reply|] eqn:Hup; [|done].
  destruct (reply_ok reply) eqn:Hok; simpl in H.
  2:{ by destruct (reply_text reply). }
  destruct (reply_json reply) as [data|] eqn:Hjson; [|done].
  destruct (get_prop data (lit "error")) as [err|] eqn:Herr; [|done].
  destruct (truthy_opt err); simpl in H.
  { by destruct (get_prop data (lit "error_description")). }
  destruct (get_prop data (lit "access_token")) as [[token|]|] eqn:Htok;
    try done.
  destruct (truthy token) eqn:Htruthy; [|done].
  simplify_eq. exists token. split; [|done]. by exists reply, data.
Qed.

Lemma string_truthy_true s : string_truthy s = true ↔ s ≠ [].
Proof.
  unfold string_truthy. rewrite negb_true_iff, bool_decide_eq_false. done.
Qed.

End EndpointFacts.

(** The statuses of the endpoint on requests that have a body. For every
    request to the OAuth callback
    endpoint: it responds 405 when the method is not POST; for a POST whose
    body is there (not [undefined], not [null]) it responds 400 when the
    body has no code; with a code it responds 500 when the server
    credentials are not both set, and with the credentials set it responds
    200 or 500, and 500 whenever GitHub's response is not an ok response
    containing an access token. It responds 200 only to a POST with a code,
    the credentials set and an ok response of GitHub containing an access
    token, and the body of the 200 response holds exactly that access
    token. *)
Theorem github_callback_statuses
    (env_GITHUB_CLIENT_ID env_GITHUB_CLIENT_SECRET : option jsstring)
    (upstream_fetch : jsstring → jsstring → JsValue → Settled HttpReply)
    (ToString_other : option JsValue → jsstring)
    (TypeError_message : jsstring) (request : Request) :
  let respond :=
    github_callback env_GITHUB_CLIENT_ID env_GITHUB_CLIENT_SECRET
      upstream_fetch ToString_other TypeError_message request in
  (method request ≠ lit "POST" → responds respond 405)
  ∧ (∀ b code,
       method request = lit "POST" → body request = Some b → b ≠ JNull →
       get_prop b (lit "code") = Resolved code →
       (truthy_opt code = false → responds respond 400)
       ∧ (truthy_opt code = true →
          ((∀ id secret,
              ¬ credentials_set env_GITHUB_CLIENT_ID
                  env_GITHUB_CLIENT_SECRET id secret) →
           responds respond 500)
          ∧ ∀ id secret c,
              credentials_set env_GITHUB_CLIENT_ID env_GITHUB_CLIENT_SECRET
                id secret →
              code = Some c →
              (responds respond 200 ∨ responds respond 500)
              ∧ ((∀ token,
                    ¬ token_granted (upstream_fetch id secret c) token) →
                 responds respond 500)))
  ∧ (∀ p, respond = Resolved {| status_code := 200; payload := p |} →
       method request = lit "POST"
       ∧ ∃ id secret c token,
           credentials_set env_GITHUB_CLIENT_ID env_GITHUB_CLIENT_SECRET
             id secret
           ∧ get_prop_opt (body request) (lit "code") = Resolved (Some c)
           ∧ token_granted (upstream_fetch id secret c) token
           ∧ p = JObj [(lit "access_token", token)]).
Proof.
  cbv zeta. unfold github_callback, responds.
  split; [|split].
  - intros Hm. rewrite bool_decide_eq_false_2 by done. simpl. eauto.
  - intros b code Hm Hb Hnn Hcode.
    rewrite bool_decide_eq_true_2 by done. rewrite Hb. simpl.
    unfold mbind, Settled_bind. rewrite Hcode.
    split; [intros ->; simpl; eauto|].
    intros Hc. rewrite Hc. simpl. split.
    + intros Hno.
      destruct env_GITHUB_CLIENT_ID as [id|]; [|eauto].
      destruct env_GITHUB_CLIENT_SECRET as [secret|]; [|eauto].
      destruct code as [c|]; [|eauto].
      destruct (string_truthy id) eqn:Hid; [|simpl; eauto].
      destruct (string_truthy secret) eqn:Hsec; [|simpl; eauto].
      destruct (Hno id secret).
      by repeat split; try apply string_truthy_true.
    + intros id secret c (-> & -> & Hid & Hsec) ->.
      rewrite (proj2 (string_truthy_true id)) by done.
      rewrite (proj2 (string_truthy_true secret)) by done. simpl.
      destruct (exchange upstream_fetch ToString_other id secret c)
        as [response|e] eqn:Hex.
      * apply exchange_resolved in Hex as (token & Hgranted & ->).
        split; [eauto|]. intros Hno. by destruct (Hno token).
      * split; eauto.
  - intros p H.
    destruct (bool_decide (method request = lit "POST")) eqn:Hm;
      simpl in H; [|done].
    apply bool_decide_eq_true in Hm. split; [done|].
    unfold mbind, Settled_bind in H.
    destruct (get_prop_opt (body request) (lit "code")) as [code|];
      [|done].
    destruct (truthy_opt code) eqn:Hc; simpl in H; [|done].
    destruct env_GITHUB_CLIENT_ID as [id|]; [|done].
    destruct env_GITHUB_CLIENT_SECRET as [secret|]; [|done].
    destruct code as [c|]; [|done].
    destruct (string_truthy id) eqn:Hid; [|done].
    destruct (string_truthy secret) eqn:Hsec; [|done]. simpl in H.
    destruct (exchange upstream_fetch ToString_other id secret c)
      as [response|e] eqn:Hex; [|done].
    apply exchange_resolved in Hex as (token & Hgranted & ->).
    simplify_eq. exists id, secret, c, token.
    by repeat split; try apply string_truthy_true.
Qed.

#[local] Transparent lit.

(** ** Worked instances *)

Example indexOf_sample : indexOf sample_xzp_text metaver_marker = 2.
Proof. reflexivity. Qed.

Example scan_braces_sample :
  scan_braces sample_xzp_text 2
  = Some (26, seq 2 25).
Proof. vm_compute. reflexivity. Qed.

Example parseXzpMetadata_sample :
  parseXzpMetadata echo_parse (Loaded sample_xzp_text)
  = Some (Resolved (JStr (take 25 (drop 2 sample_xzp_text)))).
Proof. vm_compute. reflexivity. Qed.

Example parseXzpMetadata_no_marker :
  parseXzpMetadata echo_parse (Loaded (lit "{}"))
  = Some (Rejected (Error (lit "Could not find metadata block in skin file."))).
Proof. vm_compute. reflexivity. Qed.

Example parseXzpMetadata_no_end :
  parseXzpMetadata echo_parse (Loaded (metaver_marker ++ lit ":{}"))
  = Some (Rejected
            (Error (lit "Could not find the end of the metadata block."))).
Proof. vm_compute. reflexivity. Qed.

Example sanitize_sample :
  sanitize toLowerCase_ascii (lit "Night Sky_2!") = lit "nightsky2".
Proof. vm_compute. reflexivity. Qed.

Example handleAddToQueue_sample :
  itemId (snd (handleAddToQueue toLowerCase_ascii sample_background_form
                 (sample_world [])))
  = lit "bg.ann01.nightsky"
  ∧ (desiredPath <$> (submissionQueue sample_queued ≫= files))
    = [lit "repo/backgrounds/bg.ann01.nightsky.jpg"].
Proof. vm_compute. split; reflexivity. Qed.

Lemma handleAddToQueue_canonical_id_witness :
  (itemId (snd (handleAddToQueue toLowerCase_ascii sample_background_form
                  (sample_world [])))
   = lit "bg.ann01.nightsky"
   ∧ ∃ item,
       submissionQueue
         (fst (handleAddToQueue toLowerCase_ascii sample_background_form
                 (sample_world [])))
       = submissionQueue (sample_world []) ++ [item]
       ∧ name item = lit "Night Sky" ∧ author item = lit "Ann-01")
  ∧ (itemId (snd (handleAddToQueue toLowerCase_ascii sample_skin_form
                    sample_skin_world))
     = lit "skin.ann01.aurorablue"
     ∧ ∃ item,
         submissionQueue
           (fst (handleAddToQueue toLowerCase_ascii sample_skin_form
                   sample_skin_world))
         = submissionQueue sample_skin_world ++ [item]
         ∧ name item = lit "Aurora Blue" ∧ author item = lit "Ann-01"
         ∧ metadata item = Some sample_skin_metadata)
  ∧ (itemId (snd (handleAddToQueue toLowerCase_ascii sample_coverflow_form
                    sample_coverflow_world))
     = lit "cf.ann.flow"
     ∧ ∃ item,
         submissionQueue
           (fst (handleAddToQueue toLowerCase_ascii sample_coverflow_form
                   sample_coverflow_world))
         = submissionQueue sample_coverflow_world ++ [item]
         ∧ name item = lit "Flow" ∧ author item = lit "Ann"
         ∧ metadata item = Some sample_coverflow_info).
Proof.
  split; [|split].
  - destruct (handleAddToQueue_canonical_id toLowerCase_ascii
                sample_background_form (sample_world []))
      as (_ & Hbackground & _).
    destruct Hbackground as [Hid Hadded];
      [reflexivity|discriminate|discriminate|discriminate|].
    split; [rewrite Hid; vm_compute; reflexivity|].
    apply Hadded. vm_compute. reflexivity.
  - destruct (handleAddToQueue_canonical_id toLowerCase_ascii
                sample_skin_form sample_skin_world) as (_ & _ & Hskin & _).
    destruct (Hskin (lit "Aurora Blue") (lit "Ann-01")) as [Hid Hadded];
      [reflexivity|discriminate|discriminate|discriminate
      |vm_compute; reflexivity|vm_compute; reflexivity|].
    split; [rewrite Hid; vm_compute; reflexivity|].
    apply Hadded. vm_compute. reflexivity.
  - destruct (handleAddToQueue_canonical_id toLowerCase_ascii
                sample_coverflow_form sample_coverflow_world)
      as (_ & _ & _ & Hcoverflow).
    destruct (Hcoverflow (lit "Flow") (lit "Ann")) as [Hid Hadded];
      [reflexivity|discriminate|discriminate
      |vm_compute; reflexivity|vm_compute; reflexivity|].
    split; [rewrite Hid; vm_compute; reflexivity|].
    apply Hadded. vm_compute. reflexivity.
Defined.



Lemma handleAddToQueue_ignores_queue_witness :
  ∃ w2 item1 item2,
    fst (handleAddToQueue toLowerCase_ascii sample_background_form
           sample_queued) = w2
    ∧ submissionQueue w2 = [item1; item2]
    ∧ desiredPath <$> files item2 = desiredPath <$> files item1
    ∧ desiredPath <$> files item1
      = [lit "repo/backgrounds/bg.ann01.nightsky.jpg"].
Proof.
  destruct (handleAddToQueue_ignores_queue toLowerCase_ascii
              sample_background_form (sample_world [])) as [_ Hagain].
  destruct (Hagain sample_queued
              (snd (handleAddToQueue toLowerCase_ascii sample_background_form
                      (sample_world [])))
              _ ltac:(vm_compute; reflexivity) ltac:(vm_compute; reflexivity)
              sample_queued ltac:(left; split; reflexivity))
    as (_ & w2 & r2 & item2 & Hrun & _ & _ & Hq & _ & Hpaths & _).
  exists w2. do 2 eexists. split; [by rewrite Hrun|].
  split; [exact Hq|]. split; [exact Hpaths|]. vm_compute. reflexivity.
Defined.

Lemma createPullRequest_one_pull_request_witness :
  ∃ new,
    requests
      (fst (createPullRequest github_ok [] formatFileSize_sample None
              sample_timestamp sample_queued))
    = requests sample_queued ++ new
    ∧ omap branch_created new
      = [(lit "contributor",
          lit "refs/heads/add/submission-batch-20240101T000000000Z")]
    ∧ omap file_committed new
      = [(lit "contributor", lit "add/submission-batch-20240101T000000000Z",
          lit "repo/backgrounds/bg.ann01.nightsky.jpg")]
    ∧ omap pull_opened new
      = [(lit "contributor:add/submission-batch-20240101T000000000Z",
          lit "main")].
Proof.
  destruct (createPullRequest_one_pull_request github_ok []
              formatFileSize_sample None sample_timestamp sample_queued)
    as (forkOwner & defaultBranch & sha & contents & base & new & Hfork & _
        & _ & _ & Hmain & _ & Hreq & _ & _ & Hbranch & Hfiles & Hpull & _).
  - vm_compute. discriminate.
  - vm_compute. repeat constructor.
  - vm_compute. discriminate.
  - intros pre c post _. destruct c; eexists; reflexivity.
  - exists new. rewrite (Hmain (or_introl eq_refl)) in Hpull.
    injection Hfork as <-.
    split; [exact Hreq|]. split; [exact Hbranch|]. split; [exact Hfiles|].
    exact Hpull.
Defined.


Lemma only_github_token_is_persisted_witness :
  localStorage
    (fst (checkAuth github_rejects_token content_unavailable atob_none
            echo_parse ToString_sample sample_stored))
  = ∅
  ∧ localStorage
      (fst (initialize github_rejects_token content_unavailable
              callback_grants atob_none echo_parse ToString_sample []
              (Some (lit "abc")) sample_stored))
    = <[lit "github_token" := lit "gho_1"]>
        (delete (lit "github_token") (localStorage sample_stored)).
Proof.
  destruct (only_github_token_is_persisted github_rejects_token
              content_unavailable callback_grants atob_none echo_parse
              ToString_sample [] toLowerCase_ascii formatFileSize_sample None)
    as (_ & _ & _ & Hremove & Hboth).
  split.
  - rewrite (Hremove sample_stored (lit "token")
               (Error (lit "Bad credentials"))
               ltac:(vm_compute; reflexivity) ltac:(vm_compute; reflexivity)
               ltac:(vm_compute; reflexivity)).
    vm_compute. reflexivity.
  - apply (Hboth sample_stored (lit "token") (Error (lit "Bad credentials"))
             (lit "abc")
             {| reply_ok := true; reply_status := lit "200";
                reply_text := Resolved [];
                reply_json :=
                  Resolved (JObj [(lit "access_token", JStr (lit "gho_1"))]) |}
             (JObj [(lit "access_token", JStr (lit "gho_1"))]) None
             (Some (JStr (lit "gho_1"))));
      vm_compute; reflexivity.
Defined.

Lemma fetchExistingContentList_defaults_to_empty_witness :
  existingContentList
    (fst (fetchExistingContentList content_unavailable atob_none echo_parse
            ToString_sample sample_duplicate_world))
  = []
  ∧ ∃ item,
      submissionQueue
        (fst (handleAddToQueue toLowerCase_ascii sample_background_form
                (fst (fetchExistingContentList content_unavailable atob_none
                        echo_parse ToString_sample sample_duplicate_world))))
      = [item].
Proof.
  pose (w := sample_duplicate_world).
  destruct (fetchExistingContentList_defaults_to_empty content_unavailable
              atob_none echo_parse ToString_sample toLowerCase_ascii w
              ltac:(right; vm_compute; constructor))
    as [Hempty Hlater].
  split; [exact Hempty|].
  destruct (Hlater _ eq_refl) as [_ Hadd].
  destruct (Hadd sample_background_form _ _
              ltac:(apply surjective_pairing)
              ltac:(vm_compute; discriminate)) as (item & Hq & _).
  exists item. exact Hq.
Defined.

Lemma github_callback_statuses_witness :
  responds
    (github_callback (Some (lit "id")) (Some (lit "secret")) upstream_offline
       ToString_sample []
       request_with_code)
    500
  ∧ responds
      (github_callback (Some (lit "id")) (Some (lit "secret")) upstream_offline
         ToString_sample []
         request_get)
      405.
Proof.
  split.
  - destruct (github_callback_statuses (Some (lit "id")) (Some (lit "secret"))
                upstream_offline ToString_sample [] request_with_code)
      as (_ & Hpost & _).
    destruct (Hpost (JObj [(lit "code", JStr (lit "abc"))])
                (Some (JStr (lit "abc")))
                eq_refl eq_refl ltac:(discriminate) eq_refl)
      as [_ Hcode].
    destruct (Hcode eq_refl) as [_ Hcreds].
    destruct (Hcreds (lit "id") (lit "secret") (JStr (lit "abc"))
                ltac:(repeat split; discriminate) eq_refl) as [_ Hfail].
    apply Hfail. intros token (reply & data & Hup & _). discriminate Hup.
  - destruct (github_callback_statuses (Some (lit "id")) (Some (lit "secret"))
                upstream_offline ToString_sample [] request_get)
      as (Hmethod & _).
    apply Hmethod. vm_compute. discriminate.
Defined.

(** C8. A POST without a body has no code, and the handler means to answer
    a request without a code with 400 and [Authorization code is missing].
    Yet it sends no 400 and no other response: [const { code } =
    request.body] stands before that guard and outside the [try] block, and
    throws a [TypeError] when the body is [undefined] (or [null]). *)
Lemma github_callback_without_body :
  method request_without_body = lit "POST"
  ∧ (∀ code,
       get_prop_opt (body request_without_body) (lit "code")
       ≠ Resolved (Some code))
  ∧ github_callback (Some (lit "id")) (Some (lit "secret")) upstream_offline
      ToString_sample [] request_without_body
    = Rejected TypeError
  ∧ ¬ responds
        (github_callback (Some (lit "id")) (Some (lit "secret"))
           upstream_offline ToString_sample [] request_without_body)
        400.
Proof.
  split; [reflexivity|]. split; [intros code; discriminate|].
  split; [vm_compute; reflexivity|].
  intros [p H]. vm_compute in H. discriminate H.
Qed.

(** ** Further properties of the metadata extractor *)

Lemma occurs_at_marker_lbrace text s :
  occurs_at metaver_marker text s → text !! s = Some lbrace.
Proof.
  intros [k Hk]. rewrite <- (Nat.add_0_r s), <- lookup_drop, Hk. done.
Qed.

Lemma brace_count_next text s j :
  (s ≤ j)%nat → (S j < length text)%nat →
  brace_count text s (S j) = count_brace text (S j) (brace_count text s j).
Proof.
  intros Hsj Hlt. rewrite brace_count_step by lia. unfold brace_count, segment.
  by replace (S j - s)%nat with (S (j - s)) by lia.
Qed.

Lemma brace_count_start text s :
  occurs_at metaver_marker text s → brace_count text s s = 1.
Proof.
  intros Hocc. pose proof (occurs_at_marker_lbrace _ _ Hocc) as Hl.
  rewrite brace_count_step.
  - rewrite Nat.sub_diag. unfold count_brace. by rewrite decide_True.
  - split; [done|]. by apply lookup_lt_Some in Hl.
Qed.

Lemma count_brace_cases text i n :
  count_brace text i n = n + 1
  ∨ (count_brace text i n = n - 1 ∧ text !! i = Some rbrace)
  ∨ count_brace text i n = n.
Proof. unfold count_brace. repeat case_decide; auto. Qed.

(** Before the first balanced index the count stays positive. *)
Lemma brace_count_positive text s e j :
  occurs_at metaver_marker text s →
  (∀ i, (s ≤ i < e)%nat → brace_count text s i ≠ 0) →
  (s ≤ j < e)%nat → (j < length text)%nat →
  0 < brace_count text s j.
Proof.
  intros Hocc Hnz [Hsj Hje] Hlen.
  induction j as [|j IH].
  - assert (s = 0%nat) as -> by lia. rewrite brace_count_start by done. lia.
  - destruct (decide (s = S j)) as [->|Hne].
    + rewrite brace_count_start by done. lia.
    + assert (0 < brace_count text s j) as Hprev by (apply IH; lia).
      assert (brace_count text s (S j) ≠ 0) as Hcur by (apply Hnz; lia).
      rewrite brace_count_next in Hcur |- * by lia.
      destruct (count_brace_cases text (S j) (brace_count text s j))
        as [H|[[H _]|H]]; lia.
Qed.

Lemma first_balanced_after_start text s e :
  occurs_at metaver_marker text s → first_balanced text s e → (s < e)%nat.
Proof.
  intros Hocc ((Hse & Hlt) & Hz & _).
  destruct (decide (s = e)) as [->|]; [|lia].
  rewrite brace_count_start in Hz by done. lia.
Qed.

Lemma first_balanced_closes text s e :
  occurs_at metaver_marker text s → first_balanced text s e →
  text !! e = Some rbrace.
Proof.
  intros Hocc Hfb.
  pose proof (first_balanced_after_start _ _ _ Hocc Hfb) as Hlt.
  destruct Hfb as ((Hse & Hlen) & Hz & Hnz).
  destruct e as [|e]; [lia|].
  assert (0 < brace_count text s e) as Hprev.
  { apply (brace_count_positive text s (S e)); [done|done|lia|lia]. }
  rewrite brace_count_next in Hz by lia.
  destruct (count_brace_cases text (S e) (brace_count text s e))
    as [H|[[H Hr]|H]]; [lia|done|lia].
Qed.

Lemma segment_length text s e :
  (s ≤ e < length text)%nat → length (segment text s e) = (S e - s)%nat.
Proof.
  intros H. unfold segment. rewrite length_take, length_drop. lia.
Qed.

Lemma segment_take text s e n :
  (n ≤ S e - s)%nat → take n (segment text s e) = take n (drop s text).
Proof. intros H. unfold segment. rewrite take_take. f_equal. lia. Qed.

Lemma segment_split text s e :
  (s ≤ e < length text)%nat →
  text = take s text ++ segment text s e ++ drop (S e) text.
Proof.
  intros H. unfold segment.
  rewrite <- (take_drop s text) at 1. f_equal.
  rewrite <- (take_drop (S e - s) (drop s text)) at 1. f_equal.
  rewrite drop_drop. f_equal. lia.
Qed.

Lemma marker_length : length metaver_marker = 10%nat.
Proof. reflexivity. Qed.

Lemma marker_balance n :
  (0 < n ≤ 10)%nat → brace_balance (take n metaver_marker) = 1.
Proof.
  intros H. do 11 (destruct n as [|n]; [try lia; try reflexivity|]). lia.
Qed.

(** The marker lies inside the block it opens. *)
Lemma first_balanced_past_marker text s e :
  occurs_at metaver_marker text s → first_balanced text s e →
  (s + 10 ≤ e)%nat.
Proof.
  intros Hocc Hfb. destruct (decide (s + 10 ≤ e)%nat) as [|Hshort]; [done|].
  pose proof (first_balanced_after_start _ _ _ Hocc Hfb) as Hlt.
  destruct Hfb as ((Hse & Hlen) & Hz & _).
  destruct Hocc as [k Hk]. unfold brace_count, segment in Hz.
  rewrite Hk, take_app_le in Hz by (rewrite marker_length; lia).
  rewrite marker_balance in Hz; lia.
Qed.

Lemma first_balanced_block text s e :
  first_occurrence metaver_marker text s → first_balanced text s e →
  metadata_block (segment text s e).
Proof.
  intros (Hocc & Hs & _) Hfb.
  pose proof (first_balanced_past_marker _ _ _ Hocc Hfb) as Hpast.
  pose proof (first_balanced_closes _ _ _ Hocc Hfb) as Hclose.
  destruct Hfb as ((Hse & Hlen) & Hz & Hnz).
  split; [|split; [|split]].
  - destruct Hocc as [k Hk]. unfold segment. rewrite Hk.
    rewrite take_app_ge by (rewrite marker_length; lia). by eexists.
  - rewrite last_lookup, segment_length by lia.
    unfold segment. rewrite lookup_take_lt, lookup_drop by lia.
    rewrite <- Hclose. f_equal. lia.
  - done.
  - intros n Hn. rewrite segment_length in Hn by lia.
    rewrite segment_take by lia.
    specialize (Hnz (s + n - 1)%nat ltac:(lia)).
    unfold brace_count, segment in Hnz.
    by replace (S (s + n - 1) - s)%nat with n in Hnz by lia.
Qed.

(** X1. Whenever [parseXzpMetadata] resolves, the value is [JSON.parse] of a
    metadata block that occurs in the text: a substring that starts with
    the marker, ends with a closing brace, and is the shortest initial
    part, from the marker on, with as many closing as opening braces. *)
Theorem parseXzpMetadata_parses_a_block
    (JSON_parse : jsstring → option JsValue) (text : jsstring)
    (metadata : JsValue) :
  parseXzpMetadata JSON_parse (Loaded text) = Some (Resolved metadata) →
  ∃ before block after,
    text = before ++ block ++ after
    ∧ metadata_block block
    ∧ (∀ j, (j < length before)%nat → ¬ occurs_at metaver_marker text j)
    ∧ JSON_parse block = Some metadata.
Proof.
  intros Hrun.
  destruct (parseXzpMetadata_onload_outcome JSON_parse text) as (r & Hr & Hout).
  simpl in Hrun. rewrite Hrun in Hr. injection Hr as <-.
  inversion Hout as [| | |s e m Hs He Hp]; subst.
  exists (take s text), (segment text s e), (drop (S e) text).
  split; [apply segment_split, He|]. split; [by apply first_balanced_block|].
  split; [|done].
  intros j Hj. apply Hs. rewrite length_take in Hj. lia.
Qed.

Lemma occurs_at_app_iff text tail j :
  (j + 10 ≤ length text)%nat →
  occurs_at metaver_marker (text ++ tail) j ↔ occurs_at metaver_marker text j.
Proof.
  intros Hj. unfold occurs_at. rewrite drop_app_le by lia. split.
  - intros [k Hk].
    exists (drop 10 (drop j text)).
    rewrite <- (take_drop 10 (drop j text)) at 1. f_equal.
    apply (f_equal (take 10)) in Hk.
    rewrite take_app_le in Hk by (rewrite length_drop; lia).
    rewrite Hk. by rewrite take_app_length'.
  - intros [k ->]. exists (k ++ tail). by rewrite <- app_assoc.
Qed.

Lemma first_occurrence_app text tail s :
  first_occurrence metaver_marker text s →
  first_occurrence metaver_marker (text ++ tail) s.
Proof.
  intros (Hocc & Hs & Hmin).
  assert (s + 10 ≤ length text)%nat as Hfit.
  { destruct Hocc as [k Hk]. apply (f_equal length) in Hk.
    rewrite length_drop, length_app, marker_length in Hk. lia. }
  split; [by apply occurs_at_app_iff|]. split.
  - rewrite length_app. lia.
  - intros j Hj Hocc'. apply (Hmin j Hj).
    apply (occurs_at_app_iff text tail j); [lia|done].
Qed.

Lemma segment_app text tail s e :
  (s ≤ e < length text)%nat → segment (text ++ tail) s e = segment text s e.
Proof.
  intros H. unfold segment. rewrite drop_app_le by lia.
  rewrite take_app_le; [done|]. rewrite length_drop. lia.
Qed.

Lemma first_balanced_app text tail s e :
  first_balanced text s e → first_balanced (text ++ tail) s e.
Proof.
  intros ((Hse & Hlen) & Hz & Hnz). split; [|split].
  - rewrite length_app. lia.
  - unfold brace_count. by rewrite segment_app.
  - intros j Hj. unfold brace_count. rewrite segment_app by lia. by apply Hnz.
Qed.

(** X2. Once [parseXzpMetadata] has found the end of the metadata block in a
    text, nothing that follows in the file matters: it settles the same way
    on the text with anything appended. *)
Theorem parseXzpMetadata_ignores_what_follows
    (JSON_parse : jsstring → option JsValue) (text tail : jsstring)
    (r : Settled JsValue) :
  parseXzpMetadata JSON_parse (Loaded text) = Some r →
  block_found r →
  parseXzpMetadata JSON_parse (Loaded (text ++ tail)) = Some r.
Proof.
  intros Hrun [Hmarker Hend].
  destruct (parseXzpMetadata_onload_outcome JSON_parse text)
    as (r0 & Hr0 & Hout).
  simpl in Hrun. rewrite Hrun in Hr0. injection Hr0 as <-.
  destruct (parseXzpMetadata_onload_outcome JSON_parse (text ++ tail))
    as (r' & Hr' & Hout').
  simpl. rewrite Hr'. f_equal.
  apply (xzp_outcome_functional JSON_parse (text ++ tail)); [done|].
  inversion Hout as [|s Hs Hall|s e Hs He Hp|s e m Hs He Hp]; subst;
    try done.
  - apply (xzp_invalid_json _ _ s e);
      [by apply first_occurrence_app|by apply first_balanced_app|].
    rewrite segment_app; [done|apply He].
  - apply (xzp_parsed _ _ s e);
      [by apply first_occurrence_app|by apply first_balanced_app|].
    rewrite segment_app; [done|apply He].
Qed.

(** ** Further properties of the coverflow parser and the file reader *)

Section CoverflowFacts.

Variable JSON_parse : jsstring → option JsValue.

#[local] Opaque lit.

Lemma has_prop_object key fields :
  has_prop key (JObj fields)
  = Resolved (bool_decide (is_Some (lookup_field key fields))).
Proof. reflexivity. Qed.

Lemma parseCoverflowMetadata_accepts text v info :
  JSON_parse text = Some v → coverflow_info v info →
  parseCoverflowMetadata JSON_parse (Loaded text) = Resolved info.
Proof.
  intros Hparse (fields & ifields & -> & Hinfo & -> & Hn & Ha & Hv).
  unfold parseCoverflowMetadata. rewrite Hparse.
  unfold and_then, mbind, Settled_bind, fmap, Settled_fmap.
  cbn -[has_prop]. rewrite !has_prop_object, Hinfo.
  rewrite bool_decide_eq_true_2 by done. cbn -[has_prop].
  rewrite !has_prop_object.
  by rewrite !bool_decide_eq_true_2 by done.
Qed.

Lemma parseCoverflowMetadata_refuses text v :
  JSON_parse text = Some v → (∀ info, ¬ coverflow_info v info) →
  parseCoverflowMetadata JSON_parse (Loaded text)
  = Rejected (Error coverflow_shape_message).
Proof.
  intros Hparse Hno. unfold parseCoverflowMetadata. rewrite Hparse.
  unfold and_then, mbind, Settled_bind, fmap, Settled_fmap.
  destruct v as [|b|x|t|elems|fields]; cbn -[has_prop]; try done.
  - by destruct b.
  - by destruct (number_truthy x).
  - by destruct (string_truthy t).
  - rewrite has_prop_object.
    destruct (lookup_field (lit "info") fields) as [info|] eqn:Hinfo;
      [|by rewrite bool_decide_eq_false_2 by (by intros [? ?])].
    rewrite bool_decide_eq_true_2 by done. cbn -[has_prop].
    destruct info as [|b|x|t|elems|ifields]; cbn -[has_prop]; try done.
    + by destruct b.
    + by destruct (number_truthy x).
    + by destruct (string_truthy t).
    + rewrite !has_prop_object.
      destruct (decide (is_Some (lookup_field (lit "name") ifields)))
        as [Hn|Hn]; [|by rewrite (bool_decide_eq_false_2 _ Hn)].
      rewrite (bool_decide_eq_true_2 _ Hn).
      destruct (decide (is_Some (lookup_field (lit "author") ifields)))
        as [Ha|Ha]; [|by rewrite (bool_decide_eq_false_2 _ Ha)].
      rewrite (bool_decide_eq_true_2 _ Ha).
      destruct (decide (is_Some (lookup_field (lit "version") ifields)))
        as [Hv|Hv]; [|by rewrite (bool_decide_eq_false_2 _ Hv)].
      destruct (Hno (JObj ifields)). by exists fields, ifields.
Qed.

End CoverflowFacts.

#[local] Transparent lit.

Lemma coverflow_info_decide v :
  (∃ info, coverflow_info v info) ∨ (∀ info, ¬ coverflow_info v info).
Proof.
  destruct v as [| | | | |fields];
    try (right; intros info (? & ? & ? & _); done).
  destruct (lookup_field (lit "info") fields) as [info|] eqn:Hinfo.
  2:{ right. intros info (? & ? & ? & ? & _). by simplify_eq. }
  destruct info as [| | | | |ifields];
    try (right; intros info (? & ? & ? & ? & ? & _); by simplify_eq).
  destruct (decide (is_Some (lookup_field (lit "name") ifields))) as [Hn|Hn].
  2:{ right. intros info (? & ? & ? & ? & ? & ? & _). by simplify_eq. }
  destruct (decide (is_Some (lookup_field (lit "author") ifields)))
    as [Ha|Ha].
  2:{ right. intros info (? & ? & ? & ? & ? & _ & ? & _). by simplify_eq. }
  destruct (decide (is_Some (lookup_field (lit "version") ifields)))
    as [Hv|Hv].
  2:{ right. intros info (? & ? & ? & ? & ? & _ & _ & ?). by simplify_eq. }
  left. exists (JObj ifields). by exists fields, ifields.
Qed.

(** X3. [parseCoverflowMetadata] resolves exactly for the files whose text
    parses to an object with an [info] object that has the keys [name],
    [author] and [version], and then with that [info] object; it rejects
    with its parse error when the text is no JSON, with its form error when
    the parsed value is of another form, and with its read error when the
    file cannot be read. The values of the three keys are not looked at. *)
Theorem parseCoverflowMetadata_outcomes
    (JSON_parse : jsstring → option JsValue) (text : jsstring) :
  parseCoverflowMetadata JSON_parse ReadFailed
  = Rejected (Error (lit "Failed to read coverflow file."))
  ∧ (JSON_parse text = None →
     parseCoverflowMetadata JSON_parse (Loaded text)
     = Rejected (Error (lit "Failed to parse coverflow JSON metadata.")))
  ∧ (∀ v, JSON_parse text = Some v →
       (∀ info, coverflow_info v info →
          parseCoverflowMetadata JSON_parse (Loaded text) = Resolved info)
       ∧ ((∀ info, ¬ coverflow_info v info) →
          parseCoverflowMetadata JSON_parse (Loaded text)
          = Rejected (Error coverflow_shape_message)))
  ∧ (∀ info,
       parseCoverflowMetadata JSON_parse (Loaded text) = Resolved info →
       ∃ v, JSON_parse text = Some v ∧ coverflow_info v info).
Proof.
  split; [done|]. split; [|split].
  - intros Hnone. unfold parseCoverflowMetadata. by rewrite Hnone.
  - intros v Hv. split.
    + intros info. by apply parseCoverflowMetadata_accepts.
    + by apply parseCoverflowMetadata_refuses.
  - intros info Hrun.
    destruct (JSON_parse text) as [v|] eqn:Hv.
    2:{ unfold parseCoverflowMetadata in Hrun. by rewrite Hv in Hrun. }
    exists v. split; [done|].
    destruct (coverflow_info_decide v) as [[i Hi]|Hno].
    + rewrite (parseCoverflowMetadata_accepts _ _ _ _ Hv Hi) in Hrun.
      by simplify_eq.
    + by rewrite (parseCoverflowMetadata_refuses _ _ _ Hv Hno) in Hrun.
Qed.

Lemma split_without_separator sep s : sep ∉ s → split sep s = [s].
Proof.
  induction s as [|c s IH]; intros Hs; [done|].
  apply not_elem_of_cons in Hs as [Hc Hs]. simpl.
  rewrite decide_False by done. by rewrite IH.
Qed.

Lemma split_at_separator sep header rest :
  sep ∉ header → split sep (header ++ sep :: rest) = header :: split sep rest.
Proof.
  induction header as [|c header IH]; intros Hh; simpl.
  - by rewrite decide_True.
  - apply not_elem_of_cons in Hh as [Hc Hh].
    rewrite decide_False by done. by rewrite IH.
Qed.

(** X4. [readFileAsBase64] resolves with what stands between the first and
    the second comma of the data URL: the whole payload when the header of
    the data URL has no comma and the payload, being base64, has none
    either. For a result without a comma it resolves with [undefined]. *)
Theorem readFileAsBase64_onload_payload (header payload : jsstring) :
  comma ∉ header →
  (comma ∉ payload →
   readFileAsBase64_onload (header ++ comma :: payload) = Some payload)
  ∧ (∀ more,
       comma ∉ payload →
       readFileAsBase64_onload (header ++ comma :: payload ++ comma :: more)
       = Some payload)
  ∧ readFileAsBase64_onload header = None.
Proof.
  intros Hh. unfold readFileAsBase64_onload. split; [|split].
  - intros Hp. by rewrite split_at_separator, split_without_separator.
  - intros more Hp. by rewrite !split_at_separator.
  - by rewrite split_without_separator.
Qed.

Lemma readFileAsBase64_onload_payload_witness :
  readFileAsBase64_onload
    (sample_data_url_header ++ comma :: sample_base64)
  = Some sample_base64.
Proof.
  apply (readFileAsBase64_onload_payload sample_data_url_header sample_base64).
  - vm_compute. intros H. repeat (apply elem_of_cons in H as [H|H]; [done|]).
    by apply elem_of_nil in H.
  - vm_compute. intros H. repeat (apply elem_of_cons in H as [H|H]; [done|]).
    by apply elem_of_nil in H.
Defined.

Lemma parseXzpMetadata_parses_a_block_witness :
  ∃ before block after,
    sample_xzp_text = before ++ block ++ after
    ∧ metadata_block block
    ∧ echo_parse block = Some (JStr (take 25 (drop 2 sample_xzp_text))).
Proof.
  destruct (parseXzpMetadata_parses_a_block echo_parse sample_xzp_text
              (JStr (take 25 (drop 2 sample_xzp_text)))
              ltac:(vm_compute; reflexivity))
    as (before & block & after & Htext & Hblock & _ & Hparse).
  exists before, block, after. split; [exact Htext|]. split; assumption.
Defined.

Lemma parseXzpMetadata_ignores_what_follows_witness :
  parseXzpMetadata echo_parse (Loaded (sample_xzp_text ++ lit "}}{"))
  = Some (Resolved (JStr (take 25 (drop 2 sample_xzp_text)))).
Proof.
  apply (parseXzpMetadata_ignores_what_follows echo_parse sample_xzp_text).
  - vm_compute. reflexivity.
  - split; discriminate.
Defined.

Lemma parseCoverflowMetadata_outcomes_witness :
  parseCoverflowMetadata parse_sample_coverflow (Loaded (lit "coverflow"))
  = Resolved sample_coverflow_info
  ∧ parseCoverflowMetadata parse_sample_coverflow (Loaded (lit "{"))
    = Rejected (Error (lit "Failed to parse coverflow JSON metadata.")).
Proof.
  split.
  - destruct (parseCoverflowMetadata_outcomes parse_sample_coverflow
                (lit "coverflow")) as (_ & _ & Hsome & _).
    destruct (Hsome sample_coverflow ltac:(vm_compute; reflexivity))
      as [Haccept _].
    apply Haccept.
    exists [(lit "info", sample_coverflow_info)],
      [(lit "name", JStr (lit "Flow")); (lit "author", JStr (lit "Ann"));
       (lit "version", JStr (lit "1"))].
    repeat split; try reflexivity; vm_compute; eexists; reflexivity.
  - destruct (parseCoverflowMetadata_outcomes parse_sample_coverflow
                (lit "{")) as (_ & Hnone & _).
    apply Hnone. vm_compute. reflexivity.
Defined.

(** ** Further properties of [handleAddToQueue] *)

Section AddToQueueEffects.

Variable toLowerCase : jsstring → jsstring.

Lemma build_item_type f w d id :
  build_item toLowerCase f w = (Item d, id) →
  draft_type d = submission_type f.
Proof.
  unfold build_item, background_branch, skin_branch, coverflow_branch.
  intros H. repeat case_match; by simplify_eq.
Qed.

Lemma build_item_no_item f w id :
  build_item toLowerCase f w = (NoItem, id) → ¬ known_type (submission_type f).
Proof.
  unfold build_item, background_branch, skin_branch, coverflow_branch.
  intros H [Ht|[Ht|Ht]]; rewrite Ht in H; repeat case_match; by simplify_eq.
Qed.

Lemma handleAddToQueue_pushed_metadata f w w' r item :
  handleAddToQueue toLowerCase f w = (w', r) →
  submissionQueue w' = submissionQueue w ++ [item] →
  w' = after_push item w.
Proof.
  unfold handleAddToQueue. intros H Hq.
  destruct (string_truthy (submission_type f)); simpl in H.
  2:{ simplify_eq. simpl in Hq. symmetry in Hq.
      by apply app_singleton_neq in Hq. }
  destruct (build_item toLowerCase f w) as [br id] eqn:Hb.
  destruct br as [w0|e|d|]; simplify_eq; simpl in *.
  - apply build_item_return in Hb as [msg ->]. simpl in Hq.
    symmetry in Hq. by apply app_singleton_neq in Hq.
  - symmetry in Hq. by apply app_singleton_neq in Hq.
  - apply app_inj_tail in Hq as [_ <-]. done.
  - symmetry in Hq. by apply app_singleton_neq in Hq.
Qed.

End AddToQueueEffects.

(** X5. What a call of [handleAddToQueue] does to the state is one of three
    things. It appends one item, whose id is the current [nextItemId] and
    whose type is the selected one, increments [nextItemId], clears the
    parsed metadata and shows the success. Or it leaves the state exactly
    as it was: when it throws, and when the selected type is none of the
    three it knows. Or it shows an error and changes nothing else. *)
Theorem handleAddToQueue_effects
    (toLowerCase : jsstring → jsstring) (f : Form) (w : World) :
  (∃ item,
     fst (handleAddToQueue toLowerCase f w) = after_push item w
     ∧ item_id item = nextItemId w
     ∧ item_type item = submission_type f
     ∧ completion (snd (handleAddToQueue toLowerCase f w)) = Resolved ())
  ∨ (fst (handleAddToQueue toLowerCase f w) = w
     ∧ ((∃ e, completion (snd (handleAddToQueue toLowerCase f w))
              = Rejected e)
        ∨ (¬ known_type (submission_type f)
           ∧ completion (snd (handleAddToQueue toLowerCase f w))
             = Resolved ())))
  ∨ (∃ msg,
       fst (handleAddToQueue toLowerCase f w) = showStatus msg error w
       ∧ completion (snd (handleAddToQueue toLowerCase f w)) = Resolved ()).
Proof.
  unfold handleAddToQueue.
  destruct (string_truthy (submission_type f)); simpl.
  2:{ right. right. by eexists. }
  destruct (build_item toLowerCase f w) as [br id] eqn:Hb.
  destruct br as [w0|e|d|]; simpl.
  - apply build_item_return in Hb as [msg ->]. right. right. by eexists.
  - right. left. split; [done|]. left. by eexists.
  - left. exists (with_id d (nextItemId w)). split; [done|]. split; [done|].
    split; [|done]. simpl. by eapply build_item_type.
  - right. left. split; [done|]. right. split; [|done].
    by eapply build_item_no_item.
Qed.

(** X6. A successful add leaves no parsed metadata behind. Adding a skin
    straight after it, without selecting the skin file again, throws the
    incomplete-form error and changes nothing, whatever the form holds;
    adding a coverflow only shows its incomplete-form error. *)
Theorem handleAddToQueue_clears_metadata
    (toLowerCase : jsstring → jsstring) (f : Form) (w w' : World)
    (r : AddResult) (item : SubmissionItem) :
  handleAddToQueue toLowerCase f w = (w', r) →
  submissionQueue w' = submissionQueue w ++ [item] →
  currentSkinMetadata w' = JNull
  ∧ currentCoverflowMetadata w' = JNull
  ∧ (∀ f2, submission_type f2 = lit "skin" →
       handleAddToQueue toLowerCase f2 w'
       = (w', {| completion := Rejected skin_incomplete; itemId := [] |}))
  ∧ (∀ f2, submission_type f2 = lit "coverflow" →
       handleAddToQueue toLowerCase f2 w'
       = (showStatus
            (lit "Please provide a valid coverflow file and a screenshot.")
            error w',
          {| completion := Resolved (); itemId := [] |})).
Proof.
  intros H Hq.
  rewrite (handleAddToQueue_pushed_metadata toLowerCase f w w' r item H Hq).
  split; [done|]. split; [done|]. split.
  - intros f2 Ht. unfold handleAddToQueue, build_item, skin_branch.
    rewrite Ht. simpl. repeat case_match; by simplify_eq.
  - intros f2 Ht. unfold handleAddToQueue, build_item, coverflow_branch.
    rewrite Ht. simpl. repeat case_match; by simplify_eq.
Qed.

Lemma handleAddToQueue_clears_metadata_witness :
  handleAddToQueue toLowerCase_ascii sample_skin_form sample_queued
  = (sample_queued,
     {| completion := Rejected skin_incomplete; itemId := [] |}).
Proof.
  destruct (handleAddToQueue_clears_metadata toLowerCase_ascii
              sample_background_form (sample_world []) sample_queued
              (snd (handleAddToQueue toLowerCase_ascii sample_background_form
                      (sample_world [])))
              _ ltac:(vm_compute; reflexivity) ltac:(vm_compute; reflexivity))
    as (_ & _ & Hskin & _).
  apply Hskin. reflexivity.
Defined.

(** ** What the operations leave alone *)

Lemma handleAddToQueue_state_cases toLowerCase f w :
  (∃ d id, build_item toLowerCase f w = (Item d, id)
           ∧ fst (handleAddToQueue toLowerCase f w)
             = after_push (with_id d (nextItemId w)) w)
  ∨ fst (handleAddToQueue toLowerCase f w) = w
  ∨ ∃ msg, fst (handleAddToQueue toLowerCase f w) = showStatus msg error w.
Proof.
  unfold handleAddToQueue.
  destruct (string_truthy (submission_type f)); simpl.
  2:{ right. right. by eexists. }
  destruct (build_item toLowerCase f w) as [br id] eqn:Hb.
  destruct br as [w0|e|d|]; simpl.
  - apply build_item_return in Hb as [msg ->]. right. right. by eexists.
  - by right; left.
  - left. by exists d, id.
  - by right; left.
Qed.

Section Footprint.

(** A relation between the state before and the state after, with what it
    allows a computation to assign and to request. *)
Variable R : World → World → Prop.
Variable allowed : ApiCall → Prop.
Hypothesis R_refl : ∀ w, R w w.
Hypothesis R_trans : ∀ w1 w2 w3, R w1 w2 → R w2 w3 → R w1 w3.
Hypothesis R_status : ∀ s w, R w (set_status s w).
Hypothesis R_request :
  ∀ c w, allowed c → R w (set_requests (requests w ++ [c]) w).
Hypothesis R_octokit : ∀ o w, R w (set_octokit o w).
Hypothesis R_manifest : ∀ l w, R w (set_existingContentList l w).
Hypothesis R_skin : ∀ m w, R w (set_currentSkinMetadata m w).
Hypothesis R_coverflow : ∀ m w, R w (set_currentCoverflowMetadata m w).
Hypothesis R_clear : ∀ w, R w (set_submissionQueue [] w).
Hypothesis R_storage : ∀ s w, R w (set_localStorage s w).
Hypothesis R_reload : ∀ w, R w (reload w).

Variable github : list ApiCall → ApiCall → Settled jsstring.
Variable github_content : list ApiCall → Settled JsValue.
Variable callback_fetch : list ApiCall → jsstring → Settled HttpReply.
Variable atob : jsstring → option jsstring.
Variable JSON_parse : jsstring → option JsValue.
Variable ToString_other : option JsValue → jsstring.
Variable TypeError_message : jsstring.
Variable toLowerCase : jsstring → jsstring.
Variable formatFileSize : JsNumber → jsstring.
Variable env_GITHUB_TARGET_BRANCH : option jsstring.

Lemma footprint_ret {A} (x : A) : preserves R (mret x).
Proof. intros w. apply R_refl. Qed.

Lemma footprint_settle {A} (r : Settled A) : preserves R (settle r).
Proof. intros w. apply R_refl. Qed.

Lemma footprint_throw {A} (e : Exn) : preserves R (throw (A := A) e).
Proof. intros w. apply R_refl. Qed.

Lemma footprint_or_throw {A} (r : option A) e : preserves R (or_throw r e).
Proof. destruct r; [apply footprint_ret|apply footprint_throw]. Qed.

Lemma footprint_perform c : allowed c → preserves R (perform github c).
Proof. intros Hc w. by apply R_request. Qed.

Lemma footprint_octokit_call c :
  allowed c → preserves R (octokit_call github c).
Proof.
  intros Hc w. unfold octokit_call.
  destruct (octokit w); [by apply footprint_perform|apply R_refl].
Qed.

Lemma footprint_get_content :
  allowed (ReposGetContent GITHUB_REPO_OWNER GITHUB_REPO_NAME
             (lit "repo/list.json")) →
  preserves R (get_content github_content).
Proof.
  intros Hc w. unfold get_content.
  destruct (octokit w); [by apply R_request|apply R_refl].
Qed.

Lemma footprint_showStatus msg type :
  preserves R (modify (showStatus msg type)).
Proof. apply preserves_modify. intros w. apply R_status. Qed.

Lemma footprint_resetForms : preserves R (modify resetForms).
Proof.
  apply preserves_modify. intros w. unfold resetForms.
  eapply R_trans; [apply R_skin|apply R_coverflow].
Qed.

(** Steps that follow a footprint through a computation. *)
Ltac footprint_step :=
  first
    [ apply footprint_ret | apply footprint_settle | apply footprint_throw
    | apply footprint_or_throw
    | apply footprint_showStatus | apply footprint_resetForms
    | apply preserves_modify; intros ?;
      first [ apply R_status | apply R_octokit
            | apply R_manifest | apply R_skin | apply R_coverflow
            | apply R_clear | apply R_storage | apply R_reload ]
    | apply (preserves_bind R R_trans); [|intros ?]
    | apply (preserves_try_catch R R_trans); [|intros ?]
    | case_match ].

Lemma footprint_fetchExistingContentList :
  allowed (ReposGetContent GITHUB_REPO_OWNER GITHUB_REPO_NAME
             (lit "repo/list.json")) →
  preserves R
    (fetchExistingContentList github_content atob JSON_parse ToString_other).
Proof.
  intros Hc. unfold fetchExistingContentList.
  apply (preserves_try_catch R R_trans); [|intros ?; repeat footprint_step].
  apply (preserves_bind R R_trans); [by apply footprint_get_content|intros ?].
  repeat footprint_step.
Qed.

Lemma footprint_checkAuth :
  allowed UsersGetAuthenticated →
  allowed (ReposGetContent GITHUB_REPO_OWNER GITHUB_REPO_NAME
             (lit "repo/list.json")) →
  preserves R (checkAuth github github_content atob JSON_parse ToString_other).
Proof.
  intros Hauth Hcontent w. unfold checkAuth.
  destruct (localStorage w !! token_key) as [token|]; [|apply R_refl].
  destruct (string_truthy token); [|apply R_refl].
  revert w. apply (preserves_try_catch R R_trans).
  - apply (preserves_bind R R_trans); [repeat footprint_step|intros _].
    apply (preserves_bind R R_trans);
      [by apply footprint_octokit_call|intros _].
    apply (preserves_bind R R_trans);
      [by apply footprint_fetchExistingContentList|intros _].
    apply footprint_ret.
  - intros e. repeat footprint_step.
Qed.

Lemma footprint_handleCallback url_code :
  (∀ code, allowed (FetchGithubCallback code)) →
  allowed (ReposGetContent GITHUB_REPO_OWNER GITHUB_REPO_NAME
             (lit "repo/list.json")) →
  preserves R
    (handleCallback github_content callback_fetch atob JSON_parse
       ToString_other TypeError_message url_code).
Proof.
  intros Hfetch Hcontent.
  unfold handleCallback. destruct url_code as [code|]; [|apply footprint_ret].
  destruct (string_truthy code); simpl; [|apply footprint_ret].
  apply (preserves_try_catch R R_trans); [|intros ?; repeat footprint_step].
  apply (preserves_bind R R_trans); [repeat footprint_step|intros _].
  apply (preserves_bind R R_trans);
    [intros w; by apply R_request|intros response].
  apply (preserves_bind R R_trans); [repeat footprint_step|intros _].
  apply (preserves_bind R R_trans); [repeat footprint_step|intros data].
  apply (preserves_bind R R_trans); [repeat footprint_step|intros err].
  apply (preserves_bind R R_trans); [repeat footprint_step|intros _].
  apply (preserves_bind R R_trans); [repeat footprint_step|intros access_token].
  apply (preserves_bind R R_trans); [repeat footprint_step|intros _].
  apply (preserves_bind R R_trans); [repeat footprint_step|intros _].
  apply (preserves_bind R R_trans);
    [by apply footprint_fetchExistingContentList|intros _].
  repeat footprint_step.
Qed.

Lemma footprint_initialize url_code :
  allowed UsersGetAuthenticated →
  (∀ code, allowed (FetchGithubCallback code)) →
  allowed (ReposGetContent GITHUB_REPO_OWNER GITHUB_REPO_NAME
             (lit "repo/list.json")) →
  preserves R
    (initialize github github_content callback_fetch atob JSON_parse
       ToString_other TypeError_message url_code).
Proof.
  intros Hauth Hfetch Hcontent. unfold initialize.
  apply (preserves_bind R R_trans);
    [by apply footprint_checkAuth|intros _].
  by apply footprint_handleCallback.
Qed.

Lemma footprint_validate_sizes allFiles :
  preserves R (validate_sizes formatFileSize allFiles).
Proof.
  induction allFiles as [|qf rest IH]; [apply footprint_ret|].
  simpl. apply (preserves_bind R R_trans).
  - unfold validateFileSize. repeat footprint_step.
  - intros [|]; [done|apply footprint_ret].
Qed.

Lemma footprint_commit_files forkOwner branchName allFiles :
  (∀ c, allowed c) →
  preserves R (commit_files github forkOwner branchName allFiles).
Proof.
  intros Hall. induction allFiles as [|qf rest IH]; [apply footprint_ret|].
  simpl.
  apply (preserves_bind R R_trans); [by apply footprint_perform|intros ?].
  apply (preserves_bind R R_trans); [by apply footprint_octokit_call|intros ?].
  done.
Qed.

Lemma footprint_createPullRequest timestamp :
  (∀ c, allowed c) →
  preserves R
    (createPullRequest github TypeError_message formatFileSize
       env_GITHUB_TARGET_BRANCH timestamp).
Proof.
  intros Hall w. unfold createPullRequest.
  destruct (decide (length (submissionQueue w) = 0%nat));
    [apply footprint_showStatus|].
  apply (preserves_bind R R_trans); [apply footprint_validate_sizes|intros valid].
  destruct valid; simpl; [|apply footprint_ret].
  apply (preserves_try_catch R R_trans); [|intros ?; repeat footprint_step].
  apply (preserves_bind R R_trans); [repeat footprint_step|intros _].
  apply (preserves_bind R R_trans);
    [by apply footprint_octokit_call|intros forkOwner].
  apply (preserves_bind R R_trans);
    [by apply footprint_octokit_call|intros defaultBranch].
  apply (preserves_bind R R_trans);
    [by apply footprint_octokit_call|intros sha].
  apply (preserves_bind R R_trans);
    [by apply footprint_octokit_call|intros _].
  apply (preserves_bind R R_trans);
    [by apply footprint_commit_files|intros _].
  apply (preserves_bind R R_trans);
    [by apply footprint_octokit_call|intros _].
  repeat footprint_step.
Qed.

Lemma footprint_onSkinFileChange selected :
  preserves R (onSkinFileChange JSON_parse TypeError_message selected).
Proof. unfold onSkinFileChange. repeat footprint_step. Qed.

Lemma footprint_onCoverflowFileChange selected :
  preserves R (onCoverflowFileChange JSON_parse TypeError_message selected).
Proof. unfold onCoverflowFileChange. repeat footprint_step. Qed.

(** What the queue operations and the pull request do is given for each
    relation on its own. *)
Hypothesis R_push :
  ∀ f w d id, build_item toLowerCase f w = (Item d, id) →
    R w (after_push (with_id d (nextItemId w)) w).
Hypothesis R_remove :
  ∀ idToRemove w,
    R w (set_submissionQueue
           (filter (λ item, item_id item ≠ idToRemove) (submissionQueue w)) w).
Hypothesis R_createPullRequest :
  ∀ timestamp,
    preserves R
      (createPullRequest github TypeError_message formatFileSize
         env_GITHUB_TARGET_BRANCH timestamp).

Lemma footprint_handleAddToQueue f w :
  R w (fst (handleAddToQueue toLowerCase f w)).
Proof.
  destruct (handleAddToQueue_state_cases toLowerCase f w)
    as [(d & id & Hb & ->)|[->|[msg ->]]].
  - by eapply R_push.
  - apply R_refl.
  - apply R_status.
Qed.

Lemma footprint_local_operation op w :
  local_operation op →
  R w (run github github_content callback_fetch atob JSON_parse
         ToString_other TypeError_message toLowerCase formatFileSize
         env_GITHUB_TARGET_BRANCH op w).
Proof.
  destruct op; simpl; intros Hop;
    [ destruct Hop | apply (footprint_resetForms w)
    | apply footprint_onSkinFileChange | apply footprint_onCoverflowFileChange
    | apply footprint_handleAddToQueue | apply R_remove
    | destruct Hop | destruct Hop ].
Qed.

Lemma footprint_run op w :
  allowed UsersGetAuthenticated →
  (∀ code, allowed (FetchGithubCallback code)) →
  allowed (ReposGetContent GITHUB_REPO_OWNER GITHUB_REPO_NAME
             (lit "repo/list.json")) →
  R w (run github github_content callback_fetch atob JSON_parse
         ToString_other TypeError_message toLowerCase formatFileSize
         env_GITHUB_TARGET_BRANCH op w).
Proof.
  intros Hauth Hfetch Hcontent. destruct op; simpl.
  - by apply footprint_initialize.
  - apply (footprint_resetForms w).
  - apply footprint_onSkinFileChange.
  - apply footprint_onCoverflowFileChange.
  - apply footprint_handleAddToQueue.
  - apply R_remove.
  - apply R_createPullRequest.
  - apply R_reload.
Qed.

End Footprint.

(** ** The ids of the queued items *)

Lemma filter_keeps_all {A} (P : A → Prop) `{∀ x, Decision (P x)} (l : list A) :
  Forall P l → filter P l = l.
Proof.
  induction 1 as [|x l Hx _ IH]; [done|].
  rewrite filter_cons. destruct (decide (P x)); [by rewrite IH|done].
Qed.

Lemma Forall_filter_keeps {A} (P Q : A → Prop) `{∀ x, Decision (Q x)}
    (l : list A) :
  Forall P l → Forall P (filter Q l).
Proof.
  rewrite !Forall_forall. intros HP x Hx.
  apply list_elem_of_filter in Hx as [_ Hx]. by apply HP.
Qed.

Lemma NoDup_fmap_filter {A B} (f : A → B) (Q : A → Prop)
    `{∀ x, Decision (Q x)} (l : list A) :
  NoDup (f <$> l) → NoDup (f <$> filter Q l).
Proof.
  induction l as [|x l IH]; [done|].
  rewrite fmap_cons, NoDup_cons. intros [Hx Hl].
  rewrite filter_cons. destruct (decide (Q x)); [|by apply IH].
  rewrite fmap_cons, NoDup_cons. split; [|by apply IH].
  intros Hin. apply Hx.
  apply list_elem_of_fmap in Hin as (y & -> & Hy).
  apply list_elem_of_filter in Hy as [_ Hy].
  apply list_elem_of_fmap. by exists y.
Qed.

Lemma ids_fresh_push w item :
  item_id item = nextItemId w → ids_fresh w → ids_fresh (after_push item w).
Proof.
  intros Hid (Hnext & Hnodup & Hbound). split; [simpl; lia|]. split; simpl.
  - rewrite fmap_app. simpl. apply NoDup_app. split; [done|]. split.
    + intros x Hx Hin. apply list_elem_of_singleton in Hin as ->.
      apply list_elem_of_fmap in Hx as (y & Hy & Hin).
      rewrite Forall_forall in Hbound. specialize (Hbound y Hin). lia.
    + apply NoDup_singleton.
  - apply Forall_app. split.
    + eapply Forall_impl; [done|]. simpl. intros; lia.
    + apply Forall_singleton. lia.
Qed.

Lemma ids_fresh_remove idToRemove w :
  ids_fresh w →
  ids_fresh
    (set_submissionQueue
       (filter (λ item, item_id item ≠ idToRemove) (submissionQueue w)) w).
Proof.
  intros (Hnext & Hnodup & Hbound). split; [done|]. split; simpl.
  - by apply NoDup_fmap_filter.
  - by apply Forall_filter_keeps.
Qed.

Lemma ids_fresh_cleared w' :
  0 ≤ nextItemId w' → submissionQueue w' = [] → ids_fresh w'.
Proof.
  intros Hnext Hq. unfold ids_fresh. rewrite Hq.
  split; [done|]. split; [apply NoDup_nil_2|apply Forall_nil_2].
Qed.

Section QueueIds.

Variable github : list ApiCall → ApiCall → Settled jsstring.
Variable github_content : list ApiCall → Settled JsValue.
Variable callback_fetch : list ApiCall → jsstring → Settled HttpReply.
Variable atob : jsstring → option jsstring.
Variable JSON_parse : jsstring → option JsValue.
Variable ToString_other : option JsValue → jsstring.
Variable TypeError_message : jsstring.
Variable toLowerCase : jsstring → jsstring.
Variable formatFileSize : JsNumber → jsstring.
Variable env_GITHUB_TARGET_BRANCH : option jsstring.

Lemma run_ids_fresh op w :
  ids_fresh w →
  ids_fresh
    (run github github_content callback_fetch atob JSON_parse ToString_other
       TypeError_message toLowerCase formatFileSize env_GITHUB_TARGET_BRANCH
       op w).
Proof.
  apply (footprint_run (λ w w', ids_fresh w → ids_fresh w') (λ _, True));
    try done.
  - intros w1 w2 w3 H12 H23 H1. by apply H23, H12.
  - intros w0 _. by apply ids_fresh_cleared.
  - intros f w0 d id _. by apply ids_fresh_push.
  - intros idToRemove w0. apply ids_fresh_remove.
  - intros timestamp.
    apply (footprint_createPullRequest
             (λ w w', ids_fresh w → ids_fresh w') (λ _, True)); try done.
    + intros w1 w2 w3 H12 H23 H1. by apply H23, H12.
    + intros w0 (Hnext & _). by apply ids_fresh_cleared.
Qed.

Lemma run_all_ids_fresh ops : ∀ w,
  ids_fresh w →
  ids_fresh
    (run_all github github_content callback_fetch atob JSON_parse
       ToString_other TypeError_message toLowerCase formatFileSize
       env_GITHUB_TARGET_BRANCH ops w).
Proof.
  induction ops as [|op ops IH]; intros w Hw; [done|].
  simpl. by apply IH, run_ids_fresh.
Qed.

End QueueIds.

Lemma filter_removes_one (before after : list SubmissionItem) item :
  NoDup (item_id <$> (before ++ item :: after)) →
  filter (λ i, item_id i ≠ item_id item) (before ++ item :: after)
  = before ++ after.
Proof.
  rewrite fmap_app, fmap_cons. intros Hnodup.
  apply NoDup_app in Hnodup as (_ & Hdisjoint & Hrest).
  apply NoDup_cons in Hrest as [Hafter _].
  rewrite filter_app, filter_cons.
  destruct (decide (item_id item ≠ item_id item)); [done|].
  f_equal; apply filter_keeps_all, Forall_forall; intros x Hx Heq.
  - apply (Hdisjoint (item_id x)); [by apply list_elem_of_fmap_2|].
    rewrite Heq. left.
  - apply Hafter. rewrite <- Heq. by apply list_elem_of_fmap_2.
Qed.

(** X7. However the page has been used since it was loaded, the queued
    items have distinct ids, and every id is at least 0 and below
    [nextItemId]: an id is given once and never again, also after items
    have been removed or the queue has been emptied by a pull request. *)
Theorem queue_ids_stay_distinct
    (github : list ApiCall → ApiCall → Settled jsstring)
    (github_content : list ApiCall → Settled JsValue)
    (callback_fetch : list ApiCall → jsstring → Settled HttpReply)
    (atob : jsstring → option jsstring)
    (JSON_parse : jsstring → option JsValue)
    (ToString_other : option JsValue → jsstring)
    (TypeError_message : jsstring)
    (toLowerCase : jsstring → jsstring)
    (formatFileSize : JsNumber → jsstring)
    (env_GITHUB_TARGET_BRANCH : option jsstring)
    (ops : list Operation) (storage : gmap jsstring jsstring) :
  let w :=
    run_all github github_content callback_fetch atob JSON_parse
      ToString_other TypeError_message toLowerCase formatFileSize
      env_GITHUB_TARGET_BRANCH ops (page_load storage) in
  NoDup (item_id <$> submissionQueue w)
  ∧ Forall (λ item, 0 ≤ item_id item < nextItemId w) (submissionQueue w).
Proof.
  cbv zeta.
  assert (ids_fresh (page_load storage)) as Hstart.
  { split; [done|]. split; [apply NoDup_nil_2|apply Forall_nil_2]. }
  revert Hstart. generalize (page_load storage).
  induction ops as [|op ops IH]; intros w Hw; [apply Hw|].
  simpl. by apply IH, run_ids_fresh.
Qed.

(** X8. On a page used in whatever way since it was loaded, a click on the
    [Remove] button of a queued item takes exactly that item out of the
    queue and leaves the others in their order; a click on a button without
    a [data-id], which is read as the id -1, or with any other id that is
    not queued, removes nothing. Nothing but the queue changes. *)
Theorem onRemoveClick_removes_one_item
    (github : list ApiCall → ApiCall → Settled jsstring)
    (github_content : list ApiCall → Settled JsValue)
    (callback_fetch : list ApiCall → jsstring → Settled HttpReply)
    (atob : jsstring → option jsstring)
    (JSON_parse : jsstring → option JsValue)
    (ToString_other : option JsValue → jsstring)
    (TypeError_message : jsstring)
    (toLowerCase : jsstring → jsstring)
    (formatFileSize : JsNumber → jsstring)
    (env_GITHUB_TARGET_BRANCH : option jsstring)
    (ops : list Operation) (storage : gmap jsstring jsstring) :
  let w :=
    run_all github github_content callback_fetch atob JSON_parse
      ToString_other TypeError_message toLowerCase formatFileSize
      env_GITHUB_TARGET_BRANCH ops (page_load storage) in
  (∀ before item after,
     submissionQueue w = before ++ item :: after →
     fst (onRemoveClick (item_id item) w)
     = set_submissionQueue (before ++ after) w)
  ∧ (∀ idToRemove,
       idToRemove = -1 ∨ idToRemove ∉ item_id <$> submissionQueue w →
       fst (onRemoveClick idToRemove w) = w).
Proof.
  cbv zeta.
  pose proof (run_all_ids_fresh github github_content callback_fetch atob
                JSON_parse ToString_other TypeError_message toLowerCase
                formatFileSize env_GITHUB_TARGET_BRANCH ops
                (page_load storage)) as Hfresh.
  destruct Hfresh as (_ & Hnodup & Hbound).
  { split; [done|]. split; [apply NoDup_nil_2|apply Forall_nil_2]. }
  revert Hnodup Hbound.
  generalize (run_all github github_content callback_fetch atob JSON_parse
                ToString_other TypeError_message toLowerCase formatFileSize
                env_GITHUB_TARGET_BRANCH ops (page_load storage)).
  intros w Hnodup Hbound. split.
  - intros before item after Hq. unfold onRemoveClick, modify. simpl.
    rewrite Hq in Hnodup |- *. by rewrite filter_removes_one.
  - intros idToRemove Hid. unfold onRemoveClick, modify. simpl.
    rewrite filter_keeps_all; [by destruct w|].
    apply Forall_forall. intros x Hx Heq.
    destruct Hid as [->|Hid].
    + rewrite Forall_forall in Hbound. specialize (Hbound x Hx). lia.
    + apply Hid. rewrite <- Heq. by apply list_elem_of_fmap_2.
Qed.

Lemma onRemoveClick_removes_one_item_witness :
  fst (onRemoveClick (item_id sample_item)
         (sample_run [ClickAddToQueue sample_background_form]))
  = set_submissionQueue ([] ++ [])
      (sample_run [ClickAddToQueue sample_background_form]).
Proof.
  destruct (onRemoveClick_removes_one_item github_ok content_unavailable
              callback_unreachable atob_none echo_parse ToString_sample []
              toLowerCase_ascii formatFileSize_sample None
              [ClickAddToQueue sample_background_form] ∅) as [Hremove _].
  apply (Hremove [] sample_item []). vm_compute. reflexivity.
Defined.

(** ** The paths of the committed files *)

#[local] Opaque lit.

Lemma Forall_filter_holds {A} (P : A → Prop) `{∀ x, Decision (P x)}
    (l : list A) :
  Forall P (filter P l).
Proof.
  apply Forall_forall. intros x Hx. by apply list_elem_of_filter in Hx as [? _].
Qed.

Lemma sanitize_safe toLowerCase s :
  Forall (λ c, is_az09 c ∨ c = dot) (sanitize toLowerCase s).
Proof.
  unfold sanitize. rewrite replace_not_az09_filter.
  eapply Forall_impl; [apply Forall_filter_holds|]. simpl. by left.
Qed.

#[local] Transparent lit.

Lemma safe_stem dir prefix a b ext :
  dir ∈ [lit "repo/backgrounds/"; lit "repo/skins/"; lit "repo/coverflows/"] →
  Forall (λ c, is_az09 c ∨ c = dot) prefix →
  Forall (λ c, is_az09 c ∨ c = dot) a →
  Forall (λ c, is_az09 c ∨ c = dot) b →
  Forall (λ c, is_az09 c ∨ c = dot) ext →
  safe_path (dir ++ prefix ++ a ++ lit "." ++ b ++ ext).
Proof.
  intros Hdir Hprefix Ha Hb Hext. exists dir, (prefix ++ a ++ lit "." ++ b ++ ext).
  split; [done|]. split; [done|].
  repeat (apply Forall_app; split); try done.
  apply Forall_singleton. by right.
Qed.

Lemma safe_literal (s : jsstring) :
  bool_decide (Forall (λ c, is_az09 c ∨ c = dot) s) = true →
  Forall (λ c, is_az09 c ∨ c = dot) s.
Proof. apply bool_decide_eq_true_1. Qed.

Lemma build_item_safe toLowerCase f w d id :
  build_item toLowerCase f w = (Item d, id) → files_safe (draft_files d).
Proof.
  unfold build_item, background_branch, skin_branch, coverflow_branch.
  intros H. repeat case_match; simplify_eq; simpl;
    repeat apply Forall_cons_2; try apply Forall_nil_2.
  - apply (safe_stem (lit "repo/backgrounds/") (lit "bg."));
      [set_solver|by apply safe_literal|apply sanitize_safe
      |apply sanitize_safe|by apply safe_literal].
  - apply (safe_stem (lit "repo/skins/") (lit "skin."));
      [set_solver|by apply safe_literal|apply sanitize_safe
      |apply sanitize_safe|by apply safe_literal].
  - apply (safe_stem (lit "repo/skins/") (lit "skin."));
      [set_solver|by apply safe_literal|apply sanitize_safe
      |apply sanitize_safe|by apply safe_literal].
  - apply (safe_stem (lit "repo/coverflows/") (lit "cf."));
      [set_solver|by apply safe_literal|apply sanitize_safe
      |apply sanitize_safe|by apply safe_literal].
  - apply (safe_stem (lit "repo/coverflows/") (lit "cf."));
      [set_solver|by apply safe_literal|apply sanitize_safe
      |apply sanitize_safe|by apply safe_literal].
Qed.

Lemma commit_requests_safe forkOwner branchName allFiles : ∀ contents,
  files_safe allFiles →
  Forall commit_safe (commit_requests forkOwner branchName allFiles contents).
Proof.
  unfold commit_requests.
  induction allFiles as [|qf rest IH]; intros [|content contents] Hsafe;
    try apply Forall_nil_2.
  apply Forall_cons in Hsafe as [Hqf Hrest]. simpl.
  apply Forall_cons_2; [done|]. apply Forall_cons_2; [done|]. by apply IH.
Qed.

Lemma files_safe_bind queue :
  paths_safe queue → files_safe (item ← queue; files item).
Proof.
  induction 1 as [|item queue Hitem _ IH]; [apply Forall_nil_2|].
  simpl. by apply Forall_app.
Qed.

Lemma pull_request_sequence_safe target timestamp queue forkOwner
    defaultBranch sha contents :
  paths_safe queue →
  Forall commit_safe
    (pull_request_sequence target timestamp queue forkOwner defaultBranch sha
       contents).
Proof.
  intros Hsafe. unfold pull_request_sequence.
  repeat (apply Forall_app; split).
  - by repeat apply Forall_cons_2.
  - by apply commit_requests_safe, files_safe_bind.
  - by apply Forall_singleton.
Qed.

(** ** The guards of [createPullRequest] *)

Section PullRequestGuards.

Variable github : list ApiCall → ApiCall → Settled jsstring.
Variable TypeError_message : jsstring.
Variable formatFileSize : JsNumber → jsstring.
Variable env_GITHUB_TARGET_BRANCH : option jsstring.

#[local] Opaque lit.

Lemma validate_sizes_cases allFiles w :
  (Forall (λ qf, int_gt (file_size (file qf)) (maxSize qf) = false) allFiles
   ∧ validate_sizes formatFileSize allFiles w = (w, Resolved true))
  ∨ (∃ qf, first_oversize allFiles qf
           ∧ validate_sizes formatFileSize allFiles w
             = (showStatus (oversize_message formatFileSize qf) error w,
                Resolved false)).
Proof.
  induction allFiles as [|qf rest IH]; [by left|].
  simpl. unfold validateFileSize.
  destruct (int_gt (file_size (file qf)) (maxSize qf)) eqn:Hgt.
  - right. exists qf. split; [by exists [], rest|done].
  - destruct IH as [[Hall Hrun]|(qf' & (pre & post & -> & Hpre & Hgt') & Hrun)].
    + left. split; [by apply Forall_cons_2|].
      unfold mbind, M_bind, mret, M_ret in *. simpl. exact Hrun.
    + right. exists qf'. split.
      * exists (qf :: pre), post. split; [done|]. split; [|done].
        by apply Forall_cons_2.
      * unfold mbind, M_bind, mret, M_ret in *. simpl. exact Hrun.
Qed.

Lemma first_oversize_unique allFiles qf qf' :
  first_oversize allFiles qf → first_oversize allFiles qf' → qf = qf'.
Proof.
  intros (pre & post & -> & Hpre & Hgt) (pre' & post' & Heq & Hpre' & Hgt').
  revert pre' Heq Hpre'.
  induction pre as [|x pre IH]; intros [|x' pre'] Heq Hpre'; simpl in *.
  - by simplify_eq.
  - simplify_eq. apply Forall_cons in Hpre' as [Hx _]. congruence.
  - simplify_eq. apply Forall_cons in Hpre as [Hx _]. congruence.
  - simplify_eq. apply Forall_cons in Hpre as [_ Hpre].
    apply Forall_cons in Hpre' as [_ Hpre']. by eapply IH.
Qed.

Lemma createPullRequest_empty timestamp w :
  submissionQueue w = [] →
  createPullRequest github TypeError_message formatFileSize
    env_GITHUB_TARGET_BRANCH timestamp w
  = (showStatus (lit "Submission queue is empty. Please add files first.")
       error w, Resolved ()).
Proof. intros Hq. unfold createPullRequest. by rewrite Hq. Qed.

Lemma createPullRequest_oversize timestamp w qf :
  first_oversize (item ← submissionQueue w; files item) qf →
  createPullRequest github TypeError_message formatFileSize
    env_GITHUB_TARGET_BRANCH timestamp w
  = (showStatus (oversize_message formatFileSize qf) error w, Resolved ()).
Proof.
  intros Hfirst. unfold createPullRequest.
  destruct (decide (length (submissionQueue w) = 0%nat)) as [Hlen|_].
  { apply length_zero_iff_nil in Hlen. rewrite Hlen in Hfirst.
    destruct Hfirst as (pre & post & Heq & _). by destruct pre. }
  destruct (validate_sizes_cases (item ← submissionQueue w; files item) w)
    as [[Hall _]|(qf' & Hfirst' & Hrun)].
  - destruct Hfirst as (pre & post & Heq & _ & Hgt). rewrite Heq in Hall.
    apply Forall_app in Hall as [_ Hall].
    apply Forall_cons in Hall as [Hqf _]. congruence.
  - rewrite (first_oversize_unique _ _ _ Hfirst Hfirst').
    rewrite M_bind_run, Hrun. done.
Qed.

Lemma createPullRequest_refused timestamp w :
  ¬ (submissionQueue w ≠ [] ∧ sizes_pass (submissionQueue w)) →
  ∃ msg,
    fst (createPullRequest github TypeError_message formatFileSize
           env_GITHUB_TARGET_BRANCH timestamp w)
    = showStatus msg error w.
Proof.
  intros Hnot. destruct (submissionQueue w) as [|item queue] eqn:Hq.
  { eexists. by rewrite createPullRequest_empty. }
  destruct (validate_sizes_cases (item ← submissionQueue w; files item) w)
    as [[Hall _]|(qf & Hfirst & _)].
  - destruct Hnot. split; [done|]. unfold sizes_pass. by rewrite <- Hq.
  - eexists. by rewrite (createPullRequest_oversize _ _ qf).
Qed.

Lemma createPullRequest_safe timestamp w :
  paths_safe (submissionQueue w) ∧ Forall commit_safe (requests w) →
  paths_safe
    (submissionQueue
       (fst (createPullRequest github TypeError_message formatFileSize
               env_GITHUB_TARGET_BRANCH timestamp w)))
  ∧ Forall commit_safe
      (requests
         (fst (createPullRequest github TypeError_message formatFileSize
                 env_GITHUB_TARGET_BRANCH timestamp w))).
Proof.
  intros [Hqueue Hrequests].
  destruct (decide (submissionQueue w ≠ [])) as [Hne|Hempty].
  2:{ destruct (createPullRequest_refused timestamp w) as [msg ->];
        [by intros [? _]|done]. }
  destruct (decide (sizes_pass (submissionQueue w))) as [Hsizes|Hsizes].
  2:{ destruct (createPullRequest_refused timestamp w) as [msg ->];
        [by intros [_ ?]|done]. }
  destruct (createPullRequest_runs github TypeError_message formatFileSize
              env_GITHUB_TARGET_BRANCH timestamp w Hne Hsizes)
    as (new & forkOwner & defaultBranch & sha & contents & Hrun).
  cbv zeta in Hrun. destruct Hrun as (Hreq & _ & _ & [rest Hprefix] & Hend).
  split.
  - destruct Hend as [(_ & _ & -> & _)|(e & _ & -> & _)];
      [apply Forall_nil_2|done].
  - rewrite Hreq. apply Forall_app. split; [done|].
    pose proof (pull_request_sequence_safe
                  (target_branch env_GITHUB_TARGET_BRANCH) timestamp
                  (submissionQueue w) forkOwner defaultBranch sha contents
                  Hqueue) as Hseq.
    rewrite Hprefix in Hseq. by apply Forall_app in Hseq as [? _].
Qed.

#[local] Transparent lit.

End PullRequestGuards.

Section SafePaths.

Variable github : list ApiCall → ApiCall → Settled jsstring.
Variable github_content : list ApiCall → Settled JsValue.
Variable callback_fetch : list ApiCall → jsstring → Settled HttpReply.
Variable atob : jsstring → option jsstring.
Variable JSON_parse : jsstring → option JsValue.
Variable ToString_other : option JsValue → jsstring.
Variable TypeError_message : jsstring.
Variable toLowerCase : jsstring → jsstring.
Variable formatFileSize : JsNumber → jsstring.
Variable env_GITHUB_TARGET_BRANCH : option jsstring.

Lemma run_paths_safe op w :
  paths_safe (submissionQueue w) ∧ Forall commit_safe (requests w) →
  paths_safe
    (submissionQueue
       (run github github_content callback_fetch atob JSON_parse
          ToString_other TypeError_message toLowerCase formatFileSize
          env_GITHUB_TARGET_BRANCH op w))
  ∧ Forall commit_safe
      (requests
         (run github github_content callback_fetch atob JSON_parse
            ToString_other TypeError_message toLowerCase formatFileSize
            env_GITHUB_TARGET_BRANCH op w)).
Proof.
  apply (footprint_run
           (λ w w',
              paths_safe (submissionQueue w) ∧ Forall commit_safe (requests w) →
              paths_safe (submissionQueue w')
              ∧ Forall commit_safe (requests w'))
           commit_safe); try done.
  - intros w1 w2 w3 H12 H23 H1. by apply H23, H12.
  - intros c w0 Hc [Hqueue Hrequests]. split; [done|]. simpl.
    apply Forall_app. split; [done|]. by apply Forall_singleton.
  - intros w0 [_ Hrequests]. split; [apply Forall_nil_2|done].
  - intros f w0 d id Hb [Hqueue Hrequests]. split; [|done]. simpl.
    apply Forall_app. split; [done|]. apply Forall_singleton. simpl.
    by eapply build_item_safe.
  - intros idToRemove w0 [Hqueue Hrequests]. split; [|done]. simpl.
    by apply Forall_filter_keeps.
  - intros timestamp w0. apply createPullRequest_safe.
Qed.

End SafePaths.

(** X9. Whatever the user types into the forms and whatever the selected
    files contain, every file is queued for, and every commit request is
    sent with, a path directly under [repo/backgrounds/], [repo/skins/] or
    [repo/coverflows/]: the rest of the path has only characters of
    [[a-z0-9]] and dots, so no slash. This holds after every sequence of
    operations on a loaded page. *)
Theorem committed_paths_are_safe
    (github : list ApiCall → ApiCall → Settled jsstring)
    (github_content : list ApiCall → Settled JsValue)
    (callback_fetch : list ApiCall → jsstring → Settled HttpReply)
    (atob : jsstring → option jsstring)
    (JSON_parse : jsstring → option JsValue)
    (ToString_other : option JsValue → jsstring)
    (TypeError_message : jsstring)
    (toLowerCase : jsstring → jsstring)
    (formatFileSize : JsNumber → jsstring)
    (env_GITHUB_TARGET_BRANCH : option jsstring)
    (ops : list Operation) (storage : gmap jsstring jsstring) :
  let w :=
    run_all github github_content callback_fetch atob JSON_parse
      ToString_other TypeError_message toLowerCase formatFileSize
      env_GITHUB_TARGET_BRANCH ops (page_load storage) in
  Forall (λ item, Forall (λ qf, safe_path (desiredPath qf)) (files item))
    (submissionQueue w)
  ∧ Forall commit_safe (requests w).
Proof.
  cbv zeta.
  assert (paths_safe (submissionQueue (page_load storage))
          ∧ Forall commit_safe (requests (page_load storage))) as Hstart.
  { split; apply Forall_nil_2. }
  revert Hstart. generalize (page_load storage).
  induction ops as [|op ops IH]; intros w Hw; [apply Hw|].
  simpl. by apply IH, run_paths_safe.
Qed.

(** X10. Changing the type, selecting a skin or a coverflow file, adding to
    the queue and removing from it are local: however many of them run, no
    request is sent, and the storage, the Octokit instance and the manifest
    list stay as they were. *)
Theorem local_operations_send_nothing
    (github : list ApiCall → ApiCall → Settled jsstring)
    (github_content : list ApiCall → Settled JsValue)
    (callback_fetch : list ApiCall → jsstring → Settled HttpReply)
    (atob : jsstring → option jsstring)
    (JSON_parse : jsstring → option JsValue)
    (ToString_other : option JsValue → jsstring)
    (TypeError_message : jsstring)
    (toLowerCase : jsstring → jsstring)
    (formatFileSize : JsNumber → jsstring)
    (env_GITHUB_TARGET_BRANCH : option jsstring)
    (ops : list Operation) (w : World) :
  let w' :=
    run_all github github_content callback_fetch atob JSON_parse
      ToString_other TypeError_message toLowerCase formatFileSize
      env_GITHUB_TARGET_BRANCH ops w in
  Forall local_operation ops →
  requests w' = requests w
  ∧ localStorage w' = localStorage w
  ∧ octokit w' = octokit w
  ∧ existingContentList w' = existingContentList w.
Proof.
  cbv zeta. intros Hops. revert w.
  induction Hops as [|op ops Hop _ IH]; intros w; [done|].
  simpl.
  pose proof (footprint_local_operation local_only) as Hstep.
  specialize (Hstep ltac:(done)).
  specialize (Hstep ltac:(intros w1 w2 w3 (?&?&?&?) (?&?&?&?);
                          unfold local_only; split_and!; congruence)).
  specialize (Hstep ltac:(done) ltac:(done) ltac:(done)).
  specialize (Hstep github github_content callback_fetch atob JSON_parse
                ToString_other TypeError_message toLowerCase formatFileSize
                env_GITHUB_TARGET_BRANCH ltac:(done) ltac:(done) op w Hop).
  destruct Hstep as (H1 & H2 & H3 & H4).
  destruct (IH (run github github_content callback_fetch atob JSON_parse
                  ToString_other TypeError_message toLowerCase formatFileSize
                  env_GITHUB_TARGET_BRANCH op w)) as (I1 & I2 & I3 & I4).
  split_and!; congruence.
Qed.

Lemma local_operations_send_nothing_witness :
  requests
    (sample_run [ClickAddToQueue sample_background_form; ClickRemove 0;
                 ChangeSubmissionType]) = [].
Proof.
  destruct (local_operations_send_nothing github_ok content_unavailable
              callback_unreachable atob_none echo_parse ToString_sample []
              toLowerCase_ascii formatFileSize_sample None
              [ClickAddToQueue sample_background_form; ClickRemove 0;
               ChangeSubmissionType] (page_load ∅)) as [Hrequests _].
  - repeat constructor.
  - exact Hrequests.
Defined.

(** X11. [createPullRequest] touches neither the manifest list, nor the
    Octokit instance, nor [nextItemId], nor the storage, whether it
    succeeds or fails. So the manifest list is not fetched again after a
    pull request, and a background add is answered after it exactly as
    before it: what was just submitted is not reported as existing. *)
Theorem createPullRequest_keeps_session
    (github : list ApiCall → ApiCall → Settled jsstring)
    (TypeError_message : jsstring)
    (formatFileSize : JsNumber → jsstring)
    (env_GITHUB_TARGET_BRANCH : option jsstring)
    (toLowerCase : jsstring → jsstring)
    (timestamp : jsstring) (w : World) :
  let w' :=
    fst (createPullRequest github TypeError_message formatFileSize
           env_GITHUB_TARGET_BRANCH timestamp w) in
  existingContentList w' = existingContentList w
  ∧ octokit w' = octokit w
  ∧ nextItemId w' = nextItemId w
  ∧ localStorage w' = localStorage w
  ∧ ∀ f, submission_type f = lit "background" →
      snd (handleAddToQueue toLowerCase f w')
      = snd (handleAddToQueue toLowerCase f w)
      ∧ ((∃ d,
            submissionQueue (fst (handleAddToQueue toLowerCase f w'))
            = submissionQueue w' ++ [with_id d (nextItemId w)]
            ∧ submissionQueue (fst (handleAddToQueue toLowerCase f w))
              = submissionQueue w ++ [with_id d (nextItemId w)])
         ∨ (submissionQueue (fst (handleAddToQueue toLowerCase f w'))
            = submissionQueue w'
            ∧ submissionQueue (fst (handleAddToQueue toLowerCase f w))
              = submissionQueue w)).
Proof.
  cbv zeta.
  pose proof (footprint_createPullRequest session_kept (λ _, True)) as Hkept.
  specialize (Hkept ltac:(done)).
  specialize (Hkept ltac:(intros w1 w2 w3 (?&?&?&?) (?&?&?&?);
                          unfold session_kept; split_and!; congruence)).
  specialize (Hkept ltac:(done) ltac:(done) ltac:(done) ltac:(done)
                ltac:(done)).
  specialize (Hkept github TypeError_message formatFileSize
                env_GITHUB_TARGET_BRANCH timestamp ltac:(done) w).
  destruct Hkept as (Hmanifest & Hoctokit & Hnext & Hstorage).
  split_and!; try done.
  intros f Hf.
  destruct (handleAddToQueue_frame toLowerCase f
              (fst (createPullRequest github TypeError_message formatFileSize
                      env_GITHUB_TARGET_BRANCH timestamp w)) w) as [Hsnd Hq].
  { by apply build_item_frame_background. }
  split; [done|]. rewrite Hnext in Hq. exact Hq.
Qed.

Lemma createPullRequest_keeps_session_witness :
  snd (handleAddToQueue toLowerCase_ascii sample_background_form
         (fst (createPullRequest github_ok [] formatFileSize_sample None
                 sample_timestamp sample_queued)))
  = snd (handleAddToQueue toLowerCase_ascii sample_background_form
           sample_queued).
Proof.
  destruct (createPullRequest_keeps_session github_ok []
              formatFileSize_sample None toLowerCase_ascii sample_timestamp
              sample_queued) as (_ & _ & _ & _ & Hadd).
  destruct (Hadd sample_background_form) as [Hsnd _]; [reflexivity|].
  exact Hsnd.
Defined.

(** X12. [createPullRequest] sends nothing before its two checks have
    passed. On an empty queue it only shows that the queue is empty; when a
    queued file is larger than the limit of its input it only shows the
    message that names the first such file. Hence, when it has sent a
    request, the queue was not empty, every queued file passed the size
    check and the client was authenticated. *)
Theorem createPullRequest_guards
    (github : list ApiCall → ApiCall → Settled jsstring)
    (TypeError_message : jsstring)
    (formatFileSize : JsNumber → jsstring)
    (env_GITHUB_TARGET_BRANCH : option jsstring)
    (timestamp : jsstring) (w : World) :
  let w' :=
    fst (createPullRequest github TypeError_message formatFileSize
           env_GITHUB_TARGET_BRANCH timestamp w) in
  (submissionQueue w = [] →
     w' = showStatus
            (lit "Submission queue is empty. Please add files first.")
            error w)
  ∧ (∀ qf,
       first_oversize (item ← submissionQueue w; files item) qf →
       w' = showStatus
              (lit "File size for " ++ file_name (file qf)
                 ++ lit " exceeds the maximum limit of "
                 ++ formatFileSize (maxSize qf) ++ lit ".")
              error w)
  ∧ (requests w' ≠ requests w →
       submissionQueue w ≠ []
       ∧ Forall (λ qf, int_gt (file_size (file qf)) (maxSize qf) = false)
           (item ← submissionQueue w; files item)
       ∧ octokit w ≠ None).
Proof.
  cbv zeta. split; [|split].
  - intros Hq. by rewrite createPullRequest_empty.
  - intros qf Hfirst. by rewrite (createPullRequest_oversize _ _ _ _ _ _ qf).
  - intros Hsent.
    destruct (decide (submissionQueue w ≠ []
                      ∧ sizes_pass (submissionQueue w))) as [[Hne Hsizes]|Hnot].
    + split; [done|]. split; [done|]. intros Hnone. apply Hsent.
      by destruct (createPullRequest_unauthenticated github TypeError_message
                     formatFileSize env_GITHUB_TARGET_BRANCH timestamp w
                     Hne Hsizes Hnone) as [? _].
    + destruct (createPullRequest_refused github TypeError_message
                  formatFileSize env_GITHUB_TARGET_BRANCH timestamp w Hnot)
        as [msg Hmsg].
      rewrite Hmsg in Hsent. done.
Qed.

Lemma createPullRequest_guards_witness :
  fst (createPullRequest github_ok [] formatFileSize_sample None
         sample_timestamp sample_oversize_world)
  = showStatus
      (lit "File size for " ++ file_name (file sample_large_file)
         ++ lit " exceeds the maximum limit of "
         ++ formatFileSize_sample (maxSize sample_large_file) ++ lit ".")
      error sample_oversize_world.
Proof.
  destruct (createPullRequest_guards github_ok [] formatFileSize_sample None
              sample_timestamp sample_oversize_world) as (_ & Hlarge & _).
  apply (Hlarge sample_large_file). exists [], [].
  split; [reflexivity|]. split; [constructor|]. vm_compute. reflexivity.
Defined.

(** ** The session: manifest, stored token and code exchange *)

Lemma set_existingContentList_same w :
  set_existingContentList (existingContentList w) w = w.
Proof. by destruct w. Qed.

Section SessionFacts.

Variable github : list ApiCall → ApiCall → Settled jsstring.
Variable github_content : list ApiCall → Settled JsValue.
Variable callback_fetch : list ApiCall → jsstring → Settled HttpReply.
Variable atob : jsstring → option jsstring.
Variable JSON_parse : jsstring → option JsValue.
Variable ToString_other : option JsValue → jsstring.
Variable TypeError_message : jsstring.

#[local] Opaque lit GITHUB_REPO_OWNER GITHUB_REPO_NAME.

(** With an Octokit instance, [fetchExistingContentList] sends its one
    request, assigns at most the manifest list and returns. *)
Lemma fetchExistingContentList_runs w o :
  octokit w = Some o →
  ∃ manifest,
    fetchExistingContentList github_content atob JSON_parse ToString_other w
    = (set_existingContentList manifest
         (set_requests (requests w ++ [manifest_request]) w),
       Resolved ()).
Proof.
  intros Ho. unfold fetchExistingContentList, get_content, manifest_request.
  unfold try_catch, mbind, M_bind, mret, M_ret, modify, settle, throw,
    or_throw.
  rewrite Ho.
  destruct (github_content (requests w)) as [data|e]; [|by eexists].
  destruct (has_prop (lit "content") data) as [has|e]; [|by eexists].
  destruct (get_prop data (lit "content")) as [data_content|e]; [|by eexists].
  destruct (has && is_string data_content).
  2:{ exists (existingContentList w).
      by rewrite <- (set_existingContentList_same (set_requests _ w)) at 1. }
  destruct (atob (ToString ToString_other data_content)) as [content|];
    cbn; [|by eexists].
  destruct (JSON_parse content) as [parsedContent|]; cbn; [|by eexists].
  destruct (truthy parsedContent && typeof_object parsedContent);
    cbn; [|by eexists].
  destruct (get_prop parsedContent (lit "backgrounds")) as [b|e];
    cbn; [|by eexists].
  destruct (as_array b); cbn; [|by eexists].
  destruct (get_prop parsedContent (lit "coverflows")) as [c|e];
    cbn; [|by eexists].
  destruct (as_array c); cbn; [|by eexists].
  destruct (get_prop parsedContent (lit "skins")) as [s|e];
    cbn; [|by eexists].
  destruct (as_array s); cbn; by eexists.
Qed.

Lemma fetchExistingContentList_manifest w o fields s content mfields
    backgrounds coverflows skins :
  octokit w = Some o →
  github_content (requests w) = Resolved (JObj fields) →
  lookup_field (lit "content") fields = Some (JStr s) →
  atob s = Some content →
  JSON_parse content = Some (JObj mfields) →
  lookup_field (lit "backgrounds") mfields = Some (JArr backgrounds) →
  lookup_field (lit "coverflows") mfields = Some (JArr coverflows) →
  lookup_field (lit "skins") mfields = Some (JArr skins) →
  fetchExistingContentList github_content atob JSON_parse ToString_other w
  = (set_existingContentList (backgrounds ++ coverflows ++ skins)
       (set_requests (requests w ++ [manifest_request]) w),
     Resolved ()).
Proof.
  intros Ho Hdata Hc Ha Hp Hb Hcf Hs.
  unfold fetchExistingContentList, get_content, manifest_request.
  unfold try_catch, mbind, M_bind, mret, M_ret, modify, settle, throw,
    or_throw.
  rewrite Ho, Hdata. rewrite (has_prop_content _ _ Hc). cbn -[has_prop].
  rewrite Hc. cbn -[has_prop]. rewrite Ha. cbn. rewrite Hp. cbn.
  rewrite Hb. cbn. rewrite Hcf. cbn. rewrite Hs. done.
Qed.

Lemma fetchExistingContentList_no_content w o data :
  octokit w = Some o →
  github_content (requests w) = Resolved data →
  no_content data →
  fetchExistingContentList github_content atob JSON_parse ToString_other w
  = (set_requests (requests w ++ [manifest_request]) w, Resolved ()).
Proof.
  intros Ho Hdata Hno.
  unfold fetchExistingContentList, get_content, manifest_request.
  unfold try_catch, mbind, M_bind, mret, M_ret, modify, settle, throw,
    or_throw.
  rewrite Ho, Hdata. destruct Hno as [[entries ->]|(fields & -> & Hc)].
  - done.
  - cbn. rewrite Hc. by rewrite andb_false_r.
Qed.

Lemma checkAuth_accepted w token s :
  localStorage w !! token_key = Some token →
  string_truthy token = true →
  github (requests w) UsersGetAuthenticated = Resolved s →
  ∃ manifest,
    checkAuth github github_content atob JSON_parse ToString_other w
    = (set_existingContentList manifest
         (set_requests (requests w ++ [UsersGetAuthenticated; manifest_request])
            (set_octokit (Some {| auth := Some (JStr token) |}) w)),
       Resolved false).
Proof.
  intros Hlookup Htoken Hok. unfold checkAuth. rewrite Hlookup, Htoken.
  unfold try_catch. rewrite M_bind_run. unfold modify at 1.
  rewrite M_bind_run. unfold octokit_call, perform.
  cbn [octokit requests set_octokit].
  rewrite Hok. rewrite M_bind_run. unfold showUploadSection.
  destruct (fetchExistingContentList_runs
              (set_requests (requests w ++ [UsersGetAuthenticated])
                 (set_octokit (Some {| auth := Some (JStr token) |}) w))
              {| auth := Some (JStr token) |} eq_refl) as [manifest Hrun].
  cbn [requests set_requests set_octokit] in *. rewrite Hrun.
  exists manifest. unfold mret, M_ret. f_equal.
  unfold set_existingContentList, set_requests. cbn.
  by rewrite <- app_assoc.
Qed.

#[local] Transparent lit GITHUB_REPO_OWNER GITHUB_REPO_NAME.

End SessionFacts.

(** X13. When the request for [repo/list.json] is answered with a file whose
    content decodes and parses to an object with the three arrays,
    [fetchExistingContentList] makes the manifest list the backgrounds,
    followed by the coverflows, followed by the skins. When the answer has
    no string [content] (a directory listing, say), the list is not reset:
    it keeps the value it had. Either way one request is sent and nothing
    else changes. *)
Theorem fetchExistingContentList_reads_manifest
    (github_content : list ApiCall → Settled JsValue)
    (atob : jsstring → option jsstring)
    (JSON_parse : jsstring → option JsValue)
    (ToString_other : option JsValue → jsstring)
    (w : World) (o : Octokit) (data : JsValue) :
  let result :=
    fetchExistingContentList github_content atob JSON_parse ToString_other w in
  let sent :=
    set_requests
      (requests w
         ++ [ReposGetContent GITHUB_REPO_OWNER GITHUB_REPO_NAME
               (lit "repo/list.json")]) w in
  octokit w = Some o →
  github_content (requests w) = Resolved data →
  (∀ fields s content mfields backgrounds coverflows skins,
     data = JObj fields →
     lookup_field (lit "content") fields = Some (JStr s) →
     atob s = Some content →
     JSON_parse content = Some (JObj mfields) →
     lookup_field (lit "backgrounds") mfields = Some (JArr backgrounds) →
     lookup_field (lit "coverflows") mfields = Some (JArr coverflows) →
     lookup_field (lit "skins") mfields = Some (JArr skins) →
     result
     = (set_existingContentList (backgrounds ++ coverflows ++ skins) sent,
        Resolved ()))
  ∧ (no_content data → result = (sent, Resolved ())).
Proof.
  cbv zeta. intros Ho Hdata. split.
  - intros fields s content mfields backgrounds coverflows skins ->.
    by eapply fetchExistingContentList_manifest.
  - by eapply fetchExistingContentList_no_content.
Qed.

Lemma fetchExistingContentList_reads_manifest_witness :
  existingContentList
    (fst (fetchExistingContentList content_available atob_sample
            parse_sample_manifest ToString_sample (sample_world [])))
  = [sample_manifest_entry] ++ [] ++ [].
Proof.
  destruct (fetchExistingContentList_reads_manifest content_available
              atob_sample parse_sample_manifest ToString_sample
              (sample_world []) {| auth := Some (JStr (lit "token")) |}
              (JObj [(lit "content", JStr (lit "bWFuaWZlc3Q="))])
              eq_refl eq_refl) as [Hread _].
  rewrite (Hread [(lit "content", JStr (lit "bWFuaWZlc3Q="))]
             (lit "bWFuaWZlc3Q=") (lit "manifest")
             [(lit "backgrounds", JArr [sample_manifest_entry]);
              (lit "coverflows", JArr []); (lit "skins", JArr [])]
             [sample_manifest_entry] [] []
             eq_refl eq_refl eq_refl eq_refl eq_refl eq_refl eq_refl).
  reflexivity.
Defined.

(** X14. [checkAuth] does nothing when the storage holds no token or an
    empty one. When GitHub rejects the stored token, the token is removed
    and the page is loaded again, and [checkAuth] on the reloaded page does
    nothing: there is no second reload. When GitHub accepts the token, the
    Octokit instance holds it, the manifest is requested, the storage is
    kept and the page is not reloaded, whether or not the manifest could be
    read. *)
Theorem checkAuth_outcomes
    (github : list ApiCall → ApiCall → Settled jsstring)
    (github_content : list ApiCall → Settled JsValue)
    (atob : jsstring → option jsstring)
    (JSON_parse : jsstring → option JsValue)
    (ToString_other : option JsValue → jsstring)
    (w : World) :
  let checkAuth :=
    checkAuth github github_content atob JSON_parse ToString_other in
  (localStorage w !! lit "github_token" = None
   ∨ localStorage w !! lit "github_token" = Some [] →
   checkAuth w = (w, Resolved false))
  ∧ (∀ token e,
       localStorage w !! lit "github_token" = Some token → token ≠ [] →
       github (requests w) UsersGetAuthenticated = Rejected e →
       checkAuth w
       = (set_requests (requests w ++ [UsersGetAuthenticated])
            (page_load (delete (lit "github_token") (localStorage w))),
          Resolved true)
       ∧ checkAuth (fst (checkAuth w)) = (fst (checkAuth w), Resolved false))
  ∧ (∀ token s,
       localStorage w !! lit "github_token" = Some token → token ≠ [] →
       github (requests w) UsersGetAuthenticated = Resolved s →
       ∃ manifest,
         checkAuth w
         = (set_existingContentList manifest
              (set_requests
                 (requests w
                    ++ [UsersGetAuthenticated;
                        ReposGetContent GITHUB_REPO_OWNER GITHUB_REPO_NAME
                          (lit "repo/list.json")])
                 (set_octokit (Some {| auth := Some (JStr token) |}) w)),
            Resolved false)).
Proof.
  cbv zeta. split; [|split].
  - intros [Hnone|Hempty]; unfold checkAuth, token_key.
    + by rewrite Hnone.
    + by rewrite Hempty.
  - intros token e Hlookup Htoken Hfail.
    assert (string_truthy token = true) as Htruthy.
    { unfold string_truthy. by rewrite bool_decide_eq_false_2. }
    rewrite (checkAuth_rejected github github_content atob JSON_parse
               ToString_other w token e Hlookup Htruthy Hfail).
    split; [done|]. unfold checkAuth at 1. cbn [fst localStorage set_requests
      page_load]. by rewrite lookup_delete_eq.
  - intros token s Hlookup Htoken Hok.
    assert (string_truthy token = true) as Htruthy.
    { unfold string_truthy. by rewrite bool_decide_eq_false_2. }
    apply (checkAuth_accepted github github_content atob JSON_parse
             ToString_other w token s Hlookup Htruthy Hok).
Qed.

Lemma checkAuth_outcomes_witness :
  checkAuth github_rejects_token content_unavailable atob_none echo_parse
    ToString_sample sample_stored
  = (set_requests (requests sample_stored ++ [UsersGetAuthenticated])
       (page_load (delete (lit "github_token") (localStorage sample_stored))),
     Resolved true).
Proof.
  destruct (checkAuth_outcomes github_rejects_token content_unavailable
              atob_none echo_parse ToString_sample sample_stored)
    as (_ & Hrejected & _).
  destruct (Hrejected (lit "token") (Error (lit "Bad credentials")))
    as [Hrun _]; [vm_compute; reflexivity|discriminate|reflexivity|].
  exact Hrun.
Defined.

Section CallbackFacts.

Variable github_content : list ApiCall → Settled JsValue.
Variable callback_fetch : list ApiCall → jsstring → Settled HttpReply.
Variable atob : jsstring → option jsstring.
Variable JSON_parse : jsstring → option JsValue.
Variable ToString_other : option JsValue → jsstring.
Variable TypeError_message : jsstring.

#[local] Opaque lit GITHUB_REPO_OWNER GITHUB_REPO_NAME.

Lemma handleCallback_granted w code access_token :
  string_truthy code = true →
  exchange_succeeds (callback_fetch (requests w) code) access_token →
  ∃ manifest,
    handleCallback github_content callback_fetch atob JSON_parse
      ToString_other TypeError_message (Some code) w
    = (showStatus (lit "Successfully authenticated with GitHub!") success
         (set_existingContentList manifest
            (set_requests
               (requests w ++ [FetchGithubCallback code; manifest_request])
               (set_octokit (Some {| auth := access_token |})
                  (set_localStorage
                     (<[token_key := ToString ToString_other access_token]>
                        (localStorage w)) w)))),
       Resolved ()).
Proof.
  intros Hcode (reply & data & err & Hfetch & Hok & Hjson & Herr & Hfalsy
                & Htoken).
  unfold handleCallback. rewrite Hcode. cbn [negb].
  unfold try_catch. rewrite M_bind_run. unfold modify at 1.
  rewrite M_bind_run. cbn [requests showStatus set_status]. rewrite Hfetch.
  rewrite M_bind_run, Hok. cbn [negb]. unfold mret at 1, M_ret at 1.
  rewrite M_bind_run, Hjson. unfold settle at 1.
  rewrite M_bind_run, Herr. unfold settle at 1.
  rewrite M_bind_run, Hfalsy. unfold mret at 1, M_ret at 1.
  rewrite M_bind_run, Htoken. unfold settle at 1.
  rewrite M_bind_run. unfold modify at 1.
  rewrite M_bind_run. unfold modify at 1.
  rewrite M_bind_run. unfold showUploadSection.
  match goal with
  | |- context [fetchExistingContentList _ _ _ _ ?w0] =>
      destruct (fetchExistingContentList_runs github_content atob JSON_parse
                  ToString_other w0 {| auth := access_token |} eq_refl)
        as [manifest Hrun]
  end.
  rewrite Hrun. exists manifest. unfold modify. f_equal.
  unfold showStatus, set_status, set_existingContentList, set_requests. cbn.
  by rewrite <- app_assoc.
Qed.

Lemma handleCallback_refused w code :
  string_truthy code = true →
  (∀ access_token,
     ¬ exchange_succeeds (callback_fetch (requests w) code) access_token) →
  ∃ msg,
    handleCallback github_content callback_fetch atob JSON_parse
      ToString_other TypeError_message (Some code) w
    = (showStatus (lit "Error during authentication: " ++ msg) error
         (set_requests (requests w ++ [FetchGithubCallback code]) w),
       Resolved ()).
Proof.
  intros Hcode Hnot.
  unfold handleCallback. rewrite Hcode. cbn [negb].
  unfold try_catch. rewrite M_bind_run. unfold modify at 1.
  rewrite M_bind_run. cbn [requests showStatus set_status].
  destruct (callback_fetch (requests w) code) as [reply|e] eqn:Hfetch;
    [|by eexists].
  rewrite M_bind_run.
  destruct (reply_ok reply) eqn:Hok; cbn [negb].
  2:{ rewrite M_bind_run. unfold settle at 1.
      destruct (reply_json reply) as [errorData|e]; [|by eexists].
      rewrite M_bind_run. unfold settle at 1.
      destruct (get_prop errorData (lit "error")) as [err|e]; by eexists. }
  unfold mret at 1, M_ret at 1. rewrite M_bind_run. unfold settle at 1.
  destruct (reply_json reply) as [data|e] eqn:Hjson; [|by eexists].
  rewrite M_bind_run. unfold settle at 1.
  destruct (get_prop data (lit "error")) as [err|e] eqn:Herr; [|by eexists].
  rewrite M_bind_run.
  destruct (truthy_opt err) eqn:Hfalsy.
  - rewrite M_bind_run. unfold settle at 1.
    destruct (get_prop data (lit "error_description")); by eexists.
  - destruct (get_prop data (lit "access_token")) as [access_token|e]
      eqn:Htoken.
    + destruct (Hnot access_token). by exists reply, data, err.
    + destruct data; discriminate.
Qed.

#[local] Transparent lit GITHUB_REPO_OWNER GITHUB_REPO_NAME.

End CallbackFacts.

Lemma exchange_succeeds_decide answer :
  (∃ access_token, exchange_succeeds answer access_token)
  ∨ (∀ access_token, ¬ exchange_succeeds answer access_token).
Proof.
  destruct answer as [reply|e].
  2:{ right. intros t (? & ? & ? & H & _). discriminate. }
  destruct (reply_ok reply) eqn:Hok.
  2:{ right. intros t (? & ? & ? & H & Hok' & _). simplify_eq. congruence. }
  destruct (reply_json reply) as [data|e] eqn:Hjson.
  2:{ right. intros t (? & ? & ? & H & _ & Hj & _). simplify_eq. congruence. }
  destruct (get_prop data (lit "error")) as [err|e] eqn:Herr.
  2:{ right. intros t (? & ? & ? & H & _ & Hj & He & _). simplify_eq.
      congruence. }
  destruct (truthy_opt err) eqn:Hfalsy.
  { right. intros t (? & ? & ? & H & _ & Hj & He & Hf & _). simplify_eq.
    congruence. }
  destruct (get_prop data (lit "access_token")) as [access_token|e] eqn:Ht.
  - left. exists access_token. by exists reply, data, err.
  - destruct data; discriminate.
Qed.

(** X15. [handleCallback] never throws, and does nothing without a code in
    the URL. With a code it sends the code to the callback endpoint once.
    When the reply is ok and its JSON has no truthy [error], it stores
    [data.access_token], converted to a string and unchecked, under
    ['github_token'], creates the Octokit instance with it, requests the
    manifest and shows the success. In every other case it shows an error
    that starts with [Error during authentication: ] and changes nothing
    else: no token is stored and the Octokit instance is as before. *)
Theorem handleCallback_outcomes
    (github_content : list ApiCall → Settled JsValue)
    (callback_fetch : list ApiCall → jsstring → Settled HttpReply)
    (atob : jsstring → option jsstring)
    (JSON_parse : jsstring → option JsValue)
    (ToString_other : option JsValue → jsstring)
    (TypeError_message : jsstring)
    (url_code : option jsstring) (w : World) :
  let result :=
    handleCallback github_content callback_fetch atob JSON_parse
      ToString_other TypeError_message url_code w in
  snd result = Resolved ()
  ∧ (url_code = None ∨ url_code = Some [] → fst result = w)
  ∧ (∀ code, url_code = Some code → code ≠ [] →
       (∃ access_token manifest,
          exchange_succeeds (callback_fetch (requests w) code) access_token
          ∧ fst result
            = showStatus (lit "Successfully authenticated with GitHub!")
                success
                (set_existingContentList manifest
                   (set_requests
                      (requests w
                         ++ [FetchGithubCallback code;
                             ReposGetContent GITHUB_REPO_OWNER GITHUB_REPO_NAME
                               (lit "repo/list.json")])
                      (set_octokit (Some {| auth := access_token |})
                         (set_localStorage
                            (<[lit "github_token" :=
                                 ToString ToString_other access_token]>
                               (localStorage w)) w)))))
       ∨ ((∀ access_token,
             ¬ exchange_succeeds (callback_fetch (requests w) code)
                 access_token)
          ∧ ∃ msg,
              fst result
              = showStatus (lit "Error during authentication: " ++ msg) error
                  (set_requests (requests w ++ [FetchGithubCallback code])
                     w))).
Proof.
  cbv zeta.
  assert (∀ code, code ≠ [] → string_truthy code = true) as Htruthy.
  { intros code Hcode. unfold string_truthy. by rewrite bool_decide_eq_false_2. }
  split; [|split].
  - destruct url_code as [code|]; [|done].
    destruct (decide (code = [])) as [->|Hcode]; [done|].
    destruct (exchange_succeeds_decide (callback_fetch (requests w) code))
      as [[access_token Hyes]|Hno].
    + destruct (handleCallback_granted github_content callback_fetch atob
                  JSON_parse ToString_other TypeError_message w code
                  access_token (Htruthy code Hcode) Hyes) as [manifest ->].
      done.
    + destruct (handleCallback_refused github_content callback_fetch atob
                  JSON_parse ToString_other TypeError_message w code
                  (Htruthy code Hcode) Hno) as [msg ->].
      done.
  - by intros [->| ->].
  - intros code -> Hcode.
    destruct (exchange_succeeds_decide (callback_fetch (requests w) code))
      as [[access_token Hyes]|Hno].
    + left.
      destruct (handleCallback_granted github_content callback_fetch atob
                  JSON_parse ToString_other TypeError_message w code
                  access_token (Htruthy code Hcode) Hyes) as [manifest ->].
      by exists access_token, manifest.
    + right. split; [done|].
      destruct (handleCallback_refused github_content callback_fetch atob
                  JSON_parse ToString_other TypeError_message w code
                  (Htruthy code Hcode) Hno) as [msg ->].
      by exists msg.
Qed.

Lemma handleCallback_outcomes_witness :
  localStorage
    (fst (handleCallback content_unavailable callback_grants atob_none
            echo_parse ToString_sample [] (Some (lit "abc")) (page_load ∅)))
  = <[lit "github_token" := lit "gho_1"]> ∅.
Proof.
  destruct (handleCallback_outcomes content_unavailable callback_grants
              atob_none echo_parse ToString_sample [] (Some (lit "abc"))
              (page_load ∅)) as (_ & _ & Hcode).
  destruct (Hcode (lit "abc") eq_refl ltac:(discriminate))
    as [(access_token & manifest & Hyes & ->)|[Hno _]].
  - destruct Hyes as (reply & data & err & Hfetch & _ & Hjson & _ & _ & Htoken).
    injection Hfetch as <-. injection Hjson as <-. injection Htoken as <-.
    reflexivity.
  - destruct (Hno (Some (JStr (lit "gho_1")))).
    eexists _, _, _. repeat split; reflexivity.
Defined.

(** ** The login round trip: [handleCallback] against the endpoint *)

Section RoundTrip.

Variable github_content : list ApiCall → Settled JsValue.
Variable callback_fetch : list ApiCall → jsstring → Settled HttpReply.
Variable atob : jsstring → option jsstring.
Variable JSON_parse : jsstring → option JsValue.
Variable ToString_other : option JsValue → jsstring.
Variable TypeError_message : jsstring.

#[local] Opaque lit GITHUB_REPO_OWNER GITHUB_REPO_NAME.

Lemma lookup_field_here key v rest :
  lookup_field key ((key, v) :: rest) = Some v.
Proof. simpl. by rewrite decide_True. Qed.

Lemma handleCallback_error_reply w code reply msg :
  string_truthy code = true →
  callback_fetch (requests w) code = Resolved reply →
  reply_ok reply = false →
  reply_json reply = Resolved (error_payload msg) →
  handleCallback github_content callback_fetch atob JSON_parse
    ToString_other TypeError_message (Some code) w
  = (showStatus (shown_error msg) error
       (set_requests (requests w ++ [FetchGithubCallback code]) w),
     Resolved ()).
Proof.
  intros Hcode Hfetch Hok Hjson.
  unfold handleCallback. rewrite Hcode. cbn [negb].
  unfold try_catch. rewrite M_bind_run. unfold modify at 1.
  rewrite M_bind_run. cbn [requests showStatus set_status]. rewrite Hfetch.
  rewrite M_bind_run, Hok. cbn [negb].
  rewrite M_bind_run, Hjson. unfold settle at 1.
  rewrite M_bind_run. unfold settle at 1, error_payload, get_prop.
  rewrite lookup_field_here. unfold throw, modify, shown_error.
  cbn [truthy_opt from_option truthy ToString message].
  by destruct (string_truthy msg).
Qed.

#[local] Transparent lit GITHUB_REPO_OWNER GITHUB_REPO_NAME.

End RoundTrip.

Section EndpointOnCode.

Variable env_GITHUB_CLIENT_ID : option jsstring.
Variable env_GITHUB_CLIENT_SECRET : option jsstring.
Variable upstream_fetch : jsstring → jsstring → JsValue → Settled HttpReply.
Variable ToString_other : option JsValue → jsstring.
Variable TypeError_message : jsstring.

#[local] Opaque lit.

(** The endpoint on the request of the client: the token of a granted
    exchange with status 200, or an error message with status 500. *)
Lemma github_callback_on_code code response :
  string_truthy code = true →
  github_callback env_GITHUB_CLIENT_ID env_GITHUB_CLIENT_SECRET upstream_fetch
    ToString_other TypeError_message (callback_request code)
  = Resolved response →
  (∃ id secret token,
     credentials_set env_GITHUB_CLIENT_ID env_GITHUB_CLIENT_SECRET id secret
     ∧ token_granted (upstream_fetch id secret (JStr code)) token
     ∧ response = {| status_code := 200;
                     payload := JObj [(lit "access_token", token)] |})
  ∨ (∃ msg, response = {| status_code := 500; payload := error_payload msg |}).
Proof.
  intros Hcode. unfold github_callback, callback_request.
  cbn [method body get_prop_opt get_prop].
  rewrite bool_decide_eq_true_2 by done. cbn [negb].
  rewrite lookup_field_here. unfold mbind, Settled_bind.
  cbn [truthy_opt from_option truthy]. rewrite Hcode. cbn [negb].
  destruct env_GITHUB_CLIENT_ID as [id|];
    [|intros [= <-]; right; by eexists].
  destruct env_GITHUB_CLIENT_SECRET as [secret|];
    [|intros [= <-]; right; by eexists].
  destruct (string_truthy id) eqn:Hid; cbn [andb];
    [|intros [= <-]; right; by eexists].
  destruct (string_truthy secret) eqn:Hsecret;
    [|intros [= <-]; right; by eexists].
  destruct (exchange upstream_fetch ToString_other id secret (JStr code))
    as [answer|e] eqn:Hexchange; intros [= <-]; [|right; by eexists].
  apply exchange_resolved in Hexchange as (token & Hgranted & ->).
  left. exists id, secret, token. split; [|done].
  unfold string_truthy in Hid, Hsecret.
  apply negb_true_iff, bool_decide_eq_false_1 in Hid, Hsecret. done.
Qed.

#[local] Transparent lit.

End EndpointOnCode.

(** X16. The login round trip. When [handleCallback] sends its code to the
    endpoint and receives what the endpoint answered, then either the
    server credentials are set and GitHub granted a token, and the client
    stores that token under ['github_token'] and authenticates with it; or
    the endpoint answered 500 with an error message, and the client stores
    nothing, stays unauthenticated and shows that message after
    [Error during authentication: ] (an empty message is replaced by
    [Failed to exchange code for token]). *)
Theorem login_round_trip
    (env_GITHUB_CLIENT_ID env_GITHUB_CLIENT_SECRET : option jsstring)
    (upstream_fetch : jsstring → jsstring → JsValue → Settled HttpReply)
    (ToString_server : option JsValue → jsstring)
    (TypeError_message_server : jsstring)
    (github_content : list ApiCall → Settled JsValue)
    (callback_fetch : list ApiCall → jsstring → Settled HttpReply)
    (atob : jsstring → option jsstring)
    (JSON_parse : jsstring → option JsValue)
    (ToString_other : option JsValue → jsstring)
    (TypeError_message : jsstring)
    (code : jsstring) (w : World) (response : Response) (reply : HttpReply) :
  let w' :=
    fst (handleCallback github_content callback_fetch atob JSON_parse
           ToString_other TypeError_message (Some code) w) in
  code ≠ [] →
  github_callback env_GITHUB_CLIENT_ID env_GITHUB_CLIENT_SECRET upstream_fetch
    ToString_server TypeError_message_server
    {| method := lit "POST"; body := Some (JObj [(lit "code", JStr code)]) |}
  = Resolved response →
  callback_fetch (requests w) code = Resolved reply →
  delivered response reply →
  (∃ id secret token,
     credentials_set env_GITHUB_CLIENT_ID env_GITHUB_CLIENT_SECRET id secret
     ∧ token_granted (upstream_fetch id secret (JStr code)) token
     ∧ status_code response = 200
     ∧ localStorage w'
       = <[lit "github_token" := ToString ToString_other (Some token)]>
           (localStorage w)
     ∧ octokit w' = Some {| auth := Some token |}
     ∧ status w'
       = Some (lit "Successfully authenticated with GitHub!", success))
  ∨ (∃ msg,
       response = {| status_code := 500; payload := error_payload msg |}
       ∧ localStorage w' = localStorage w
       ∧ octokit w' = octokit w
       ∧ status w'
         = Some (lit "Error during authentication: "
                   ++ (if string_truthy msg then msg
                       else lit "Failed to exchange code for token"),
                 error)).
Proof.
  cbv zeta. intros Hcode Hresponse Hfetch [Hok Hjson].
  assert (string_truthy code = true) as Htruthy.
  { unfold string_truthy. by rewrite bool_decide_eq_false_2. }
  destruct (github_callback_on_code env_GITHUB_CLIENT_ID
              env_GITHUB_CLIENT_SECRET upstream_fetch ToString_server
              TypeError_message_server code response Htruthy Hresponse)
    as [(id & secret & token & Hcreds & Hgranted & ->)|[msg ->]].
  - left. exists id, secret, token. split; [done|]. split; [done|].
    split; [done|].
    destruct (handleCallback_granted github_content callback_fetch atob
                JSON_parse ToString_other TypeError_message w code (Some token)
                Htruthy) as [manifest ->]; [|done].
    exists reply, (JObj [(lit "access_token", token)]), None.
    split; [done|]. split; [done|]. split; [done|]. split; [done|].
    split; [done|]. cbn [get_prop]. by rewrite lookup_field_here.
  - right. exists msg. split; [done|].
    by rewrite (handleCallback_error_reply github_content callback_fetch atob
                  JSON_parse ToString_other TypeError_message w code reply msg
                  Htruthy Hfetch Hok Hjson).
Qed.

Lemma login_round_trip_witness :
  status
    (fst (handleCallback content_unavailable callback_fails atob_none
            echo_parse ToString_sample [] (Some (lit "abc")) (page_load ∅)))
  = Some (lit "Error during authentication: fetch failed", error).
Proof.
  destruct (login_round_trip (Some (lit "id")) (Some (lit "secret"))
              upstream_offline ToString_sample [] content_unavailable
              callback_fails atob_none echo_parse ToString_sample []
              (lit "abc") (page_load ∅)
              {| status_code := 500;
                 payload := error_payload (lit "fetch failed") |}
              sample_error_reply
              ltac:(discriminate) ltac:(vm_compute; reflexivity)
              eq_refl ltac:(split; reflexivity))
    as [(id & secret & token & _ & _ & Hstatus & _)|(msg & Hmsg & _ & _ & Hshown)].
  - discriminate Hstatus.
  - injection Hmsg as <-. exact Hshown.
Defined.

(** ** The listeners of the two file inputs *)

Section FileInputs.

Variable JSON_parse : jsstring → option JsValue.
Variable TypeError_message : jsstring.
Variable toLowerCase : jsstring → jsstring.

#[local] Opaque lit.








#[local] Transparent lit.

End FileInputs.






